(** * The PostgreSQL liveness monitor (pinger) of SDL/Practice-2/main.py

    A shallow embedding of the monitor script: configuration from the
    environment, the startup credential check, logger setup, the signal
    handler and its stop flag, the scoped connection, the diagnostic check,
    the main loop with its chunked sleep and the process entry point.

    The script is effectful: it logs, talks to a database, sleeps, reads the
    clock and receives signals.  The embedding threads an explicit process
    state through a state-and-exception monad.  Everything the outside world
    decides (what each database call does, how long it takes, which signals
    arrive and when, whether the log file can be opened) is read from a
    [World] oracle.  A float is the rational it stands for, rounded to
    binary64 where the script computes one.

    The one-shot script of SDL/secure-db-connection/main.py is embedded in
    the module [Secure]. *)

From Stdlib Require Import ZArith QArith Qround Qminmax Lqa String Ascii List Lia.
From stdpp Require Import base gmap strings pretty.

Local Open Scope string_scope.
Local Open Scope Z_scope.

(* ===================================================================== *)
(** ** Python values, exceptions and built-ins used by the script *)
(* ===================================================================== *)

Module Py.

(** The exception classes that matter to the script's [except] clauses,
    with the class hierarchy of Python and psycopg2. *)
Inductive exn_class :=
| BaseException
| KeyboardInterrupt
| SystemExit
| GeneratorExit
| Exception
| ValueError
| OSError
| PgError            (* psycopg2.Error *)
| InterfaceError     (* psycopg2.InterfaceError *)
| DatabaseError      (* psycopg2.DatabaseError *)
| OperationalError   (* psycopg2.OperationalError *)
| ProgrammingError.  (* psycopg2.ProgrammingError *)

Definition base_class (c : exn_class) : option exn_class :=
  match c with
  | BaseException => None
  | KeyboardInterrupt | SystemExit | GeneratorExit | Exception => Some BaseException
  | ValueError | OSError | PgError => Some Exception
  | InterfaceError | DatabaseError => Some PgError
  | OperationalError | ProgrammingError => Some DatabaseError
  end.

Definition exn_class_eqb (c d : exn_class) : bool :=
  match c, d with
  | BaseException, BaseException | KeyboardInterrupt, KeyboardInterrupt
  | SystemExit, SystemExit | GeneratorExit, GeneratorExit
  | Exception, Exception | ValueError, ValueError | OSError, OSError
  | PgError, PgError | InterfaceError, InterfaceError
  | DatabaseError, DatabaseError | OperationalError, OperationalError
  | ProgrammingError, ProgrammingError => true
  | _, _ => false
  end.

(** [issubclass c d], walking up the (single-inheritance) hierarchy; the
    hierarchy is four levels deep, so five steps reach the root. *)
Fixpoint issubclass_fuel (n : nat) (c d : exn_class) : bool :=
  exn_class_eqb c d ||
  match n with
  | O => false
  | S n' => match base_class c with
            | Some b => issubclass_fuel n' b d
            | None => false
            end
  end.

Definition issubclass (c d : exn_class) : bool := issubclass_fuel 5 c d.

(** A raised exception: an instance of a class with its message, or
    [SystemExit] with its exit status as raised by [sys.exit(code)]. *)
Inductive exn :=
| Exn (c : exn_class) (msg : string)
| SysExit (code : Z).

Definition class_of (e : exn) : exn_class :=
  match e with
  | Exn c _ => c
  | SysExit _ => SystemExit
  end.

Definition isinstance (e : exn) (c : exn_class) : bool :=
  issubclass (class_of e) c.

(** [str(e)] *)
Definition str_exn (e : exn) : string :=
  match e with
  | Exn _ msg => msg
  | SysExit code => pretty code
  end.

(** The values a result column can hold, as far as [str()] is concerned. *)
Inductive value :=
| VStr (s : string)
| VNone.

Definition str (v : value) : string :=
  match v with
  | VStr s => s
  | VNone => "None"
  end.

(** [str(x)] for an optional string such as the result of [os.getenv]. *)
Definition str_opt (o : option string) : string :=
  match o with
  | Some s => s
  | None => "None"
  end.

(** Truthiness: [not x] for an optional string, a string and an optional
    tuple. *)
Definition truthy_opt_str (o : option string) : bool :=
  match o with
  | Some (String _ _) => true
  | _ => false
  end.

Definition truthy_str (s : string) : bool :=
  match s with
  | String _ _ => true
  | EmptyString => false
  end.

Definition truthy_row (r : option (list value)) : bool :=
  match r with
  | Some (_ :: _) => true
  | _ => false
  end.

(** [s.startswith(p)] *)
Definition startswith (s p : string) : bool := String.prefix p s.

(** *** [int(s)] for a string argument, base 10

    Surrounding whitespace is ignored, one sign is allowed, and the digits
    may be grouped by single underscores.  The model is [int()] on plain
    literals: strings of ASCII characters that are short enough for
    CPython's limit on the number of digits never to apply (that limit can
    be configured, but not below 640 digits).  On other strings [int()]
    also accepts the decimal digits and the whitespace of other scripts,
    which the model rejects. *)

Definition plain_literal (s : string) : bool :=
  (String.length s <=? 640)%nat
  && forallb (fun a => (nat_of_ascii a <? 128)%nat) (list_ascii_of_string s).

(** The whitespace that [int()] skips in an ASCII string: tab, line feed,
    vertical tab, form feed, carriage return and space. *)
Definition is_space (a : ascii) : bool :=
  let n := nat_of_ascii a in
  ((9 <=? n) && (n <=? 13) || (n =? 32))%nat.

Definition digit_of (a : ascii) : option Z :=
  let n := Z.of_nat (nat_of_ascii a) in
  if (48 <=? n) && (n <=? 57) then Some (n - 48) else None.

Definition is_underscore (a : ascii) : bool :=
  Nat.eqb (nat_of_ascii a) 95.

Fixpoint lstrip (s : string) : string :=
  match s with
  | String a rest => if is_space a then lstrip rest else s
  | EmptyString => s
  end.

Definition strip (s : string) : string :=
  String.rev (lstrip (String.rev (lstrip s))).

(** [after_digit] tells whether the previous character was a digit: an
    underscore is accepted only between two digits. *)
Fixpoint parse_digits (acc : Z) (after_digit : bool) (s : string) : option Z :=
  match s with
  | EmptyString => if after_digit then Some acc else None
  | String a rest =>
      match digit_of a with
      | Some d => parse_digits (acc * 10 + d) true rest
      | None =>
          if is_underscore a && after_digit then
            match rest with
            | String b _ =>
                match digit_of b with
                | Some _ => parse_digits acc false rest
                | None => None
                end
            | EmptyString => None
            end
          else None
      end
  end.

Definition int (s : string) : option Z :=
  match strip s with
  | String "-" rest => Z.opp <$> parse_digits 0 false rest
  | String "+" rest => parse_digits 0 false rest
  | body => parse_digits 0 false body
  end.

(** *** [repr(s)] for a string, and the message of a failed [int(s)]

    [repr] puts the string between single quotes, or between double quotes
    when it holds a single quote and no double quote; it escapes the
    backslash and the quote in use, writes tab, line feed and carriage
    return as [\t], [\n] and [\r], and the other control characters as
    [\xhh].  Bytes beyond ASCII are copied, as [repr] does for the
    printable characters they encode. *)

Definition double_quote : ascii := ascii_of_nat 34.

Definition hex_digit (n : nat) : ascii :=
  nth n ["0"; "1"; "2"; "3"; "4"; "5"; "6"; "7"; "8"; "9";
         "a"; "b"; "c"; "d"; "e"; "f"]%char "0"%char.

Definition repr_char (quote a : ascii) : string :=
  let n := nat_of_ascii a in
  if Ascii.eqb a quote || Ascii.eqb a "\" then String "\" (String a "")
  else if (n =? 9)%nat then "\t"
  else if (n =? 10)%nat then "\n"
  else if (n =? 13)%nat then "\r"
  else if (n <? 32)%nat || (n =? 127)%nat then
    String "\" (String "x" (String (hex_digit (n / 16)%nat)
                                    (String (hex_digit (n mod 16)%nat) "")))
  else String a "".

Fixpoint contains (a : ascii) (s : string) : bool :=
  match s with
  | EmptyString => false
  | String b rest => Ascii.eqb a b || contains a rest
  end.

Fixpoint repr_body (quote : ascii) (s : string) : string :=
  match s with
  | EmptyString => EmptyString
  | String a rest => repr_char quote a ++ repr_body quote rest
  end.

Definition repr (s : string) : string :=
  let quote := if contains "'" s && negb (contains double_quote s)
               then double_quote else "'"%char in
  String quote (repr_body quote s ++ String quote "").

(** The message of the [ValueError] of [int(s)]: its format is
    ["invalid literal for int() with base %d: %.200R"], which keeps the
    first 200 characters of [repr(s)]. *)
Definition invalid_literal (s : string) : string :=
  "invalid literal for int() with base 10: " ++ substring 0 200 (repr s).

(** *** Floats

    A float is the rational it stands for.  [float q] is the binary64
    nearest to [q], ties going to the even significand, which is what a
    conversion or an arithmetic operation on floats returns for the exact
    result [q].  Infinities are left out: a result beyond the largest
    binary64 is returned as it is rounded. *)

(** [n / d] rounded to the nearest integer, ties to even, for [0 <= n] and
    [0 < d]. *)
Definition round_half_even (n d : Z) : Z :=
  let q := n / d in
  match (2 * (n mod d) ?= d) with
  | Lt => q
  | Gt => q + 1
  | Eq => if Z.even q then q else q + 1
  end.

(** The integer part of the binary logarithm of [n / d], for [0 < n] and
    [0 < d]. *)
Definition ilog2 (n d : Z) : Z :=
  let c := Z.log2 n - Z.log2 d in
  if (if 0 <=? c then n <? d * 2 ^ c else n * 2 ^ (- c) <? d)
  then c - 1 else c.

(** The spacing of the binary64 numbers around [n / d] is [2 ^ e]: 52 bits
    below the leading one, and never less than [2 ^ -1074]. *)
Definition float_pos (n d : Z) : Q :=
  let e := Z.max (ilog2 n d - 52) (-1074) in
  if 0 <=? e then inject_Z (round_half_even n (d * 2 ^ e) * 2 ^ e)
  else Qmake (round_half_even (n * 2 ^ (- e)) d) (Z.to_pos (2 ^ (- e))).

Definition float (q : Q) : Q :=
  match Qnum q with
  | Z0 => 0%Q
  | Zpos n => Qred (float_pos (Zpos n) (Zpos (Qden q)))
  | Zneg n => Qred (- float_pos (Zpos n) (Zpos (Qden q)))
  end.

(** [x - y] on floats. *)
Definition fsub (x y : Q) : Q := float (x - y).

(** An integer can be converted to a float when it rounds to a binary64:
    from 2^1024 - 2^970 on, the conversion raises [OverflowError]. *)
Definition fits_float (n : Z) : bool := Z.abs n <? 2 ^ 1024 - 2 ^ 970.


(** *** [os.path.dirname] (posixpath) *)

(** The prefix of [s] up to and including its last slash. *)
Fixpoint upto_last_slash (s : string) : string :=
  match s with
  | EmptyString => EmptyString
  | String a rest =>
      match upto_last_slash rest with
      | EmptyString => if Ascii.eqb a "/" then String a EmptyString else EmptyString
      | head => String a head
      end
  end.

Fixpoint all_slashes (s : string) : bool :=
  match s with
  | EmptyString => true
  | String a rest => Ascii.eqb a "/" && all_slashes rest
  end.

Fixpoint lstrip_slashes (s : string) : string :=
  match s with
  | String a rest => if Ascii.eqb a "/" then lstrip_slashes rest else s
  | EmptyString => s
  end.

Definition rstrip_slashes (s : string) : string :=
  String.rev (lstrip_slashes (String.rev s)).

Definition dirname (p : string) : string :=
  let head := upto_last_slash p in
  if truthy_str head && negb (all_slashes head) then rstrip_slashes head else head.

End Py.

(* ===================================================================== *)
(** ** Data model: configuration, logging, events, process state *)
(* ===================================================================== *)

(** The module-level configuration constants (lines 11-18). *)
Record Config := {
  DB_HOST : string;
  DB_PORT : Z;
  DB_NAME : option string;
  DB_USER : option string;
  DB_PASS : option string;
  PING_INTERVAL : Z;
  CONNECT_TIMEOUT : Z;
  LOG_FILE : string
}.

(** Severities of the [logging] module. *)
Inductive level := DEBUG | INFO | WARNING | ERROR | CRITICAL.

Definition levelno (l : level) : Z :=
  match l with
  | DEBUG => 10 | INFO => 20 | WARNING => 30 | ERROR => 40 | CRITICAL => 50
  end.

Definition levelname (l : level) : string :=
  match l with
  | DEBUG => "DEBUG" | INFO => "INFO" | WARNING => "WARNING"
  | ERROR => "ERROR" | CRITICAL => "CRITICAL"
  end.

(** Where a handler writes. *)
Inductive sink :=
| Stdout
| Stderr
| FileAppend (path : string).   (* FileHandler(path, mode="a") *)

(** A [logging.Formatter] format string, split at its [%(...)s] fields. *)
Inductive fmt_piece :=
| Lit (s : string)
| Asctime
| Levelname
| Message.

Record Handler := {
  h_sink : sink;
  h_level : level;
  h_fmt : list fmt_piece
}.

(** A log record as a formatter sees it. *)
Record LogRecord := {
  rec_asctime : string;
  rec_level : level;
  rec_message : string
}.

Definition format_piece (r : LogRecord) (p : fmt_piece) : string :=
  match p with
  | Lit s => s
  | Asctime => rec_asctime r
  | Levelname => levelname (rec_level r)
  | Message => rec_message r
  end.

Definition format (fmt : list fmt_piece) (r : LogRecord) : string :=
  fold_right (fun p acc => format_piece r p ++ acc) "" fmt.

(** The two signals the script installs a handler for. *)
Inductive signal := SIGINT | SIGTERM.

Definition signum (sg : signal) : Z :=
  match sg with
  | SIGINT => 2
  | SIGTERM => 15
  end.

Definition signal_eqb (a b : signal) : bool :=
  match a, b with
  | SIGINT, SIGINT | SIGTERM, SIGTERM => true
  | _, _ => false
  end.

(** Keyword arguments of [psycopg2.connect]. *)
Record conn_kwargs := {
  kw_connect_timeout : Z;
  kw_dbname : option string;
  kw_user : option string;
  kw_password : option string;
  kw_host : string;
  kw_port : Z
}.

(** A connection handle: the ordinal of the [connect] call that made it. *)
Definition conn := nat.

(** What the process does that can be observed from outside. *)
#[warnings="-register-all"] Inductive event :=
| EvPrint (sk : sink) (text : string)
| EvMakedirs (path : string)
| EvAddHandler (h : Handler)
| EvSignalInstall (sg : signal)
| EvSignal (sg : signal) (handler : list event)
    (* a signal interrupts the script; what its handler does, in order *)
| EvReadFlag (b : bool)                   (* a read of stop_requested *)
| EvLog (lvl : level) (msg : string)      (* a call of a logger method *)
| EvWrite (sk : sink) (line : string)     (* a handler writes a line *)
| EvConnect (c : conn) (kw : conn_kwargs)
| EvCursor (c : conn)
| EvExecute (c : conn) (query : string) (params : list Z)
| EvCommit (c : conn)
| EvRollback (c : conn)
| EvFetchone (c : conn)
| EvCursorClose (c : conn)
| EvClose (c : conn)
| EvSleep (d : Q).

(** The state of the process.  [trace] holds the events so far, newest
    first; [steps] counts the blocking calls made so far (database calls
    and sleeps), [ticks] the other points at which the interpreter looks
    for signals; both index the oracle. *)
Record State := {
  stop_requested : bool;
  handlers : list Handler;
  installed : list signal;
  now : Q;
  steps : nat;
  ticks : nat;
  next_conn : nat;
  trace : list event
}.

Definition initial_state (t0 : Q) : State :=
  {| stop_requested := false; handlers := []; installed := [];
     now := t0; steps := 0; ticks := 0; next_conn := 0; trace := [] |}.

(** The outside world.  For the [k]-th blocking call of the run:
    [fail_at k] is the exception it raises, if any; [row_at k] is the row a
    [fetchone] returns; [dur_at k] is how long the call takes; [sig_at k]
    lists the signals that arrive while it runs.  A signal can also arrive
    between two calls: [sig_between k] lists the signals whose handler the
    interpreter runs at the [k]-th of the other points at which it can,
    which are the start of the [__main__] block and the return of every
    read of the stop flag and of every logger call of the script.
    [makedirs_raises] and [open_raises] are what creating a directory and
    opening a log file raise, if anything.  [asctime] renders a clock
    reading the way [%(asctime)s] does. *)
Record World := {
  fail_at : nat -> option Py.exn;
  row_at : nat -> option (list Py.value);
  dur_at : nat -> Q;
  sig_at : nat -> list signal;
  sig_between : nat -> list signal;
  makedirs_raises : string -> option Py.exn;
  open_raises : string -> option Py.exn;
  asctime : Q -> string
}.

(* ===================================================================== *)
(** ** The state-and-exception monad *)
(* ===================================================================== *)

(** A computation returns, raises, or (for the main loop, which may run
    forever) uses up the iterations it was allowed. *)
Inductive result (A : Type) :=
| Ok (a : A)
| Raise (e : Py.exn)
| OutOfFuel.

Arguments Ok {A} a.
Arguments Raise {A} e.
Arguments OutOfFuel {A}.

Definition M (A : Type) : Type := State -> result A * State.

Definition ret {A} (a : A) : M A := fun s => (Ok a, s).

Definition raise {A} (e : Py.exn) : M A := fun s => (Raise e, s).

Definition bind {A B} (m : M A) (k : A -> M B) : M B :=
  fun s =>
    match m s with
    | (Ok a, s') => k a s'
    | (Raise e, s') => (Raise e, s')
    | (OutOfFuel, s') => (OutOfFuel, s')
    end.

Declare Scope py_scope.
Delimit Scope py_scope with py.
Notation "'let*' x ':=' m 'in' k" := (bind m (fun x => k))
  (at level 10, x name, m at level 100, k at level 200) : py_scope.
Notation "m ;; k" := (bind m (fun _ => k))
  (at level 100, k at level 200, right associativity) : py_scope.
Local Open Scope py_scope.

(** [try: m / except ...: h].  [h e] is the handler of the first clause
    that matches [e], or [None] when no clause matches. *)
Definition try_except {A} (m : M A) (h : Py.exn -> option (M A)) : M A :=
  fun s =>
    match m s with
    | (Raise e, s') =>
        match h e with
        | Some k => k s'
        | None => (Raise e, s')
        end
    | r => r
    end.

(** [try: m / finally: fin].  An exception raised by [fin] replaces the
    outcome of [m]. *)
Definition try_finally {A} (m : M A) (fin : M unit) : M A :=
  fun s =>
    match m s with
    | (OutOfFuel, s') => (OutOfFuel, s')
    | (r, s') =>
        match fin s' with
        | (Ok _, s'') => (r, s'')
        | (Raise e, s'') => (Raise e, s'')
        | (OutOfFuel, s'') => (OutOfFuel, s'')
        end
    end.

(** [except C as e: k e] as a clause. *)
Definition except (c : Py.exn_class) {A} (k : Py.exn -> M A)
    (rest : Py.exn -> option (M A)) : Py.exn -> option (M A) :=
  fun e => if Py.isinstance e c then Some (k e) else rest e.

Definition no_clause {A} : Py.exn -> option (M A) := fun _ => None.

Definition gets {A} (f : State -> A) : M A := fun s => (Ok (f s), s).

Definition modify (f : State -> State) : M unit := fun s => (Ok tt, f s).

Fixpoint for_each {A} (l : list A) (body : A -> M unit) : M unit :=
  match l with
  | [] => ret tt
  | x :: rest => body x ;; for_each rest body
  end.

(** Field updates of the process state. *)
Definition with_stop (b : bool) (s : State) : State :=
  {| stop_requested := b; handlers := handlers s; installed := installed s;
     now := now s; steps := steps s; ticks := ticks s;
     next_conn := next_conn s; trace := trace s |}.

Definition with_handlers (hs : list Handler) (s : State) : State :=
  {| stop_requested := stop_requested s; handlers := hs;
     installed := installed s; now := now s; steps := steps s;
     ticks := ticks s; next_conn := next_conn s; trace := trace s |}.

Definition with_installed (sgs : list signal) (s : State) : State :=
  {| stop_requested := stop_requested s; handlers := handlers s;
     installed := sgs; now := now s; steps := steps s; ticks := ticks s;
     next_conn := next_conn s; trace := trace s |}.

Definition with_clock (k : nat) (t : Q) (s : State) : State :=
  {| stop_requested := stop_requested s; handlers := handlers s;
     installed := installed s; now := t; steps := k; ticks := ticks s;
     next_conn := next_conn s; trace := trace s |}.

Definition with_ticks (k : nat) (s : State) : State :=
  {| stop_requested := stop_requested s; handlers := handlers s;
     installed := installed s; now := now s; steps := steps s; ticks := k;
     next_conn := next_conn s; trace := trace s |}.

Definition with_next_conn (c : nat) (s : State) : State :=
  {| stop_requested := stop_requested s; handlers := handlers s;
     installed := installed s; now := now s; steps := steps s;
     ticks := ticks s; next_conn := c; trace := trace s |}.

Definition with_trace (tr : list event) (s : State) : State :=
  {| stop_requested := stop_requested s; handlers := handlers s;
     installed := installed s; now := now s; steps := steps s;
     ticks := ticks s; next_conn := next_conn s; trace := tr |}.

Definition emit (ev : event) : M unit :=
  modify (fun s => with_trace (ev :: trace s) s).

(** Comparisons, [min] and [max] on numbers.  Python's [min]
    and [max] return their first argument unless the second is strictly
    smaller, respectively larger. *)
Definition Qltb (a b : Q) : bool := negb (Qle_bool b a).

Definition py_min (a b : Q) : Q := if Qltb b a then b else a.

Definition py_max (a b : Q) : Q := if Qltb a b then b else a.

(* ===================================================================== *)
(** ** The script *)
(* ===================================================================== *)

Section Pinger.

Variable w : World.

(** *** Library calls *)

(** [logger.setLevel(logging.DEBUG)] (line 26). *)
Definition logger_level : level := DEBUG.

(** A handler emits a record whose severity reaches its own level. *)
Definition handle (r : LogRecord) (h : Handler) : M unit :=
  if levelno (h_level h) <=? levelno (rec_level r)
  then emit (EvWrite (h_sink h) (format (h_fmt h) r))
  else ret tt.

(** What the logging module does with a record: it is offered to every
    handler, in the order in which they were added.  (The script logs only
    after its two stream handlers are in place, so the logging module's
    handler of last resort never comes into play; a handler that fails to
    write reports that on its own and raises nothing.) *)
Definition log_record (lvl : level) (msg : string) : M unit :=
  emit (EvLog lvl msg) ;;
  if levelno logger_level <=? levelno lvl then
    let* t := gets now in
    let* hs := gets handlers in
    for_each hs (handle {| rec_asctime := asctime w t;
                           rec_level := lvl;
                           rec_message := msg |})
  else ret tt.

(** Lines 52-55.  The logger call is the handler's own: a signal that
    arrives while a handler runs is taken to be handled once that handler
    has returned. *)
Definition _signal_handler (sg : signal) : M unit :=
  modify (with_stop true) ;;
  log_record INFO ("Signal " ++ pretty (signum sg)
                   ++ " received: stopping after current iteration.").

(** A signal that arrives runs its installed handler, as an interruption
    of whatever the script is doing: what the handler does is recorded
    inside the [EvSignal] event.  The world sends signals only once both
    handlers are installed (lines 58-59): before that, a signal meets its
    default disposition, which is outside the model. *)
Definition deliver (sg : signal) : M unit :=
  fun s =>
    if existsb (signal_eqb sg) (installed s) then
      match _signal_handler sg (with_trace [] s) with
      | (r, s') =>
          (r, with_trace (EvSignal sg (rev (trace s')) :: trace s) s')
      end
    else (Ok tt, s).

(** CPython runs the Python-level handler of a signal in the main thread,
    between two bytecode instructions.  As far as the order of events
    goes, a signal is therefore handled either while a blocking call runs
    (see [blocking]) or right after one of the other steps of the script;
    [interrupts] is such a point, the [ticks]-th of the run. *)
Definition interrupts : M unit :=
  let* k := gets ticks in
  modify (with_ticks (S k)) ;;
  for_each (sig_between w k) deliver.

(** [logger.log(lvl, msg)] in the script. *)
Definition logger_log (lvl : level) (msg : string) : M unit :=
  log_record lvl msg ;;
  interrupts.

Definition logger_info := logger_log INFO.
Definition logger_warning := logger_log WARNING.
Definition logger_error := logger_log ERROR.

(** A blocking call: it is the [steps]-th of the run, it takes as long as
    the world says, and at least [d] seconds when [d] is given; the
    signals that arrive while it runs are handled before it returns. *)
Definition blocking (ev : event) (d : option Q) : M unit :=
  let* k := gets steps in
  modify (fun s =>
    with_clock (S k)
               (now s + match d with
                        | Some least => Qmax least (dur_at w k)
                        | None => dur_at w k
                        end)
               (with_trace (ev :: trace s) s)) ;;
  for_each (sig_at w k) deliver.

(** A call into the database driver: it returns or raises as the world
    decides. *)
Definition db_call (ev : event) : M unit :=
  let* k := gets steps in
  blocking ev None ;;
  match fail_at w k with
  | Some e => raise e
  | None => ret tt
  end.

Definition psycopg2_connect (kw : conn_kwargs) : M conn :=
  let* c := gets next_conn in
  modify (with_next_conn (S c)) ;;
  db_call (EvConnect c kw) ;;
  ret c.

Definition conn_commit (c : conn) : M unit := db_call (EvCommit c).
Definition conn_rollback (c : conn) : M unit := db_call (EvRollback c).
Definition conn_close (c : conn) : M unit := db_call (EvClose c).

Definition cursor_execute (c : conn) (query : string) (params : list Z)
  : M unit := db_call (EvExecute c query params).

Definition cursor_fetchone (c : conn) : M (option (list Py.value)) :=
  let* k := gets steps in
  db_call (EvFetchone c) ;;
  ret (row_at w k).

(** [with conn.cursor() as cur: body].  The cursor is closed when the block
    is left, however it is left; the driver's [__exit__] suppresses
    nothing. *)
Definition with_cursor {A} (c : conn) (body : conn -> M A) : M A :=
  db_call (EvCursor c) ;;
  try_finally (body c) (db_call (EvCursorClose c)).

(** [time.time()]: the clock, as a float. *)
Definition time_time : M Q :=
  let* t := gets now in
  ret (Py.float t).

Definition time_sleep (d : Q) : M unit :=
  if Qltb d 0
  then raise (Py.Exn Py.ValueError "sleep length must be non-negative")
  else blocking (EvSleep d) (Some d).

Definition sys_exit {A} (code : Z) : M A := raise (Py.SysExit code).

(** A read of the global [stop_requested].  What is read is the value at
    that moment: a signal handled right after the read changes the flag,
    not what the script goes on with. *)
Definition read_stop : M bool :=
  let* b := gets stop_requested in
  emit (EvReadFlag b) ;;
  interrupts ;;
  ret b.

(** [x = None; try: x = acquire(); rest(x) / finally: fin(x)] *)
Definition try_finally_with {A B} (acquire : M A) (rest : A -> M B)
    (fin : option A -> M unit) : M B :=
  fun s =>
    match acquire s with
    | (Ok a, s') => try_finally (rest a) (fin (Some a)) s'
    | (Raise e, s') => try_finally (raise e) (fin None) s'
    | (OutOfFuel, s') => (OutOfFuel, s')
    end.

(** *** Configuration from the environment (lines 11-18) *)

Definition getenv (env : gmap string string) (k : string) : option string :=
  env !! k.

Definition getenv_default (env : gmap string string) (k d : string) : string :=
  default d (env !! k).

Definition py_int (s : string) : M Z :=
  match Py.int s with
  | Some z => ret z
  | None => raise (Py.Exn Py.ValueError (Py.invalid_literal s))
  end.

Definition load_config (env : gmap string string) : M Config :=
  let host := getenv_default env "DB_HOST" "localhost" in
  let* port := py_int (getenv_default env "DB_PORT" "5432") in
  let name := getenv env "DB_NAME" in
  let user := getenv env "DB_USER" in
  let pass := getenv env "DB_PASS" in
  let* interval :=
    py_int (getenv_default env "PING_INTERVAL_SECONDS" (pretty (5 * 60))) in
  let* timeout := py_int (getenv_default env "CONNECT_TIMEOUT_SECONDS" "10") in
  let log_file := getenv_default env "LOG_FILE" "" in
  ret {| DB_HOST := host; DB_PORT := port; DB_NAME := name;
         DB_USER := user; DB_PASS := pass; PING_INTERVAL := interval;
         CONNECT_TIMEOUT := timeout; LOG_FILE := log_file |}.

(** *** The startup credential check (lines 20-22) *)

Definition credential_check (cfg : Config) : M unit :=
  if negb (Py.truthy_opt_str (DB_USER cfg))
     || negb (Py.truthy_opt_str (DB_PASS cfg))
  then
    emit (EvPrint Stderr
            "ERROR: DB_USER and DB_PASS environment variables must be set.") ;;
    sys_exit 2
  else ret tt.

(** *** Logger setup (lines 24-46) *)

Definition stdout_h : Handler :=
  {| h_sink := Stdout; h_level := INFO;
     h_fmt := [Asctime; Lit " [INFO] "; Message] |}.

Definition stderr_h : Handler :=
  {| h_sink := Stderr; h_level := WARNING;
     h_fmt := [Asctime; Lit " [ERROR] "; Message] |}.

Definition file_h (path : string) : Handler :=
  {| h_sink := FileAppend path; h_level := DEBUG;
     h_fmt := [Asctime; Lit " ["; Levelname; Lit "] "; Message] |}.

Definition addHandler (h : Handler) : M unit :=
  modify (fun s => with_handlers (handlers s ++ [h]) s) ;;
  emit (EvAddHandler h).

(** [os.makedirs(path, exist_ok=True)]: it raises when the directory
    cannot be made (a file is in the way, a permission is missing). *)
Definition os_makedirs (path : string) : M unit :=
  emit (EvMakedirs path) ;;
  match makedirs_raises w path with
  | Some e => raise e
  | None => ret tt
  end.

(** [logging.FileHandler(path, mode="a", encoding="utf-8")] opens the file
    at once, and raises when it cannot. *)
Definition FileHandler (path : string) : M Handler :=
  match open_raises w path with
  | Some e => raise e
  | None => ret (file_h path)
  end.

Definition setup_logging (cfg : Config) : M unit :=
  addHandler stdout_h ;;
  addHandler stderr_h ;;
  if Py.truthy_str (LOG_FILE cfg) then
    os_makedirs (let d := Py.dirname (LOG_FILE cfg) in
                 if Py.truthy_str d then d else ".") ;;
    let* h := FileHandler (LOG_FILE cfg) in
    addHandler h
  else ret tt.

(** *** Graceful shutdown (lines 48-59) *)

Definition signal_signal (sg : signal) : M unit :=
  modify (fun s => with_installed (sg :: installed s) s) ;;
  emit (EvSignalInstall sg).

(** Everything the module runs before its [__main__] block. *)
Definition module_init (env : gmap string string) : M Config :=
  let* cfg := load_config env in
  credential_check cfg ;;
  setup_logging cfg ;;
  modify (with_stop false) ;;
  signal_signal SIGINT ;;
  signal_signal SIGTERM ;;
  ret cfg.

(** *** The scoped connection (lines 62-86) *)

Section WithConfig.

Variable cfg : Config.

Definition set_statement_timeout (c : conn) : M unit :=
  with_cursor c (fun cur =>
    try_except
      (cursor_execute cur "SET statement_timeout = %s;"
                      [CONNECT_TIMEOUT cfg * 1000] ;;
       conn_commit c)
      (except Py.Exception (fun _ => conn_rollback c) no_clause)).

(** The [finally] clause: [if conn: try: conn.close() / except Exception:
    pass]. *)
Definition release (c : option conn) : M unit :=
  match c with
  | Some c =>
      try_except (conn_close c)
                 (except Py.Exception (fun _ => ret tt) no_clause)
  | None => ret tt
  end.

(** [with connect_with_timeout(dbname=..., ...) as conn: body].  The
    generator behind the context manager is suspended at its [yield] while
    [body] runs, inside the [try], and an exception of [body] is thrown in
    at that point. *)
Definition connect_with_timeout {A} (dbname user password : option string)
    (host : string) (port : Z) (body : conn -> M A) : M A :=
  try_finally_with
    (psycopg2_connect
       {| kw_connect_timeout := CONNECT_TIMEOUT cfg; kw_dbname := dbname;
          kw_user := user; kw_password := password; kw_host := host;
          kw_port := port |})
    (fun c => set_statement_timeout c ;; body c)
    release.

(** *** The diagnostic check (lines 89-116) *)

Definition report_version (row : option (list Py.value)) : M unit :=
  if negb (Py.truthy_row row) then
    logger_warning "Connected but VERSION() returned empty result."
  else
    let version := Py.str (nth 0 (default [] row) Py.VNone) in
    if Py.startswith version "PostgreSQL" then
      logger_info ("Successful connection. VERSION: " ++ version)
    else
      logger_info ("Atypical VERSION response (no error): " ++ version).

(** The body of the [with] block (lines 95-107). *)
Definition version_query (c : conn) : M unit :=
  with_cursor c (fun cur =>
    cursor_execute cur "SELECT VERSION();" [] ;;
    let* row := cursor_fetchone cur in
    report_version row).

(** The body of the [try] (lines 92-107). *)
Definition probe : M unit :=
  connect_with_timeout (DB_NAME cfg) (DB_USER cfg) (DB_PASS cfg)
    (DB_HOST cfg) (DB_PORT cfg) version_query.

Definition check_version : M unit :=
  try_except probe
    (except Py.OperationalError
       (fun e => logger_error ("Connection failed: " ++ Py.str_exn e))
    (except Py.DatabaseError
       (fun e => logger_error ("Database error: " ++ Py.str_exn e))
    (except Py.Exception
       (fun e => logger_error ("Unexpected error: " ++ Py.str_exn e))
     no_clause))).

(** *** The main loop (lines 119-138) *)

Definition out_of_fuel {A} : M A := fun s => (OutOfFuel, s).

Definition step : Q := 1.

(** [while to_sleep > 0 and not stop_requested: ...] (lines 135-137).
    Counting down by [1.0] is exact on floats up to 2^53, and is written
    as the exact difference. *)
Fixpoint sleep_loop (fuel : nat) (to_sleep : Q) : M unit :=
  let* go := (if Qltb 0 to_sleep
              then let* stop := read_stop in ret (negb stop)
              else ret false) in
  if go then
    match fuel with
    | O => out_of_fuel
    | S fuel' =>
        time_sleep (py_min step to_sleep) ;;
        sleep_loop fuel' (to_sleep - step)
    end
  else ret tt.

(** The loop at lines 135-137 takes at most [ceil to_sleep] rounds. *)
Definition sleep_rounds (to_sleep : Q) : nat := Z.to_nat (Qceiling to_sleep).

(** Line 130: [max(0, PING_INTERVAL - elapsed)], an integer minus a
    float.  The integer is converted to a float first; the conversion is
    taken to succeed (beyond the range of a binary64, about 1.8e308, it
    raises [OverflowError]). *)
Definition planned_sleep (elapsed : Q) : Q :=
  py_max 0 (Py.fsub (Py.float (inject_Z (PING_INTERVAL cfg))) elapsed).

(** Lines 130-137. *)
Definition sleep_phase (elapsed : Q) : M unit :=
  let to_sleep := planned_sleep elapsed in
  if Qltb 0 to_sleep
  then sleep_loop (sleep_rounds to_sleep) to_sleep
  else ret tt.

(** The guarded call of lines 124-127. *)
Definition guarded_check : M unit :=
  try_except check_version
    (except Py.Exception
       (fun e => logger_error ("Unhandled error in check_version: "
                               ++ Py.str_exn e))
     no_clause).

(** One round of the outer loop (lines 123-137). *)
Definition iteration : M unit :=
  let* start := time_time in
  guarded_check ;;
  let* t := time_time in
  sleep_phase (Py.fsub t start).

(** [while not stop_requested: ...], for at most [fuel] rounds. *)
Fixpoint main_while (fuel : nat) : M unit :=
  let* stop := read_stop in
  if stop then ret tt
  else
    match fuel with
    | O => out_of_fuel
    | S fuel' => iteration ;; main_while fuel'
    end.

Definition main_loop (fuel : nat) : M unit :=
  logger_info ("pinger started. Configuration: host=" ++ DB_HOST cfg
               ++ " port=" ++ pretty (DB_PORT cfg)
               ++ " db=" ++ Py.str_opt (DB_NAME cfg)
               ++ " interval=" ++ pretty (PING_INTERVAL cfg)) ;;
  main_while fuel ;;
  logger_info "pinger stopped.".

End WithConfig.

(** *** The entry point (lines 141-148) *)

Definition entry (main : M unit) : M unit :=
  try_except main
    (except Py.KeyboardInterrupt
       (fun _ => logger_info "Interrupted by user.")
    (except Py.Exception
       (fun e => logger_error ("Fatal error: " ++ Py.str_exn e) ;;
                 sys_exit 1)
     no_clause)).

(** The script, run as [__main__], with the main loop allowed [fuel]
    rounds. *)
Definition script (env : gmap string string) (fuel : nat) : M unit :=
  let* cfg := module_init env in
  interrupts ;;
  entry (main_loop cfg fuel).

End Pinger.

(** How the interpreter ends: with status 0 when the script runs to its
    end, with the argument of [sys.exit], with status 1 (after a traceback)
    for any other exception that nothing catches; an uncaught
    [KeyboardInterrupt] makes CPython kill itself with SIGINT. *)
Inductive termination :=
| Exited (code : Z)
| KilledBySigint
| StillRunning.

Definition exit_status {A} (r : result A) : termination :=
  match r with
  | Ok _ => Exited 0
  | Raise (Py.SysExit code) => Exited code
  | Raise (Py.Exn Py.KeyboardInterrupt _) => KilledBySigint
  | Raise (Py.Exn _ _) => Exited 1
  | OutOfFuel => StillRunning
  end.

Definition run (w : World) (env : gmap string string) (t0 : Q) (fuel : nat)
  : result unit * State :=
  script w env fuel (initial_state t0).

(* ===================================================================== *)
(** ** Reading a run *)
(* ===================================================================== *)

(** The events of a run in the order in which they happened. *)
Definition history (s : State) : list event := rev (trace s).

Definition is_signal (e : event) : bool :=
  match e with
  | EvSignal _ _ => true
  | _ => false
  end.

Definition is_read (e : event) : bool :=
  match e with
  | EvReadFlag _ => true
  | _ => false
  end.

Definition is_db (e : event) : bool :=
  match e with
  | EvConnect _ _ | EvCursor _ | EvExecute _ _ _ | EvCommit _
  | EvRollback _ | EvFetchone _ | EvCursorClose _ | EvClose _ => true
  | _ => false
  end.

(** Whether a signal was handled in the course of [h]. *)
Definition signalled (h : list event) : bool := existsb is_signal h.

(** The records the script itself logged (the signal handler's own record
    sits inside its [EvSignal] event). *)
Definition log_of (e : event) : option (level * string) :=
  match e with
  | EvLog lvl msg => Some (lvl, msg)
  | _ => None
  end.

Definition logs (h : list event) : list (level * string) := omap log_of h.

(** The database calls, in order. *)
Definition db_calls (h : list event) : list event := List.filter is_db h.

(** The lengths of the sleeps, in order. *)
Definition sleep_of (e : event) : option Q :=
  match e with
  | EvSleep d => Some d
  | _ => None
  end.

Definition sleeps (h : list event) : list Q := omap sleep_of h.

Definition Qsum (l : list Q) : Q := fold_right Qplus 0%Q l.

(** Every read of the stop flag in [h] returns [true] exactly when a
    signal was handled before it; [flag] is the value before [h]. *)
Fixpoint reads_agree (flag : bool) (h : list event) : bool :=
  match h with
  | [] => true
  | EvReadFlag b :: rest => Bool.eqb b flag && reads_agree flag rest
  | EvSignal _ _ :: rest => reads_agree true rest
  | _ :: rest => reads_agree flag rest
  end.

(** The lines the handlers [hs] write for a record. *)
Definition emitted (hs : list Handler) (r : LogRecord) : list event :=
  omap (fun h => if levelno (h_level h) <=? levelno (rec_level r)
                 then Some (EvWrite (h_sink h) (format (h_fmt h) r))
                 else None) hs.

(** The label under which [check_version] reports a failure. *)
Definition failure_label (e : Py.exn) : string :=
  if Py.isinstance e Py.OperationalError then "Connection failed: "
  else if Py.isinstance e Py.DatabaseError then "Database error: "
  else "Unexpected error: ".

(** The one record that reports the outcome of a probe that ran. *)
Definition version_line (row : option (list Py.value)) : level * string :=
  match row with
  | Some (v :: _) =>
      if Py.startswith (Py.str v) "PostgreSQL"
      then (INFO, "Successful connection. VERSION: " ++ Py.str v)
      else (INFO, "Atypical VERSION response (no error): " ++ Py.str v)
  | _ => (WARNING, "Connected but VERSION() returned empty result.")
  end.

(** Every failure the world produces is an instance of [Exception]. *)
Definition failures_are_exceptions (w : World) : Prop :=
  forall k e, fail_at w k = Some e -> Py.isinstance e Py.Exception = true.

(** All three integer options of the environment parse. *)
Definition integers_parse (env : gmap string string) : bool :=
  bool_decide (is_Some (Py.int (getenv_default env "DB_PORT" "5432")))
  && bool_decide (is_Some (Py.int (getenv_default env "PING_INTERVAL_SECONDS"
                                                  (pretty (5 * 60)))))
  && bool_decide (is_Some (Py.int (getenv_default env "CONNECT_TIMEOUT_SECONDS"
                                                  "10"))).

(** All three integer options are plain literals (see [Py.int]). *)
Definition plain_integers (env : gmap string string) : bool :=
  Py.plain_literal (getenv_default env "DB_PORT" "5432")
  && Py.plain_literal (getenv_default env "PING_INTERVAL_SECONDS"
                                      (pretty (5 * 60)))
  && Py.plain_literal (getenv_default env "CONNECT_TIMEOUT_SECONDS" "10").

(** The sleep phase as a sequence of rounds: a read of the flag, then one
    sleep of one step (or of what is left, in the last round); signals can
    be handled between the read and the sleep, and while the sleep lasts.
    The phase ends without a read when no time is left, and with a read
    that finds the flag set.  [flag] is the value of the stop flag when
    the phase starts. *)
Inductive rounds : bool -> list event -> Prop :=
| rounds_over flag : rounds flag []
| rounds_stopped sigs :
    forallb is_signal sigs = true ->
    rounds true (EvReadFlag true :: sigs)
| rounds_sleep d before during rest :
    (0 < d)%Q -> (d <= 1)%Q ->
    (d == 1)%Q \/ sleeps rest = [] ->
    forallb is_signal before = true ->
    forallb is_signal during = true ->
    rounds (signalled (before ++ during)) rest ->
    rounds false (EvReadFlag false :: before ++ EvSleep d :: during ++ rest).

(** What the logging module does with a record: the call itself, then one
    line per handler whose level the record reaches, stamped with the
    current time. *)
Definition record_at (w : World) (s : State) (lvl : level) (msg : string)
  : LogRecord :=
  {| rec_asctime := asctime w (now s); rec_level := lvl;
     rec_message := msg |}.

Definition log_events (w : World) (s : State) (lvl : level) (msg : string)
  : list event :=
  EvLog lvl msg :: emitted (handlers s) (record_at w s lvl msg).

(** The state in which a blocking call leaves the process. *)
Definition after_blocking (w : World) (ev : event) (d : option Q) (s : State)
  : State :=
  snd (blocking w ev d s).

(** The state after the signals of a point between two calls have been
    handled. *)
Definition after_interrupts (w : World) (s : State) : State :=
  snd (interrupts w s).

(** The state after the logging module has dealt with a record. *)
Definition after_record (w : World) (lvl : level) (msg : string) (s : State)
  : State :=
  with_trace (rev (log_events w s lvl msg) ++ trace s) s.

(** Both handlers of lines 58-59 are in place. *)
Definition both_installed (s : State) : bool :=
  existsb (signal_eqb SIGINT) (installed s)
  && existsb (signal_eqb SIGTERM) (installed s).

(** [K] holds of the keyword arguments of every [connect] in [h]. *)
Definition connects_with (K : conn_kwargs -> Prop) (h : list event) : Prop :=
  forall c kw, In (EvConnect c kw) h -> K kw.

(** An event that is neither a signal nor a read of the flag, and whose
    keyword arguments, if it is a [connect], satisfy [K]. *)
Definition quiet (K : conn_kwargs -> Prop) (ev : event) : Prop :=
  is_signal ev = false /\ is_read ev = false /\ connects_with K [ev].

(** A signal arrived between [s] and [s']: during one of the blocking
    calls made, or at one of the other points passed. *)
Definition arrived (w : World) (s s' : State) : Prop :=
  (exists j, (steps s <= j < steps s')%nat /\ sig_at w j <> [])
  \/ (exists j, (ticks s <= j < ticks s')%nat /\ sig_between w j <> []).

(** How the state of the process can change while the script runs its
    main loop: the logging and signal set-up stays as it is, the counters
    only grow, the history only grows, and the stop flag follows the
    signals. *)
Record evolves (w : World) (K : conn_kwargs -> Prop) (s s' : State)
  : Prop := {
  ev_handlers : handlers s' = handlers s;
  ev_installed : installed s' = installed s;
  ev_steps : (steps s <= steps s')%nat;
  ev_ticks : (ticks s <= ticks s')%nat;
  ev_conns : (next_conn s <= next_conn s')%nat;
  ev_history :
    exists d,
      history s' = (history s ++ d)%list
      /\ stop_requested s' = stop_requested s || signalled d
      /\ reads_agree (stop_requested s) d = true
      /\ connects_with K d
      /\ (signalled d = true -> arrived w s s')
      /\ (both_installed s = true -> arrived w s s' -> signalled d = true)
}.

(** Every signal that has arrived so far has set the flag. *)
Definition signals_seen (w : World) (s : State) : Prop :=
  (forall j, (j < steps s)%nat -> sig_at w j <> [] ->
             stop_requested s = true)
  /\ (forall j, (j < ticks s)%nat -> sig_between w j <> [] ->
                stop_requested s = true).

(** A state relation holds across every run of a computation. *)
Definition always {A} (R : State -> State -> Prop) (m : M A) : Prop :=
  forall s, R s (snd (m s)).

Definition clauses_always {A} (R : State -> State -> Prop)
    (h : Py.exn -> option (M A)) : Prop :=
  forall e k, h e = Some k -> always R k.

(** A computation comes to an end, and raises only exceptions in [P]. *)
Definition safe {A} (P : Py.exn -> Prop) (m : M A) : Prop :=
  forall s, match fst (m s) with
            | Ok _ => True
            | Raise e => P e
            | OutOfFuel => False
            end.

Definition is_exception (e : Py.exn) : Prop :=
  Py.isinstance e Py.Exception = true.

Definition never (e : Py.exn) : Prop := False.

(** The keyword arguments with which the script connects. *)
Definition kwargs_of (cfg : Config) : conn_kwargs :=
  {| kw_connect_timeout := CONNECT_TIMEOUT cfg; kw_dbname := DB_NAME cfg;
     kw_user := DB_USER cfg; kw_password := DB_PASS cfg;
     kw_host := DB_HOST cfg; kw_port := DB_PORT cfg |}.

(* ===================================================================== *)
(** ** Sample runs *)
(* ===================================================================== *)

Definition demo_env : gmap string string :=
  list_to_map [("DB_USER", "monitor"); ("DB_PASS", "secret");
               ("PING_INTERVAL_SECONDS", "3")].

Definition demo_cfg : Config :=
  {| DB_HOST := "localhost"; DB_PORT := 5432; DB_NAME := None;
     DB_USER := Some "monitor"; DB_PASS := Some "secret";
     PING_INTERVAL := 3; CONNECT_TIMEOUT := 10; LOG_FILE := "" |}.

(** A server that answers every call within a tenth of a second. *)
Definition calm_world : World :=
  {| fail_at := fun _ => None;
     row_at := fun _ => Some [Py.VStr "PostgreSQL 16.1 on x86_64-pc-linux-gnu"];
     dur_at := fun _ => (1 # 10)%Q;
     sig_at := fun _ => [];
     sig_between := fun _ => [];
     makedirs_raises := fun _ => None;
     open_raises := fun _ => None;
     asctime := fun _ => "2026-01-01 00:00:00,000" |}.

(** The same, with SIGTERM arriving during the [k]-th blocking call. *)
Definition sigterm_at (k : nat) : World :=
  {| fail_at := fail_at calm_world; row_at := row_at calm_world;
     dur_at := dur_at calm_world;
     sig_at := fun j => if Nat.eqb j k then [SIGTERM] else [];
     sig_between := sig_between calm_world;
     makedirs_raises := makedirs_raises calm_world;
     open_raises := open_raises calm_world;
     asctime := asctime calm_world |}.

(** The same, with SIGTERM handled at the [k]-th point between calls. *)
Definition sigterm_between (k : nat) : World :=
  {| fail_at := fail_at calm_world; row_at := row_at calm_world;
     dur_at := dur_at calm_world; sig_at := sig_at calm_world;
     sig_between := fun j => if Nat.eqb j k then [SIGTERM] else [];
     makedirs_raises := makedirs_raises calm_world;
     open_raises := open_raises calm_world;
     asctime := asctime calm_world |}.

(** A world in which the [k]-th blocking call raises [e]. *)
Definition failing_at (k : nat) (e : Py.exn) : World :=
  {| fail_at := fun j => if Nat.eqb j k then Some e else None;
     row_at := row_at calm_world; dur_at := dur_at calm_world;
     sig_at := sig_at calm_world;
     sig_between := sig_between calm_world;
     makedirs_raises := makedirs_raises calm_world;
     open_raises := open_raises calm_world;
     asctime := asctime calm_world |}.

(** A server that refuses every connection. *)
Definition down_world : World :=
  {| fail_at := fun _ => Some (Py.Exn Py.OperationalError "connection refused");
     row_at := fun _ => None; dur_at := dur_at calm_world;
     sig_at := sig_at calm_world;
     sig_between := sig_between calm_world;
     makedirs_raises := makedirs_raises calm_world;
     open_raises := open_raises calm_world;
     asctime := asctime calm_world |}.

(** The state in which the module leaves the process when its [__main__]
    block starts, for the sample environment. *)
Definition ready_state : State :=
  snd (module_init calm_world demo_env (initial_state 0)).

(** The state after a logger call of the script. *)
Definition after_log (w : World) (lvl : level) (msg : string) (s : State)
  : State :=
  after_interrupts w (after_record w lvl msg s).

(** The state after a read of the stop flag. *)
Definition after_read (w : World) (s : State) : State :=
  after_interrupts w
    (with_trace (EvReadFlag (stop_requested s) :: trace s) s).

(** A world in which the probe query fails and so does closing the
    connection afterwards (calls 6 and 8 of the first check). *)
Definition query_and_close_fail : World :=
  {| fail_at := fun j =>
       if Nat.eqb j 6 then
         Some (Py.Exn Py.ProgrammingError "permission denied for VERSION")
       else if Nat.eqb j 8 then
         Some (Py.Exn Py.OperationalError "server closed the connection")
       else None;
     row_at := row_at calm_world; dur_at := dur_at calm_world;
     sig_at := sig_at calm_world;
     sig_between := sig_between calm_world;
     makedirs_raises := makedirs_raises calm_world;
     open_raises := open_raises calm_world;
     asctime := asctime calm_world |}.

(** The state right after the [connect] call of a check. *)
Definition connected (w : World) (cfg : Config) (s : State) : State :=
  after_blocking w (EvConnect (next_conn s) (kwargs_of cfg)) None
                 (with_next_conn (S (next_conn s)) s).

(** The configuration the module reads from an environment whose integer
    options parse. *)
Definition config_of (env : gmap string string) : Config :=
  {| DB_HOST := getenv_default env "DB_HOST" "localhost";
     DB_PORT := default 0 (Py.int (getenv_default env "DB_PORT" "5432"));
     DB_NAME := getenv env "DB_NAME";
     DB_USER := getenv env "DB_USER";
     DB_PASS := getenv env "DB_PASS";
     PING_INTERVAL :=
       default 0 (Py.int (getenv_default env "PING_INTERVAL_SECONDS"
                                         (pretty (5 * 60))));
     CONNECT_TIMEOUT :=
       default 0 (Py.int (getenv_default env "CONNECT_TIMEOUT_SECONDS" "10"));
     LOG_FILE := getenv_default env "LOG_FILE" "" |}.

(** Both credentials are set and not empty. *)
Definition credentials_set (env : gmap string string) : bool :=
  Py.truthy_opt_str (getenv env "DB_USER")
  && Py.truthy_opt_str (getenv env "DB_PASS").

(** The directory that is made for the log file. *)
Definition log_dir (cfg : Config) : string :=
  if Py.truthy_str (Py.dirname (LOG_FILE cfg))
  then Py.dirname (LOG_FILE cfg) else ".".

(** What setting up the log file raises, if anything: the failure to make
    its directory or else the failure to open it, when LOG_FILE is set. *)
Definition log_file_error (w : World) (cfg : Config) : option Py.exn :=
  if Py.truthy_str (LOG_FILE cfg) then
    match makedirs_raises w (log_dir cfg) with
    | Some e => Some e
    | None => open_raises w (LOG_FILE cfg)
    end
  else None.

(** The handlers the logger ends up with. *)
Definition handlers_for (cfg : Config) : list Handler :=
  stdout_h :: stderr_h
  :: (if Py.truthy_str (LOG_FILE cfg) then [file_h (LOG_FILE cfg)] else []).

(** The events of logger setup and signal installation. *)
Definition setup_events (cfg : Config) : list event :=
  EvAddHandler stdout_h :: EvAddHandler stderr_h
  :: (if Py.truthy_str (LOG_FILE cfg)
      then [EvMakedirs (log_dir cfg); EvAddHandler (file_h (LOG_FILE cfg))]
      else [])
  ++ [EvSignalInstall SIGINT; EvSignalInstall SIGTERM].

(** The state in which the module leaves the process when the credential
    check has passed. *)
Definition started (cfg : Config) (t0 : Q) : State :=
  {| stop_requested := false; handlers := handlers_for cfg;
     installed := [SIGTERM; SIGINT]; now := t0; steps := 0; ticks := 0;
     next_conn := 0; trace := rev (setup_events cfg) |}.

(** The state in which the module leaves the process when the log file
    cannot be set up. *)
Definition setup_failed (cfg : Config) (t0 : Q) : State :=
  {| stop_requested := false; handlers := [stdout_h; stderr_h];
     installed := []; now := t0; steps := 0; ticks := 0; next_conn := 0;
     trace := [EvMakedirs (log_dir cfg); EvAddHandler stderr_h;
               EvAddHandler stdout_h] |}.

(** A world in which the log file cannot be opened. *)
Definition read_only_world : World :=
  {| fail_at := fail_at calm_world; row_at := row_at calm_world;
     dur_at := dur_at calm_world; sig_at := sig_at calm_world;
     sig_between := sig_between calm_world;
     makedirs_raises := makedirs_raises calm_world;
     open_raises := fun _ =>
       Some (Py.Exn Py.OSError "[Errno 30] Read-only file system");
     asctime := asctime calm_world |}.

Definition env_with_log_file : gmap string string :=
  <["LOG_FILE" := "/var/log/pinger/pinger.log"]> demo_env.

Definition credentials_message : string :=
  "ERROR: DB_USER and DB_PASS environment variables must be set.".

(** The first record of the main loop (line 120). *)
Definition started_message (cfg : Config) : string :=
  "pinger started. Configuration: host=" ++ DB_HOST cfg
  ++ " port=" ++ pretty (DB_PORT cfg)
  ++ " db=" ++ Py.str_opt (DB_NAME cfg)
  ++ " interval=" ++ pretty (PING_INTERVAL cfg).

(** An environment with a user but no password, and one whose port is
    not a number. *)
Definition env_without_password : gmap string string :=
  list_to_map [("DB_USER", "monitor"); ("DB_NAME", "postgres")].

Definition env_with_bad_port : gmap string string :=
  list_to_map [("DB_PORT", "abc")].

(** A server whose version query returns no row. *)
Definition empty_result_world : World :=
  {| fail_at := fail_at calm_world; row_at := fun _ => None;
     dur_at := dur_at calm_world; sig_at := sig_at calm_world;
     sig_between := sig_between calm_world;
     makedirs_raises := makedirs_raises calm_world;
     open_raises := open_raises calm_world;
     asctime := asctime calm_world |}.

(** The line a sink writes for a record when it shows the record's own
    severity. *)
Definition line_with_own_label (r : LogRecord) : string :=
  rec_asctime r ++ " [" ++ levelname (rec_level r) ++ "] " ++ rec_message r.

(* ===================================================================== *)
(** ** More ways of reading a run *)
(* ===================================================================== *)

(** The first of the three integer options, in the order in which the
    module converts them, that [int()] rejects. *)
Definition first_malformed (env : gmap string string) : option string :=
  let port := getenv_default env "DB_PORT" "5432" in
  let interval :=
    getenv_default env "PING_INTERVAL_SECONDS" (pretty (5 * 60)) in
  let timeout := getenv_default env "CONNECT_TIMEOUT_SECONDS" "10" in
  match Py.int port, Py.int interval, Py.int timeout with
  | None, _, _ => Some port
  | Some _, None, _ => Some interval
  | Some _, Some _, None => Some timeout
  | Some _, Some _, Some _ => None
  end.

(** The handles of the connection attempts, in order. *)
Definition connect_of (e : event) : option conn :=
  match e with
  | EvConnect c _ => Some c
  | _ => None
  end.

Definition connect_ids (h : list event) : list conn := omap connect_of h.

Definition is_connect (e : event) : bool :=
  match e with
  | EvConnect _ _ => true
  | _ => false
  end.


(** No keyword arguments are acceptable: [connects_with no_kwargs d] says
    that [d] holds no connection attempt. *)
Definition no_kwargs (kw : conn_kwargs) : Prop := False.


(** A world in which the blocking calls [k1] and [k2] raise. *)
Definition failing_twice (k1 : nat) (e1 : Py.exn) (k2 : nat) (e2 : Py.exn)
  : World :=
  {| fail_at := fun j => if Nat.eqb j k1 then Some e1
                         else if Nat.eqb j k2 then Some e2 else None;
     row_at := row_at calm_world; dur_at := dur_at calm_world;
     sig_at := sig_at calm_world;
     sig_between := sig_between calm_world;
     makedirs_raises := makedirs_raises calm_world;
     open_raises := open_raises calm_world;
     asctime := asctime calm_world |}.

(* ===================================================================== *)
(** ** The one-shot script of SDL/secure-db-connection/main.py *)
(* ===================================================================== *)

(** The script reads its connection settings from [config.json], asks the
    operator for a login and a password, connects once, prints the server
    version and closes.  It catches nothing and installs no signal handler.
    Every call into a library is a step whose outcome the [World] decides;
    interruptions between two calls are not modelled. *)
Module Secure.

(** What [json.load] can build.  The keys of a dict are strings and occur
    once; floats are the finite ones. *)
#[warnings="-register-all"] Inductive value :=
| VNone
| VBool (b : bool)
| VInt (n : Z)
| VFloat (x : Q)
| VStr (s : string)
| VList (items : list value)
| VDict (items : list (string * value)).

(** What ends the script early: the exceptions of the subscripts in the
    script itself, or whatever a library call raised. *)
Inductive failure :=
| KeyError (key : string)   (* d[key] on a dict without that key *)
| TypeError                 (* x[key] on a value that is no dict; None[0] *)
| IndexError                (* ()[0] *)
| Uncaught (e : Py.exn).

(** Keyword arguments of the script's [psycopg2.connect] (lines 14-20). *)
Record kwargs := {
  dbname : value;
  user : string;
  password : string;
  host : value;
  port : value
}.

Inductive event :=
| Open (path : string)
| Load                        (* json.load(f) *)
| CloseFile                   (* leaving the with block *)
| Input (prompt : string)
| Getpass (prompt : string)
| Connect (kw : kwargs)
| Cursor
| Execute (query : string)
| Fetchone
| Print (line : string)       (* a line on standard output *)
| CursorClose
| Close.

(** [calls] counts the library calls made so far and indexes the oracle;
    [trace] holds them newest first. *)
Record State := {
  calls : nat;
  trace : list event
}.

Definition initial_state : State := {| calls := 0; trace := [] |}.

Definition history (s : State) : list event := rev (trace s).

(** For the [k]-th library call: the exception it raises, if any.  The
    other fields are what the calls that return something return. *)
Record World := {
  fail_at : nat -> option Py.exn;
  parsed : value;                       (* json.load(f) *)
  typed_login : string;                 (* input(...) *)
  typed_password : string;              (* getpass.getpass(...) *)
  row : option (list Py.value)          (* cur.fetchone() *)
}.

Inductive outcome (A : Type) :=
| Done (a : A)
| Failed (f : failure).

Arguments Done {A} a.
Arguments Failed {A} f.

Definition M (A : Type) : Type := State -> outcome A * State.

Definition ret {A} (a : A) : M A := fun s => (Done a, s).

Definition fail {A} (f : failure) : M A := fun s => (Failed f, s).

Definition bind {A B} (m : M A) (k : A -> M B) : M B :=
  fun s =>
    match m s with
    | (Done a, s') => k a s'
    | (Failed f, s') => (Failed f, s')
    end.

Declare Scope secure_scope.
Notation "'let*' x ':=' m 'in' k" := (bind m (fun x => k))
  (at level 10, x name, m at level 100, k at level 200) : secure_scope.
Notation "m ;; k" := (bind m (fun _ => k))
  (at level 100, k at level 200, right associativity) : secure_scope.
Local Open Scope secure_scope.

(** [with enter as f: body]: the exit runs however the body ends, and an
    exception of the exit replaces the one of the body. *)
Definition with_block {A} (enter : M unit) (body : M A) (exit : M unit)
  : M A :=
  enter ;;
  fun s =>
    match body s with
    | (r, s1) =>
        match exit s1 with
        | (Done _, s2) => (r, s2)
        | (Failed f, s2) => (Failed f, s2)
        end
    end.

(** [d[key]] for a string key. *)
Fixpoint lookup (items : list (string * value)) (key : string)
  : option value :=
  match items with
  | [] => None
  | (k, v) :: rest => if String.eqb k key then Some v else lookup rest key
  end.

Definition getitem (v : value) (key : string) : M value :=
  match v with
  | VDict items =>
      match lookup items key with
      | Some x => ret x
      | None => fail (KeyError key)
      end
  | _ => fail TypeError
  end.

(** [version[0]] for what [fetchone] returned. *)
Definition first_column (r : option (list Py.value)) : M Py.value :=
  match r with
  | None => fail TypeError
  | Some [] => fail IndexError
  | Some (v :: _) => ret v
  end.

Definition login_prompt : string := "Введите логин: ".
Definition password_prompt : string := "Введите пароль: ".

Section Script.

Variable w : World.

Definition call (ev : event) : M unit :=
  fun s =>
    let s' := {| calls := S (calls s); trace := ev :: trace s |} in
    match fail_at w (calls s) with
    | Some e => (Failed (Uncaught e), s')
    | None => (Done tt, s')
    end.

(** Lines 6-7. *)
Definition read_config : M value :=
  with_block (call (Open "config.json"))
             (call Load ;; ret (parsed w))
             (call CloseFile).

(** Lines 10-11. *)
Definition ask_credentials : M (string * string) :=
  call (Input login_prompt) ;;
  call (Getpass password_prompt) ;;
  ret (typed_login w, typed_password w).

(** Lines 14-20: the arguments are evaluated in the order written. *)
Definition connect (config : value) (u p : string) : M unit :=
  let* d := getitem config "dbname" in
  let* h := getitem config "host" in
  let* pt := getitem config "port" in
  call (Connect {| dbname := d; user := u; password := p;
                   host := h; port := pt |}).

(** Lines 22-25. *)
Definition show_version : M unit :=
  call Cursor ;;
  call (Execute "SELECT VERSION();") ;;
  call Fetchone ;;
  let* v := first_column (row w) in
  call (Print ("PostgreSQL version: " ++ Py.str v)).

Definition script : M unit :=
  let* config := read_config in
  let* up := ask_credentials in
  connect config (fst up) (snd up) ;;
  show_version ;;
  call CursorClose ;;
  call Close.

Definition run : outcome unit * State := script initial_state.

End Script.

(** How the interpreter ends on an uncaught exception. *)
Definition status {A} (r : outcome A) : termination :=
  match r with
  | Done _ => Exited 0
  | Failed (Uncaught e) => exit_status (@Raise A e)
  | Failed _ => Exited 1
  end.

(** The first of the three settings, in the order in which the script
    looks them up, that the dict does not have. *)
Definition first_missing (items : list (string * value)) : option string :=
  find (fun k => match lookup items k with Some _ => false | None => true end)
       ["dbname"; "host"; "port"].

Definition is_dict (v : value) : bool :=
  match v with
  | VDict _ => true
  | _ => false
  end.

(** The calls up to and including [connect] succeed and the configuration
    gives the three settings: the script holds a connection made with
    [kw]. *)
Definition connected (w : World) (kw : kwargs) : Prop :=
  (forall k, (k < 6)%nat -> fail_at w k = None)
  /\ exists items,
       parsed w = VDict items
       /\ lookup items "dbname" = Some (dbname kw)
       /\ lookup items "host" = Some (host kw)
       /\ lookup items "port" = Some (port kw)
       /\ user kw = typed_login w
       /\ password kw = typed_password w.

(** The row has a first column to print. *)
Definition has_first_column (r : option (list Py.value)) : bool :=
  match r with
  | Some (_ :: _) => true
  | _ => false
  end.

(** An event with the password blanked. *)
Definition redact (ev : event) : event :=
  match ev with
  | Connect kw =>
      Connect {| dbname := dbname kw; user := user kw; password := "";
                 host := host kw; port := port kw |}
  | _ => ev
  end.

(** The same world with another password typed. *)
Definition typing (p : string) (w : World) : World :=
  {| fail_at := fail_at w; parsed := parsed w; typed_login := typed_login w;
     typed_password := p; row := row w |}.

(** Sample worlds. *)
Definition good_config : value :=
  VDict [("dbname", VStr "app"); ("host", VStr "localhost");
         ("port", VInt 5432)].

Definition calm : World :=
  {| fail_at := fun _ => None;
     parsed := good_config;
     typed_login := "alice";
     typed_password := "s3cret";
     row := Some [Py.VStr "PostgreSQL 16.2"] |}.

Definition with_config (v : value) (w : World) : World :=
  {| fail_at := fail_at w; parsed := v; typed_login := typed_login w;
     typed_password := typed_password w; row := row w |}.

Definition failing (k : nat) (e : Py.exn) (w : World) : World :=
  {| fail_at := fun j => if Nat.eqb j k then Some e else fail_at w j;
     parsed := parsed w; typed_login := typed_login w;
     typed_password := typed_password w; row := row w |}.

End Secure.

(* ===================================================================== *)
(** ** Basic facts about traces and the library calls *)
(* ===================================================================== *)

Local Open Scope list_scope.

Lemma logger_level_le (lvl : level) :
  (levelno logger_level <=? levelno lvl) = true.
Proof. destruct lvl; reflexivity. Qed.

Lemma append_empty_r (s : string) : (s +:+ "")%string = s.
Proof.
  induction s as [|a s IH]; [reflexivity|].
  change (String a (s +:+ "") = String a s). now rewrite IH.
Qed.

Lemma signalled_app (h1 h2 : list event) :
  signalled (h1 ++ h2) = signalled h1 || signalled h2.
Proof. unfold signalled. apply existsb_app. Qed.

Lemma logs_app (h1 h2 : list event) : logs (h1 ++ h2) = logs h1 ++ logs h2.
Proof. unfold logs. apply omap_app. Qed.

Lemma db_calls_app (h1 h2 : list event) :
  db_calls (h1 ++ h2) = db_calls h1 ++ db_calls h2.
Proof. unfold db_calls. apply List.filter_app. Qed.

Lemma sleeps_app (h1 h2 : list event) :
  sleeps (h1 ++ h2) = sleeps h1 ++ sleeps h2.
Proof. unfold sleeps. apply omap_app. Qed.

Lemma reads_agree_app (flag : bool) (h1 h2 : list event) :
  reads_agree flag (h1 ++ h2)
  = reads_agree flag h1 && reads_agree (flag || signalled h1) h2.
Proof.
  revert flag. induction h1 as [|e h1 IH]; intros flag; simpl.
  - now rewrite orb_false_r.
  - destruct e; simpl; rewrite ?IH, ?orb_true_r, ?andb_assoc; reflexivity.
Qed.

(** Lines written by handlers are neither logger calls of the script, nor
    database calls, sleeps, reads of the flag or signals. *)
Lemma emitted_inert (hs : list Handler) (r : LogRecord) :
  logs (emitted hs r) = [] /\ db_calls (emitted hs r) = []
  /\ sleeps (emitted hs r) = [] /\ signalled (emitted hs r) = false
  /\ (forall flag, reads_agree flag (emitted hs r) = true).
Proof.
  unfold emitted.
  induction hs as [|h hs (IH1 & IH2 & IH3 & IH4 & IH5)]; simpl.
  - repeat split; reflexivity.
  - destruct (levelno (h_level h) <=? levelno (rec_level r)); simpl;
      repeat split; auto.
Qed.

Section Calls.

Variable w : World.

Lemma for_each_handle (r : LogRecord) (hs : list Handler) (s : State) :
  for_each hs (handle r) s
  = (Ok tt, with_trace (rev (emitted hs r) ++ trace s) s).
Proof.
  revert s. induction hs as [|h hs IH]; intros s.
  - destruct s; reflexivity.
  - cbn [for_each]. unfold bind, handle at 1, emitted. cbn [omap list_omap].
    destruct (levelno (h_level h) <=? levelno (rec_level r)).
    + cbn. rewrite IH. cbn. unfold emitted. cbn [rev].
      now rewrite <- app_assoc.
    + cbn. now rewrite IH.
Qed.

Lemma log_record_eq (lvl : level) (msg : string) (s : State) :
  log_record w lvl msg s = (Ok tt, after_record w lvl msg s).
Proof.
  unfold log_record, after_record, bind, emit, modify, gets.
  rewrite logger_level_le. cbn.
  rewrite for_each_handle. cbn. unfold log_events, record_at. cbn [rev].
  now rewrite <- app_assoc.
Qed.

End Calls.

(* ===================================================================== *)
(** ** Relations that hold across every computation *)
(* ===================================================================== *)

Section Always.

Variable R : State -> State -> Prop.
Hypothesis R_refl : forall s, R s s.
Hypothesis R_trans : forall s1 s2 s3, R s1 s2 -> R s2 s3 -> R s1 s3.

Lemma always_ret {A} (a : A) : always R (ret a).
Proof. intros s. apply R_refl. Qed.

Lemma always_raise {A} (e : Py.exn) : always R (@raise A e).
Proof. intros s. apply R_refl. Qed.

Lemma always_gets {A} (f : State -> A) : always R (gets f).
Proof. intros s. apply R_refl. Qed.

Lemma always_out_of_fuel {A} : always R (@out_of_fuel A).
Proof. intros s. apply R_refl. Qed.

Lemma always_bind {A B} (m : M A) (k : A -> M B) :
  always R m -> (forall a, always R (k a)) -> always R (bind m k).
Proof.
  intros Hm Hk s. unfold bind. specialize (Hm s).
  destruct (m s) as [[a| e |] s1]; cbn in *; auto.
  eapply R_trans; [exact Hm | apply Hk].
Qed.

Lemma always_try_except {A} (m : M A) (h : Py.exn -> option (M A)) :
  always R m -> clauses_always R h -> always R (try_except m h).
Proof.
  intros Hm Hh s. unfold try_except. specialize (Hm s).
  destruct (m s) as [[a| e |] s1]; cbn in *; auto.
  destruct (h e) as [k|] eqn:E; cbn; auto.
  eapply R_trans; [exact Hm | eapply Hh; eauto].
Qed.

Lemma clauses_always_none {A} : clauses_always R (@no_clause A).
Proof. intros e k H. discriminate. Qed.

Lemma clauses_always_except {A} (c : Py.exn_class) (k : Py.exn -> M A)
    (rest : Py.exn -> option (M A)) :
  (forall e, always R (k e)) -> clauses_always R rest ->
  clauses_always R (except c k rest).
Proof.
  intros Hk Hrest e k' H. unfold except in H.
  destruct (Py.isinstance e c).
  - injection H as <-. apply Hk.
  - eapply Hrest; eauto.
Qed.

Lemma always_try_finally {A} (m : M A) (fin : M unit) :
  always R m -> always R fin -> always R (try_finally m fin).
Proof.
  intros Hm Hf s. unfold try_finally. specialize (Hm s).
  destruct (m s) as [[a| e |] s1]; cbn in *; auto;
    specialize (Hf s1); destruct (fin s1) as [[[]| e' |] s2]; cbn in *;
    eapply R_trans; eauto.
Qed.

Lemma always_try_finally_with {A B} (acquire : M A) (rest : A -> M B)
    (fin : option A -> M unit) :
  always R acquire -> (forall a, always R (rest a)) ->
  (forall o, always R (fin o)) ->
  always R (try_finally_with acquire rest fin).
Proof.
  intros Ha Hr Hf s. unfold try_finally_with. specialize (Ha s).
  destruct (acquire s) as [[a| e |] s1]; cbn [snd] in Ha; auto.
  - eapply R_trans; [exact Ha|].
    exact (always_try_finally (rest a) (fin (Some a)) (Hr a) (Hf _) s1).
  - eapply R_trans; [exact Ha|].
    exact (always_try_finally (raise e) (fin None) (always_raise e) (Hf _) s1).
Qed.

Lemma always_for_each {A} (l : list A) (body : A -> M unit) :
  (forall a, always R (body a)) -> always R (for_each l body).
Proof.
  intros Hb. induction l as [|a l IH]; cbn [for_each].
  - apply always_ret.
  - apply always_bind; auto.
Qed.

(** The same from a point in the middle of a computation: what is left
    to run keeps the relation with the state reached so far. *)
Lemma since_bind {A B} (m : M A) (k : A -> M B) (s0 s : State) :
  R s0 (snd (m s)) -> (forall a, always R (k a)) ->
  R s0 (snd (bind m k s)).
Proof.
  intros Hm Hk. unfold bind.
  destruct (m s) as [[a| e |] s1]; cbn [snd] in *; auto.
  eapply R_trans; [exact Hm | apply Hk].
Qed.

Lemma since_try_except {A} (m : M A) (h : Py.exn -> option (M A))
    (s0 s : State) :
  R s0 (snd (m s)) -> clauses_always R h ->
  R s0 (snd (try_except m h s)).
Proof.
  intros Hm Hh. unfold try_except.
  destruct (m s) as [[a| e |] s1]; cbn [snd] in *; auto.
  destruct (h e) as [k|] eqn:E; cbn [snd]; auto.
  eapply R_trans; [exact Hm | eapply Hh; eauto].
Qed.

Lemma since_try_finally {A} (m : M A) (fin : M unit) (s0 s : State) :
  R s0 (snd (m s)) -> always R fin ->
  R s0 (snd (try_finally m fin s)).
Proof.
  intros Hm Hf. unfold try_finally.
  destruct (m s) as [[a| e |] s1]; cbn [snd] in *; auto;
    specialize (Hf s1); destruct (fin s1) as [[[]| e' |] s2]; cbn [snd] in *;
    eapply R_trans; eauto.
Qed.

End Always.

(** The same for the outcome of a computation. *)

Lemma safe_ret {A} P (a : A) : safe P (ret a).
Proof. intros s. exact I. Qed.

Lemma safe_gets {A} P (f : State -> A) : safe P (gets f).
Proof. intros s. exact I. Qed.

Lemma safe_modify P (f : State -> State) : safe P (modify f).
Proof. intros s. exact I. Qed.

Lemma safe_raise {A} (P : Py.exn -> Prop) (e : Py.exn) :
  P e -> safe P (@raise A e).
Proof. intros H s. exact H. Qed.

Lemma safe_bind {A B} P (m : M A) (k : A -> M B) :
  safe P m -> (forall a, safe P (k a)) -> safe P (bind m k).
Proof.
  intros Hm Hk s. unfold bind. specialize (Hm s).
  destruct (m s) as [[a| e |] s1]; cbn in *; auto. apply Hk.
Qed.

Lemma safe_weaken {A} (P Q : Py.exn -> Prop) (m : M A) :
  (forall e, P e -> Q e) -> safe P m -> safe Q m.
Proof.
  intros HPQ Hm s. specialize (Hm s).
  destruct (fst (m s)); auto.
Qed.

(** A [try] whose clauses are safe, and which lets through only what [Q]
    allows. *)
Lemma safe_try_except {A} (P Q : Py.exn -> Prop) (m : M A)
    (h : Py.exn -> option (M A)) :
  safe P m ->
  (forall e k, P e -> h e = Some k -> safe Q k) ->
  (forall e, P e -> h e = None -> Q e) ->
  safe Q (try_except m h).
Proof.
  intros Hm Hh Hn s. unfold try_except. specialize (Hm s).
  destruct (m s) as [[a| e |] s1]; cbn in *; auto.
  destruct (h e) as [k|] eqn:E; cbn.
  - eapply Hh; eauto.
  - auto.
Qed.

Lemma safe_try_finally {A} P (m : M A) (fin : M unit) :
  safe P m -> safe P fin -> safe P (try_finally m fin).
Proof.
  intros Hm Hf s. unfold try_finally. specialize (Hm s).
  destruct (m s) as [[a| e |] s1]; cbn in *; auto;
    specialize (Hf s1); destruct (fin s1) as [[[]| e' |] s2]; cbn in *; auto.
Qed.

Lemma safe_try_finally_with {A B} P (acquire : M A) (rest : A -> M B)
    (fin : option A -> M unit) :
  safe P acquire -> (forall a, safe P (rest a)) ->
  (forall o, safe P (fin o)) ->
  safe P (try_finally_with acquire rest fin).
Proof.
  intros Ha Hr Hf s. unfold try_finally_with. specialize (Ha s).
  destruct (acquire s) as [[a| e |] s1]; cbn [fst] in Ha; [| |contradiction].
  - exact (safe_try_finally P (rest a) (fin (Some a)) (Hr a) (Hf _) s1).
  - exact (safe_try_finally P (raise e) (fin None) (safe_raise P e Ha) (Hf _) s1).
Qed.

Lemma safe_for_each {A} P (l : list A) (body : A -> M unit) :
  (forall a, safe P (body a)) -> safe P (for_each l body).
Proof.
  intros Hb. induction l as [|a l IH]; cbn [for_each].
  - apply safe_ret.
  - apply safe_bind; auto.
Qed.


(* ===================================================================== *)
(** ** What the library calls do to the state *)
(* ===================================================================== *)

Lemma signals_inert (d : list event) :
  forallb is_signal d = true ->
  logs d = [] /\ db_calls d = [] /\ sleeps d = []
  /\ (forall K, connects_with K d).
Proof.
  induction d as [|e d IH]; cbn [forallb]; intros H.
  - repeat split. intros K c kw [].
  - apply andb_true_iff in H as [He Hd].
    destruct (IH Hd) as (I1 & I2 & I3 & I4).
    destruct e; try discriminate. cbn. repeat split; auto.
    intros K c kw [Heq | Hin]; [discriminate | eapply I4; eauto].
Qed.

Lemma signalled_nonempty (d : list event) :
  forallb is_signal d = true -> d <> [] -> signalled d = true.
Proof.
  destruct d as [|e d]; [congruence|]. cbn. intros H _.
  apply andb_true_iff in H as [-> _]. reflexivity.
Qed.

Lemma reads_agree_signals (flag : bool) (d : list event) :
  forallb is_signal d = true -> reads_agree flag d = true.
Proof.
  revert flag. induction d as [|e d IH]; intros flag H; [reflexivity|].
  cbn in H. apply andb_true_iff in H as [He Hd].
  destruct e; try discriminate. cbn. auto.
Qed.

Section CallFacts.

Variable w : World.

Lemma deliver_spec (sg : signal) (s : State) :
  exists s', deliver w sg s = (Ok tt, s')
    /\ handlers s' = handlers s /\ installed s' = installed s
    /\ steps s' = steps s /\ ticks s' = ticks s
    /\ next_conn s' = next_conn s /\ now s' = now s
    /\ ((existsb (signal_eqb sg) (installed s) = true
         /\ stop_requested s' = true
         /\ exists h, trace s' = EvSignal sg h :: trace s)
        \/ (existsb (signal_eqb sg) (installed s) = false /\ s' = s)).
Proof.
  unfold deliver. destruct (existsb (signal_eqb sg) (installed s)) eqn:E.
  - unfold _signal_handler, bind, modify.
    rewrite log_record_eq. cbn.
    eexists; split; [reflexivity|]. cbn. repeat split; auto.
    left. repeat split; eauto.
  - exists s. repeat split; auto.
Qed.

(** The signals that arrive at one point. *)
Lemma deliver_all_spec (sigs : list signal) (s : State) :
  exists s' d, for_each sigs (deliver w) s = (Ok tt, s')
    /\ handlers s' = handlers s /\ installed s' = installed s
    /\ steps s' = steps s /\ ticks s' = ticks s
    /\ next_conn s' = next_conn s /\ now s' = now s
    /\ history s' = history s ++ d
    /\ forallb is_signal d = true
    /\ stop_requested s' = stop_requested s || signalled d
    /\ (d <> [] -> sigs <> [])
    /\ (both_installed s = true -> sigs <> [] -> d <> []).
Proof.
  revert s. induction sigs as [|sg sigs IH]; intros s.
  - exists s, []. cbn. rewrite app_nil_r, orb_false_r.
    repeat split; auto; congruence.
  - cbn [for_each]. unfold bind.
    destruct (deliver_spec sg s)
      as (s1 & E1 & Hh & Hi & Hs & Ht & Hc & Hn & Hcase).
    rewrite E1.
    destruct (IH s1) as (s2 & d2 & E2 & Hh2 & Hi2 & Hs2 & Ht2 & Hc2 & Hn2
                         & Hd2 & Hsig2 & Hstop2 & Hne2 & Hinst2).
    rewrite E2.
    destruct Hcase as [(Hin & Hstop & h & Htr) | (Hin & ->)].
    + exists s2, (EvSignal sg h :: d2). repeat split; try congruence.
      * rewrite Hd2. unfold history. rewrite Htr. cbn [rev].
        now rewrite <- app_assoc.
      * cbn. exact Hsig2.
      * rewrite Hstop2, Hstop. cbn. now rewrite orb_true_r.
    + exists s2, d2. repeat split; try congruence.
      intros Hb _ Hd. subst d2.
      unfold both_installed in Hb. apply andb_true_iff in Hb as [Hb1 Hb2].
      destruct sg; congruence.
Qed.

Lemma blocking_spec (ev : event) (d : option Q) (s : State) :
  exists sigs, blocking w ev d s = (Ok tt, after_blocking w ev d s)
    /\ handlers (after_blocking w ev d s) = handlers s
    /\ installed (after_blocking w ev d s) = installed s
    /\ steps (after_blocking w ev d s) = S (steps s)
    /\ next_conn (after_blocking w ev d s) = next_conn s
    /\ ticks (after_blocking w ev d s) = ticks s
    /\ history (after_blocking w ev d s) = history s ++ ev :: sigs
    /\ forallb is_signal sigs = true
    /\ stop_requested (after_blocking w ev d s)
       = stop_requested s || signalled sigs
    /\ (sigs <> [] -> sig_at w (steps s) <> [])
    /\ (both_installed s = true -> sig_at w (steps s) <> [] -> sigs <> []).
Proof.
  unfold after_blocking, blocking, bind, gets, modify. cbn [fst snd].
  match goal with
  | |- context [for_each ?l ?f ?s0] =>
      destruct (deliver_all_spec l s0)
        as (s' & sigs & E & Hh & Hi & Hs & Ht & Hc & Hn & Hd & Hsig & Hstop
            & Hne & Hinst)
  end.
  rewrite E. exists sigs. cbn [fst snd] in *.
  repeat split; auto.
  rewrite Hd. unfold history. cbn [trace with_clock with_trace rev].
  now rewrite <- app_assoc.
Qed.

(** A point between two calls at which signals are handled. *)
Lemma interrupts_spec (s : State) :
  exists sigs, interrupts w s = (Ok tt, after_interrupts w s)
    /\ handlers (after_interrupts w s) = handlers s
    /\ installed (after_interrupts w s) = installed s
    /\ steps (after_interrupts w s) = steps s
    /\ next_conn (after_interrupts w s) = next_conn s
    /\ ticks (after_interrupts w s) = S (ticks s)
    /\ now (after_interrupts w s) = now s
    /\ history (after_interrupts w s) = history s ++ sigs
    /\ forallb is_signal sigs = true
    /\ stop_requested (after_interrupts w s)
       = stop_requested s || signalled sigs
    /\ (sigs <> [] -> sig_between w (ticks s) <> [])
    /\ (both_installed s = true -> sig_between w (ticks s) <> [] ->
        sigs <> []).
Proof.
  unfold after_interrupts, interrupts, bind, gets, modify. cbn [fst snd].
  match goal with
  | |- context [for_each ?l ?f ?s0] =>
      destruct (deliver_all_spec l s0)
        as (s' & sigs & E & Hh & Hi & Hs & Ht & Hc & Hn & Hd & Hsig & Hstop
            & Hne & Hinst)
  end.
  rewrite E. exists sigs. cbn [fst snd] in *.
  repeat split; auto.
Qed.

(** A logger call of the script. *)
Lemma logger_log_spec (lvl : level) (msg : string) (s : State) :
  exists sigs, logger_log w lvl msg s = (Ok tt, after_log w lvl msg s)
    /\ handlers (after_log w lvl msg s) = handlers s
    /\ installed (after_log w lvl msg s) = installed s
    /\ steps (after_log w lvl msg s) = steps s
    /\ next_conn (after_log w lvl msg s) = next_conn s
    /\ ticks (after_log w lvl msg s) = S (ticks s)
    /\ now (after_log w lvl msg s) = now s
    /\ history (after_log w lvl msg s)
       = history s ++ log_events w s lvl msg ++ sigs
    /\ forallb is_signal sigs = true
    /\ stop_requested (after_log w lvl msg s)
       = stop_requested s || signalled sigs
    /\ (sigs <> [] -> sig_between w (ticks s) <> [])
    /\ (both_installed s = true -> sig_between w (ticks s) <> [] ->
        sigs <> []).
Proof.
  unfold logger_log, after_log, bind. rewrite log_record_eq.
  destruct (interrupts_spec (after_record w lvl msg s))
    as (sigs & E & Hh & Hi & Hs & Hc & Ht & Hn & Hd & Hsig & Hstop & Hne
        & Hinst).
  rewrite E. exists sigs. repeat split; auto.
  rewrite Hd. unfold history, after_record. cbn [trace with_trace].
  now rewrite rev_app_distr, rev_involutive, <- app_assoc.
Qed.

(** A read of the stop flag. *)
Lemma read_stop_spec (s : State) :
  exists sigs, read_stop w s = (Ok (stop_requested s), after_read w s)
    /\ handlers (after_read w s) = handlers s
    /\ installed (after_read w s) = installed s
    /\ steps (after_read w s) = steps s
    /\ next_conn (after_read w s) = next_conn s
    /\ ticks (after_read w s) = S (ticks s)
    /\ now (after_read w s) = now s
    /\ history (after_read w s)
       = history s ++ EvReadFlag (stop_requested s) :: sigs
    /\ forallb is_signal sigs = true
    /\ stop_requested (after_read w s)
       = stop_requested s || signalled sigs
    /\ (sigs <> [] -> sig_between w (ticks s) <> [])
    /\ (both_installed s = true -> sig_between w (ticks s) <> [] ->
        sigs <> []).
Proof.
  unfold read_stop, after_read, bind, gets, emit, modify. cbn [fst snd].
  destruct (interrupts_spec
              (with_trace (EvReadFlag (stop_requested s) :: trace s) s))
    as (sigs & E & Hh & Hi & Hs & Hc & Ht & Hn & Hd & Hsig & Hstop & Hne
        & Hinst).
  rewrite E. exists sigs. repeat split; auto.
  rewrite Hd. unfold history. cbn [trace with_trace rev].
  now rewrite <- app_assoc.
Qed.

End CallFacts.

(* ===================================================================== *)
(** ** The state only evolves *)
(* ===================================================================== *)

Section Evolution.

Variable w : World.
Variable K : conn_kwargs -> Prop.

Lemma connects_with_app (d1 d2 : list event) :
  connects_with K d1 -> connects_with K d2 -> connects_with K (d1 ++ d2).
Proof.
  intros H1 H2 c kw Hin. apply in_app_or in Hin as [Hin | Hin]; eauto.
Qed.

Lemma arrived_mono (s1 s2 s3 s4 : State) :
  (steps s1 <= steps s2)%nat -> (steps s3 <= steps s4)%nat ->
  (ticks s1 <= ticks s2)%nat -> (ticks s3 <= ticks s4)%nat ->
  arrived w s2 s3 -> arrived w s1 s4.
Proof.
  intros H1 H2 H3 H4 [(j & Hj & Hne) | (j & Hj & Hne)];
    [left | right]; exists j; (split; [lia | exact Hne]).
Qed.

Lemma arrived_split (s1 s2 s3 : State) :
  arrived w s1 s3 -> arrived w s1 s2 \/ arrived w s2 s3.
Proof.
  intros [(j & Hj & Hne) | (j & Hj & Hne)].
  - destruct (Nat.lt_ge_cases j (steps s2)).
    + left. left. exists j. split; [lia | exact Hne].
    + right. left. exists j. split; [lia | exact Hne].
  - destruct (Nat.lt_ge_cases j (ticks s2)).
    + left. right. exists j. split; [lia | exact Hne].
    + right. right. exists j. split; [lia | exact Hne].
Qed.

Lemma not_arrived (s s' : State) :
  steps s' = steps s -> ticks s' = ticks s -> ~ arrived w s s'.
Proof. intros Hs Ht [(j & Hj & _) | (j & Hj & _)]; lia. Qed.

Lemma evolves_refl (s : State) : evolves w K s s.
Proof.
  split; auto. exists []. rewrite app_nil_r, orb_false_r.
  repeat split; auto.
  - intros c kw [].
  - discriminate.
  - intros _ H. now apply not_arrived in H.
Qed.

Lemma evolves_trans (s1 s2 s3 : State) :
  evolves w K s1 s2 -> evolves w K s2 s3 -> evolves w K s1 s3.
Proof.
  intros [Hh1 Hi1 Hs1 Ht1 Hc1 (d1 & Hd1 & Hf1 & Hr1 & Hk1 & Hsig1 & Hdel1)]
         [Hh2 Hi2 Hs2 Ht2 Hc2 (d2 & Hd2 & Hf2 & Hr2 & Hk2 & Hsig2 & Hdel2)].
  split; try congruence; try lia.
  exists (d1 ++ d2). repeat split.
  - now rewrite Hd2, Hd1, app_assoc.
  - now rewrite Hf2, Hf1, signalled_app, orb_assoc.
  - rewrite reads_agree_app, Hr1, <- Hf1, Hr2. reflexivity.
  - now apply connects_with_app.
  - rewrite signalled_app. intros H. apply orb_true_iff in H as [H | H].
    + apply (arrived_mono s1 s1 s2 s3); auto. 
    + apply (arrived_mono s1 s2 s3 s3); auto.
  - intros Hb Ha. rewrite signalled_app. apply orb_true_iff.
    destruct (arrived_split s1 s2 s3 Ha) as [H | H].
    + left. now apply Hdel1.
    + right. apply Hdel2; [|exact H].
      unfold both_installed in *. now rewrite Hi1.
Qed.

(** A step that appends events which are neither signals nor reads. *)
Lemma evolves_quiet (s s' : State) (d : list event) :
  handlers s' = handlers s -> installed s' = installed s ->
  steps s' = steps s -> ticks s' = ticks s ->
  (next_conn s <= next_conn s')%nat ->
  stop_requested s' = stop_requested s ->
  history s' = history s ++ d ->
  signalled d = false -> reads_agree (stop_requested s) d = true ->
  connects_with K d ->
  evolves w K s s'.
Proof.
  intros Hh Hi Hs Ht Hc Hf Hd Hsig Hr Hk.
  split; auto; try lia.
  exists d. rewrite Hsig, orb_false_r. repeat split; auto.
  - discriminate.
  - intros _ H. now apply not_arrived in H.
Qed.

Lemma quiet_single (flag : bool) (ev : event) :
  quiet K ev ->
  signalled [ev] = false /\ reads_agree flag [ev] = true
  /\ connects_with K [ev].
Proof.
  intros (Hs & Hr & Hk). repeat split; auto.
  - cbn. now rewrite Hs.
  - destruct ev; try discriminate; reflexivity.
Qed.

Lemma evolves_emit (ev : event) : quiet K ev -> always (evolves w K) (emit ev).
Proof.
  intros Hq s. destruct (quiet_single (stop_requested s) ev Hq) as (H1 & H2 & H3).
  apply evolves_quiet with (d := [ev]); auto.
Qed.

(** A step that appends quiet events [d0] and then handles the signals of
    one point, at which either [steps] or [ticks] moves on by one. *)
Lemma evolves_point (s s' : State) (d0 sigs : list event) :
  handlers s' = handlers s -> installed s' = installed s ->
  (steps s' = S (steps s) /\ ticks s' = ticks s
   /\ (sigs <> [] -> sig_at w (steps s) <> [])
   /\ (both_installed s = true -> sig_at w (steps s) <> [] -> sigs <> [])
   \/ steps s' = steps s /\ ticks s' = S (ticks s)
      /\ (sigs <> [] -> sig_between w (ticks s) <> [])
      /\ (both_installed s = true -> sig_between w (ticks s) <> [] ->
          sigs <> [])) ->
  next_conn s' = next_conn s ->
  history s' = history s ++ d0 ++ sigs ->
  forallb is_signal sigs = true ->
  stop_requested s' = stop_requested s || signalled sigs ->
  signalled d0 = false -> reads_agree (stop_requested s) d0 = true ->
  connects_with K d0 ->
  evolves w K s s'.
Proof.
  intros Hh Hi Hpoint Hc Hd Hsig Hstop Hq0 Hr0 Hk0.
  destruct (signals_inert sigs Hsig) as (_ & _ & _ & S4).
  assert (Hsd : signalled (d0 ++ sigs) = signalled sigs)
    by (now rewrite signalled_app, Hq0).
  split; auto; try lia.
  exists (d0 ++ sigs). rewrite Hsd. repeat split; auto.
  - rewrite reads_agree_app, Hr0. now apply reads_agree_signals.
  - now apply connects_with_app.
  - intros H.
    assert (Hne : sigs <> []) by (intros ->; discriminate).
    destruct Hpoint as [(Hs & Ht & Hn & _) | (Hs & Ht & Hn & _)].
    + left. exists (steps s). split; [lia | auto].
    + right. exists (ticks s). split; [lia | auto].
  - intros Hb Ha. apply signalled_nonempty; auto.
    destruct Hpoint as [(Hs & Ht & _ & Hn) | (Hs & Ht & _ & Hn)];
      destruct Ha as [(j & Hj & Hne) | (j & Hj & Hne)]; try lia.
    + assert (j = steps s) as -> by lia. auto.
    + assert (j = ticks s) as -> by lia. auto.
Qed.

Lemma log_events_quiet (lvl : level) (msg : string) (s : State) :
  signalled (log_events w s lvl msg) = false
  /\ (forall flag, reads_agree flag (log_events w s lvl msg) = true)
  /\ connects_with K (log_events w s lvl msg).
Proof.
  destruct (emitted_inert (handlers s) (record_at w s lvl msg))
    as (_ & E2 & _ & E4 & E5).
  repeat split.
  - unfold log_events; cbn; exact E4.
  - intros flag. unfold log_events; cbn; apply E5.
  - intros c kw Hin. unfold log_events in Hin. destruct Hin as [Hin|Hin];
      [discriminate|].
    unfold emitted in Hin. apply list_elem_of_In in Hin.
    apply list_elem_of_omap in Hin as (h & _ & Hh).
    destruct (levelno (h_level h) <=? _); discriminate.
Qed.

Lemma evolves_logger_log (lvl : level) (msg : string) :
  always (evolves w K) (logger_log w lvl msg).
Proof.
  intros s.
  destruct (logger_log_spec w lvl msg s)
    as (sigs & E & Hh & Hi & Hs & Hc & Ht & Hn & Hd & Hsig & Hstop & Hne
        & Hinst).
  rewrite E. cbn [snd].
  destruct (log_events_quiet lvl msg s) as (Q1 & Q2 & Q3).
  apply evolves_point with (d0 := log_events w s lvl msg) (sigs := sigs);
    auto.
Qed.

Lemma evolves_interrupts : always (evolves w K) (interrupts w).
Proof.
  intros s.
  destruct (interrupts_spec w s)
    as (sigs & E & Hh & Hi & Hs & Hc & Ht & Hn & Hd & Hsig & Hstop & Hne
        & Hinst).
  rewrite E. cbn [snd].
  apply evolves_point with (d0 := []) (sigs := sigs); auto.
  intros c kw [].
Qed.

Lemma evolves_read_stop : always (evolves w K) (read_stop w).
Proof.
  intros s.
  destruct (read_stop_spec w s)
    as (sigs & E & Hh & Hi & Hs & Hc & Ht & Hn & Hd & Hsig & Hstop & Hne
        & Hinst).
  rewrite E. cbn [snd].
  apply evolves_point with (d0 := [EvReadFlag (stop_requested s)])
                           (sigs := sigs); auto.
  - cbn. now rewrite Bool.eqb_reflx.
  - intros c kw [H|[]]; discriminate.
Qed.

Lemma evolves_blocking (ev : event) (d : option Q) :
  quiet K ev -> always (evolves w K) (blocking w ev d).
Proof.
  intros Hq s.
  destruct (blocking_spec w ev d s)
    as (sigs & E & Hh & Hi & Hs & Hc & Ht & Hd & Hsig & Hstop & Hne & Hinst).
  rewrite E. cbn [snd].
  destruct (quiet_single (stop_requested s) ev Hq) as (Q1 & Q2 & Q3).
  apply evolves_point with (d0 := [ev]) (sigs := sigs); auto.
Qed.

Lemma evolves_db_call (ev : event) :
  quiet K ev -> always (evolves w K) (db_call w ev).
Proof.
  intros Hq. unfold db_call.
  apply always_bind; [exact evolves_trans | apply always_gets, evolves_refl |].
  intros k. apply always_bind;
    [exact evolves_trans | now apply evolves_blocking |].
  intros _. destruct (fail_at w k).
  - apply always_raise, evolves_refl.
  - apply always_ret, evolves_refl.
Qed.

Lemma evolves_psycopg2_connect (kw : conn_kwargs) :
  K kw -> always (evolves w K) (psycopg2_connect w kw).
Proof.
  intros Hk s. unfold psycopg2_connect, bind, gets, modify. cbn [fst snd].
  set (s1 := with_next_conn (S (next_conn s)) s).
  assert (Hq : quiet K (EvConnect (next_conn s) kw)).
  { repeat split. intros c kw' [H|[]]. now injection H as _ <-. }
  pose proof (evolves_db_call _ Hq s1) as H1.
  assert (H0 : evolves w K s s1).
  { apply evolves_quiet with (d := []); auto.
    - cbn. lia.
    - unfold history. cbn. now rewrite app_nil_r.
    - intros c kw' []. }
  destruct (db_call w (EvConnect (next_conn s) kw) s1) as [[[]| e |] s2];
    cbn [snd] in *; eapply evolves_trans; eauto.
Qed.

Lemma evolves_time_sleep (d : Q) : always (evolves w K) (time_sleep w d).
Proof.
  unfold time_sleep. destruct (Qltb d 0).
  - apply always_raise, evolves_refl.
  - apply evolves_blocking. repeat split. intros c kw [H|[]]. discriminate.
Qed.

End Evolution.

(* ===================================================================== *)
(** ** The parts of the script only make the state evolve *)
(* ===================================================================== *)

Section ProgramEvolves.

Variable w : World.
Variable cfg : Config.

Let K : conn_kwargs -> Prop := eq (kwargs_of cfg).
Let R : State -> State -> Prop := evolves w K.

Lemma e_bind {A B} (m : M A) (k : A -> M B) :
  always R m -> (forall a, always R (k a)) -> always R (bind m k).
Proof. apply always_bind. exact (evolves_trans w K). Qed.

Lemma e_ret {A} (a : A) : always R (ret a).
Proof. apply always_ret. exact (evolves_refl w K). Qed.

Lemma e_raise {A} (e : Py.exn) : always R (@raise A e).
Proof. apply always_raise. exact (evolves_refl w K). Qed.

Lemma e_gets {A} (f : State -> A) : always R (gets f).
Proof. apply always_gets. exact (evolves_refl w K). Qed.

Lemma e_out_of_fuel {A} : always R (@out_of_fuel A).
Proof. apply always_out_of_fuel. exact (evolves_refl w K). Qed.

Lemma e_try_except {A} (m : M A) (h : Py.exn -> option (M A)) :
  always R m -> clauses_always R h -> always R (try_except m h).
Proof.
  apply always_try_except;
    first [exact (evolves_refl w K) | exact (evolves_trans w K)].
Qed.

Lemma e_none {A} : clauses_always R (@no_clause A).
Proof. apply clauses_always_none. Qed.

Lemma e_except {A} (c : Py.exn_class) (k : Py.exn -> M A)
    (rest : Py.exn -> option (M A)) :
  (forall e, always R (k e)) -> clauses_always R rest ->
  clauses_always R (except c k rest).
Proof. apply clauses_always_except. Qed.

Lemma e_try_finally {A} (m : M A) (fin : M unit) :
  always R m -> always R fin -> always R (try_finally m fin).
Proof. apply always_try_finally. exact (evolves_trans w K). Qed.

Lemma e_try_finally_with {A B} (acquire : M A) (rest : A -> M B)
    (fin : option A -> M unit) :
  always R acquire -> (forall a, always R (rest a)) ->
  (forall o, always R (fin o)) ->
  always R (try_finally_with acquire rest fin).
Proof.
  apply always_try_finally_with;
    first [exact (evolves_refl w K) | exact (evolves_trans w K)].
Qed.

Lemma quiet_db (ev : event) :
  is_db ev = true -> (forall c kw, ev <> EvConnect c kw) -> quiet K ev.
Proof.
  intros Hdb Hne. repeat split.
  - destruct ev; try discriminate; reflexivity.
  - destruct ev; try discriminate; reflexivity.
  - intros c kw [H|[]]. now apply Hne in H.
Qed.

Ltac quiet_db := apply quiet_db; [reflexivity | discriminate].

Ltac evo :=
  repeat (intros;
    lazymatch goal with
    | |- always _ (bind _ _) => apply e_bind
    | |- always _ (ret _) => apply e_ret
    | |- always _ (raise _) => apply e_raise
    | |- always _ (sys_exit _) => apply e_raise
    | |- always _ (gets _) => apply e_gets
    | |- always _ out_of_fuel => apply e_out_of_fuel
    | |- always _ (try_except _ _) => apply e_try_except
    | |- clauses_always _ (except _ _ _) => apply e_except
    | |- clauses_always _ no_clause => apply e_none
    | |- always _ (try_finally _ _) => apply e_try_finally
    | |- always _ (try_finally_with _ _ _) => apply e_try_finally_with
    | |- always _ (logger_log _ _ _) => apply evolves_logger_log
    | |- always _ (read_stop _) => apply evolves_read_stop
    | |- always _ (interrupts _) => apply evolves_interrupts
    | |- always _ (time_sleep _ _) => apply evolves_time_sleep
    | |- always _ (db_call _ _) => apply evolves_db_call; quiet_db
    | |- always _ (if ?b then _ else _) => destruct b
    | |- always _ (match ?x with Some _ => _ | None => _ end) => destruct x
    | |- always _ (match ?x with O => _ | S _ => _ end) => destruct x
    end);
  intros.

Lemma e_with_cursor {A} (c : conn) (body : conn -> M A) :
  (forall cur, always R (body cur)) -> always R (with_cursor w c body).
Proof. intros Hb. unfold with_cursor. evo. apply Hb. Qed.

Lemma e_set_statement_timeout (c : conn) :
  always R (set_statement_timeout w cfg c).
Proof.
  unfold set_statement_timeout, cursor_execute, conn_commit, conn_rollback.
  apply e_with_cursor. evo.
Qed.

Lemma e_release (o : option conn) : always R (release w o).
Proof. unfold release, conn_close. evo. Qed.

Lemma e_report_version (row : option (list Py.value)) :
  always R (report_version w row).
Proof. unfold report_version, logger_warning, logger_info. evo. Qed.

Lemma e_version_query (c : conn) : always R (version_query w c).
Proof.
  unfold version_query. apply e_with_cursor. intros cur.
  unfold cursor_execute, cursor_fetchone. evo. apply e_report_version.
Qed.

Lemma e_probe : always R (probe w cfg).
Proof.
  unfold probe, connect_with_timeout.
  apply e_try_finally_with.
  - apply evolves_psycopg2_connect. reflexivity.
  - intros c. apply e_bind; [apply e_set_statement_timeout|].
    intros _. apply e_version_query.
  - apply e_release.
Qed.

Lemma e_check_version : always R (check_version w cfg).
Proof. unfold check_version, logger_error. evo. apply e_probe. Qed.

Lemma e_sleep_loop (fuel : nat) (t : Q) : always R (sleep_loop w fuel t).
Proof.
  revert t. induction fuel as [|fuel IH]; intros t; cbn [sleep_loop]; evo.
  apply IH.
Qed.

Lemma e_sleep_phase (elapsed : Q) : always R (sleep_phase w cfg elapsed).
Proof. unfold sleep_phase. evo. apply e_sleep_loop. Qed.

Lemma e_guarded_check : always R (guarded_check w cfg).
Proof. unfold guarded_check, logger_error. evo. apply e_check_version. Qed.

Lemma e_iteration : always R (iteration w cfg).
Proof.
  unfold iteration, time_time. evo.
  - apply e_guarded_check.
  - apply e_sleep_phase.
Qed.

Lemma e_main_while (fuel : nat) : always R (main_while w cfg fuel).
Proof.
  induction fuel as [|fuel IH]; cbn [main_while]; evo.
  - apply e_iteration.
  - apply IH.
Qed.

Lemma e_main_loop (fuel : nat) : always R (main_loop w cfg fuel).
Proof. unfold main_loop, logger_info. evo. apply e_main_while. Qed.

Lemma e_entry (main : M unit) : always R main -> always R (entry w main).
Proof.
  intros H. unfold entry, logger_info, logger_error. evo. exact H.
Qed.

End ProgramEvolves.

(* ===================================================================== *)
(** ** What the parts of the script can raise *)
(* ===================================================================== *)

(** Facts on comparisons. *)
Lemma Qltb_true (a b : Q) : Qltb a b = true <-> (a < b)%Q.
Proof.
  unfold Qltb. rewrite negb_true_iff. split.
  - intros H. apply Qnot_le_lt. intros Hle.
    apply Qle_bool_iff in Hle. congruence.
  - intros H. destruct (Qle_bool b a) eqn:E; [|reflexivity].
    apply Qle_bool_iff in E. exfalso. eapply Qlt_not_le; eauto.
Qed.

Lemma Qltb_false (a b : Q) : Qltb a b = false <-> (b <= a)%Q.
Proof.
  unfold Qltb. rewrite negb_false_iff. apply Qle_bool_iff.
Qed.

Lemma py_min_step_bounds (t : Q) :
  (0 < t)%Q -> (0 < py_min step t)%Q /\ (py_min step t <= 1)%Q.
Proof.
  intros Ht. unfold py_min, step.
  destruct (Qltb t 1) eqn:E.
  - apply Qltb_true in E. split; [exact Ht | now apply Qlt_le_weak].
  - split; [reflexivity | apply Qle_refl].
Qed.

(** One more round is needed exactly when some time is left. *)
Lemma sleep_rounds_pos (t : Q) : (0 < t)%Q -> (0 < sleep_rounds t)%nat.
Proof.
  intros Ht. unfold sleep_rounds.
  assert (0 < Qceiling t)%Z; [|lia].
  apply Z.lt_nge. intros Hle.
  pose proof (Qle_ceiling t) as Hc.
  assert (inject_Z (Qceiling t) <= 0)%Q as H0.
  { change 0%Q with (inject_Z 0). now rewrite <- Zle_Qle. }
  eapply Qlt_not_le; [exact Ht|]. eapply Qle_trans; eauto.
Qed.

Lemma sleep_rounds_step (t : Q) :
  sleep_rounds (t - step) = pred (sleep_rounds t).
Proof.
  unfold sleep_rounds, step.
  assert (Qceiling (t - 1) = Qceiling t - 1)%Z as ->; [|lia].
  unfold Qceiling, Qfloor.
  destruct t as [n d]. cbn.
  replace (- (n * 1 + - (1) * Z.pos d))%Z with (- n + 1 * Z.pos d)%Z by ring.
  rewrite Pos.mul_1_r, Z.div_add by lia. ring.
Qed.

Section ProgramSafe.

Variable w : World.

Lemma safe_logger_log P (lvl : level) (msg : string) :
  safe P (logger_log w lvl msg).
Proof.
  intros s. destruct (logger_log_spec w lvl msg s) as (sigs & E & _).
  rewrite E. exact I.
Qed.

Lemma safe_blocking P (ev : event) (d : option Q) : safe P (blocking w ev d).
Proof.
  intros s. destruct (blocking_spec w ev d s) as (sigs & E & _).
  rewrite E. exact I.
Qed.

Lemma safe_read_stop P : safe P (read_stop w).
Proof.
  intros s. destruct (read_stop_spec w s) as (sigs & E & _).
  rewrite E. exact I.
Qed.

Lemma safe_interrupts P : safe P (interrupts w).
Proof.
  intros s. destruct (interrupts_spec w s) as (sigs & E & _).
  rewrite E. exact I.
Qed.

Lemma safe_time_sleep P (d : Q) : (0 <= d)%Q -> safe P (time_sleep w d).
Proof.
  intros Hd. unfold time_sleep.
  apply Qltb_false in Hd. rewrite Hd. apply safe_blocking.
Qed.

Section Failures.

Variable P : Py.exn -> Prop.
Hypothesis world_P : forall k e, fail_at w k = Some e -> P e.

Lemma safe_db_call (ev : event) : safe P (db_call w ev).
Proof.
  unfold db_call. apply safe_bind; [apply safe_gets|]. intros k.
  apply safe_bind; [apply safe_blocking|]. intros _.
  destruct (fail_at w k) eqn:E.
  - apply safe_raise. eauto.
  - apply safe_ret.
Qed.

Lemma safe_psycopg2_connect (kw : conn_kwargs) :
  safe P (psycopg2_connect w kw).
Proof.
  unfold psycopg2_connect.
  apply safe_bind; [apply safe_gets|]. intros c.
  apply safe_bind; [apply safe_modify|]. intros _.
  apply safe_bind; [apply safe_db_call|]. intros _. apply safe_ret.
Qed.

Lemma safe_with_cursor {A} (c : conn) (body : conn -> M A) :
  (forall cur, safe P (body cur)) -> safe P (with_cursor w c body).
Proof.
  intros Hb. unfold with_cursor.
  apply safe_bind; [apply safe_db_call|]. intros _.
  apply safe_try_finally; [apply Hb | apply safe_db_call].
Qed.

Lemma safe_set_statement_timeout (cfg : Config) (c : conn) :
  safe P (set_statement_timeout w cfg c).
Proof.
  unfold set_statement_timeout. apply safe_with_cursor. intros cur.
  apply safe_try_except with (P := P).
  - apply safe_bind; [apply safe_db_call|]. intros _. apply safe_db_call.
  - intros e k _ H. unfold except, no_clause in H.
    destruct (Py.isinstance e Py.Exception); [|discriminate].
    injection H as <-. apply safe_db_call.
  - auto.
Qed.

Lemma safe_release (o : option conn) : safe P (release w o).
Proof.
  destruct o as [c|]; cbn [release]; [|apply safe_ret].
  apply safe_try_except with (P := P).
  - apply safe_db_call.
  - intros e k _ H. unfold except, no_clause in H.
    destruct (Py.isinstance e Py.Exception); [|discriminate].
    injection H as <-. apply safe_ret.
  - auto.
Qed.

Lemma safe_report_version (row : option (list Py.value)) :
  safe P (report_version w row).
Proof.
  unfold report_version, logger_warning, logger_info.
  destruct (negb (Py.truthy_row row)); [apply safe_logger_log|].
  destruct (Py.startswith _ _); apply safe_logger_log.
Qed.

Lemma safe_version_query (c : conn) : safe P (version_query w c).
Proof.
  unfold version_query. apply safe_with_cursor. intros cur.
  apply safe_bind; [apply safe_db_call|]. intros _.
  apply safe_bind.
  - unfold cursor_fetchone. apply safe_bind; [apply safe_gets|].
    intros k. apply safe_bind; [apply safe_db_call|]. intros _.
    apply safe_ret.
  - apply safe_report_version.
Qed.

Lemma safe_probe (cfg : Config) : safe P (probe w cfg).
Proof.
  unfold probe, connect_with_timeout. apply safe_try_finally_with.
  - apply safe_psycopg2_connect.
  - intros c. apply safe_bind; [apply safe_set_statement_timeout|].
    intros _. apply safe_version_query.
  - apply safe_release.
Qed.

End Failures.

(** The three clauses of [check_version] catch every [Exception]. *)
Lemma check_version_clause (e : Py.exn) :
  is_exception e ->
  except Py.OperationalError
    (fun e => logger_error w ("Connection failed: " ++ Py.str_exn e))
    (except Py.DatabaseError
       (fun e => logger_error w ("Database error: " ++ Py.str_exn e))
       (except Py.Exception
          (fun e => logger_error w ("Unexpected error: " ++ Py.str_exn e))
          no_clause)) e
  = Some (logger_error w (failure_label e ++ Py.str_exn e)).
Proof.
  intros He. unfold except, failure_label. red in He.
  destruct (Py.isinstance e Py.OperationalError); [reflexivity|].
  destruct (Py.isinstance e Py.DatabaseError); [reflexivity|].
  now rewrite He.
Qed.

(** The loop of lines 135-137, one round unfolded. *)
Lemma sleep_loop_eq (fuel : nat) (t : Q) (s : State) :
  sleep_loop w fuel t s
  = if Qltb 0 t then
      let s1 := after_read w s in
      if stop_requested s then (Ok tt, s1)
      else match fuel with
           | O => (OutOfFuel, s1)
           | S fuel' =>
               bind (time_sleep w (py_min step t))
                    (fun _ => sleep_loop w fuel' (t - step)) s1
           end
    else (Ok tt, s).
Proof.
  destruct (read_stop_spec w s) as (sigs & E & _).
  destruct fuel; cbn [sleep_loop]; unfold bind at 1;
    destruct (Qltb 0 t); try reflexivity;
    unfold bind at 1; rewrite E; unfold ret at 1;
    destruct (stop_requested s); reflexivity.
Qed.

Section OnlyExceptions.

Hypothesis world_ok : failures_are_exceptions w.

Variable cfg : Config.

Lemma safe_check_version : safe never (check_version w cfg).
Proof.
  unfold check_version.
  apply safe_try_except with (P := is_exception).
  - apply safe_probe. exact world_ok.
  - intros e k He H. rewrite check_version_clause in H by exact He.
    injection H as <-. apply safe_logger_log.
  - intros e He H. rewrite check_version_clause in H by exact He.
    discriminate.
Qed.

Lemma safe_sleep_loop (fuel : nat) (t : Q) :
  (sleep_rounds t <= fuel)%nat -> safe never (sleep_loop w fuel t).
Proof.
  revert t. induction fuel as [|fuel IH]; intros t Hf s;
    rewrite sleep_loop_eq; destruct (Qltb 0 t) eqn:E; try exact I;
    destruct (stop_requested s); try exact I.
  - apply Qltb_true, sleep_rounds_pos in E. lia.
  - apply safe_bind.
    + apply safe_time_sleep. apply Qltb_true in E.
      apply Qlt_le_weak. now apply py_min_step_bounds.
    + intros _. apply IH. rewrite sleep_rounds_step. lia.
Qed.

End OnlyExceptions.

End ProgramSafe.
(* ===================================================================== *)
(** ** The sleep phase *)
(* ===================================================================== *)

Lemma py_max_Qmax (a b : Q) : (py_max a b == Qmax a b)%Q.
Proof.
  unfold py_max. destruct (Qltb a b) eqn:E.
  - apply Qltb_true in E. symmetry. apply Q.max_r. now apply Qlt_le_weak.
  - apply Qltb_false in E. symmetry. now apply Q.max_l.
Qed.









Section SleepPhase.

Variable w : World.
Variable cfg : Config.

(** One round of the main loop: the check, then the sleep phase for what
    the clock says the check took. *)
Lemma iteration_eq (s : State) :
  iteration w cfg s
  = match guarded_check w cfg s with
    | (Ok _, s1) =>
        sleep_phase w cfg (Py.fsub (Py.float (now s1)) (Py.float (now s))) s1
    | (Raise e, s1) => (Raise e, s1)
    | (OutOfFuel, s1) => (OutOfFuel, s1)
    end.
Proof.
  unfold iteration, time_time, bind, gets, ret.
  destruct (guarded_check w cfg s) as [[[]| e |] s1]; reflexivity.
Qed.

Lemma Qmax_0_step (t : Q) :
  (0 < t)%Q -> (py_min step t + Qmax 0 (t - step) == Qmax 0 t)%Q.
Proof.
  intros Ht. rewrite (Q.max_r 0 t) by lra.
  unfold py_min, step. destruct (Qltb t 1) eqn:E.
  - apply Qltb_true in E. rewrite Q.max_l by lra. lra.
  - apply Qltb_false in E. rewrite Q.max_r by lra. lra.
Qed.

(** The loop of lines 135-137 ends, and what it does is a sequence of
    rounds; it sleeps for the whole of [t] unless it is stopped. *)
Lemma sleep_loop_rounds (fuel : nat) (t : Q) (s : State) :
  (sleep_rounds t <= fuel)%nat ->
  exists s' d,
    sleep_loop w fuel t s = (Ok tt, s')
    /\ history s' = history s ++ d
    /\ rounds (stop_requested s) d
    /\ stop_requested s' = stop_requested s || signalled d
    /\ (Qsum (sleeps d) <= Qmax 0 t)%Q
    /\ (stop_requested s' = false -> (Qsum (sleeps d) == Qmax 0 t)%Q)
    /\ ((t <= 0)%Q -> d = []).
Proof.
  revert t s. induction fuel as [|fuel IH]; intros t s Hf;
    rewrite sleep_loop_eq; destruct (Qltb 0 t) eqn:E.
  1,3: destruct (read_stop_spec w s)
         as (before & _ & _ & _ & _ & _ & _ & _ & Hh1 & Hb & Hstop1 & _);
       destruct (stop_requested s) eqn:Es; cbv zeta.
  - (* stopped before the first round *)
    apply Qltb_true in E.
    eexists _, (EvReadFlag true :: before). split; [reflexivity|].
    split; [exact Hh1|]. split; [now apply rounds_stopped|].
    split; [exact Hstop1|].
    change (sleeps (EvReadFlag true :: before)) with (sleeps before).
    destruct (signals_inert before Hb) as (_ & _ & -> & _).
    split; [cbn; apply Q.le_max_l|].
    split; [rewrite Hstop1; discriminate | intros Ht; lra].
  - apply Qltb_true, sleep_rounds_pos in E. lia.
  - apply Qltb_true in E.
    eexists _, (EvReadFlag true :: before). split; [reflexivity|].
    split; [exact Hh1|]. split; [now apply rounds_stopped|].
    split; [exact Hstop1|].
    change (sleeps (EvReadFlag true :: before)) with (sleeps before).
    destruct (signals_inert before Hb) as (_ & _ & -> & _).
    split; [cbn; apply Q.le_max_l|].
    split; [rewrite Hstop1; discriminate | intros Ht; lra].
  - (* one round, then the rest *)
    apply Qltb_true in E.
    destruct (py_min_step_bounds t E) as [Hpos Hle].
    set (s1 := after_read w s) in *.
    unfold bind at 1, time_sleep.
    assert (Qltb (py_min step t) 0 = false) as ->
        by (apply Qltb_false; now apply Qlt_le_weak).
    destruct (blocking_spec w (EvSleep (py_min step t))
                            (Some (py_min step t)) s1)
      as (during & Eb & _ & _ & _ & _ & _ & Hh & Hd & Hstop & _).
    rewrite Eb.
    destruct (IH (t - step)%Q (after_blocking w (EvSleep (py_min step t))
                                 (Some (py_min step t)) s1))
      as (s' & d & El & Hd' & Hr & Hs' & Hsum_le & Hsum & Hnil);
      [rewrite sleep_rounds_step; lia|].
    rewrite El. exists s'.
    exists (EvReadFlag false :: before ++ EvSleep (py_min step t)
            :: during ++ d).
    cbn [orb] in Hstop1.
    rewrite Hstop, Hstop1, <- signalled_app in Hr, Hs'.
    destruct (signals_inert before Hb) as (_ & _ & Hsb & _).
    destruct (signals_inert during Hd) as (_ & _ & Hsd & _).
    assert (Hsl' : sleeps (EvReadFlag false :: before
                           ++ EvSleep (py_min step t) :: during ++ d)
                   = py_min step t :: sleeps d).
    { change (sleeps (EvReadFlag false :: ?l)) with (sleeps l).
      rewrite sleeps_app, Hsb. cbn.
      change (omap sleep_of (during ++ d)) with (sleeps (during ++ d)).
      now rewrite sleeps_app, Hsd. }
    assert (Hlast : (py_min step t == 1)%Q \/ sleeps d = []).
    { unfold py_min, step. destruct (Qltb t 1) eqn:E1.
      - right. apply Qltb_true in E1. rewrite Hnil; [reflexivity|].
        unfold step. lra.
      - left. reflexivity. }
    split; [reflexivity|]. split.
    { rewrite Hd', Hh, Hh1. rewrite <- !app_assoc. cbn.
      rewrite <- ?app_assoc. reflexivity. }
    split; [now apply rounds_sleep|]. split.
    { rewrite Hs'. cbn [orb].
      change (EvReadFlag false :: before ++ EvSleep (py_min step t)
              :: during ++ d)
        with ([EvReadFlag false] ++ before ++ [EvSleep (py_min step t)]
              ++ during ++ d).
      rewrite !signalled_app. cbn. now rewrite orb_assoc. }
    split.
    { rewrite Hsl'. cbn [Qsum fold_right]. rewrite <- (Qmax_0_step t E).
      apply Qplus_le_r. exact Hsum_le. }
    split.
    { intros Hfalse. rewrite Hsl'. cbn [Qsum fold_right].
      rewrite <- (Qmax_0_step t E). apply Qplus_inj_l. apply Hsum.
      exact Hfalse. }
    intros Ht. lra.
  - exists s, []. rewrite app_nil_r, orb_false_r.
    apply Qltb_false in E.
    split; [reflexivity|]. split; [reflexivity|].
    split; [apply rounds_over|]. split; [reflexivity|].
    split; [cbn; apply Q.le_max_l|].
    split; [intros _; cbn; symmetry; now apply Q.max_l | reflexivity].
  - exists s, []. rewrite app_nil_r, orb_false_r.
    apply Qltb_false in E.
    split; [reflexivity|]. split; [reflexivity|].
    split; [apply rounds_over|]. split; [reflexivity|].
    split; [cbn; apply Q.le_max_l|].
    split; [intros _; cbn; symmetry; now apply Q.max_l | reflexivity].
Qed.

Lemma planned_sleep_Qmax (elapsed : Q) :
  (Qmax 0 (planned_sleep cfg elapsed) == planned_sleep cfg elapsed)%Q.
Proof.
  unfold planned_sleep. rewrite py_max_Qmax.
  apply Q.max_r. apply Q.le_max_l.
Qed.

Lemma sleep_phase_rounds (elapsed : Q) (s : State) :
  exists s' d,
    sleep_phase w cfg elapsed s = (Ok tt, s')
    /\ history s' = history s ++ d
    /\ rounds (stop_requested s) d
    /\ stop_requested s' = stop_requested s || signalled d
    /\ (Qsum (sleeps d) <= planned_sleep cfg elapsed)%Q
    /\ (stop_requested s' = false ->
        (Qsum (sleeps d) == planned_sleep cfg elapsed)%Q).
Proof.
  unfold sleep_phase.
  pose proof (planned_sleep_Qmax elapsed) as Ht.
  set (t := planned_sleep cfg elapsed) in *.
  destruct (Qltb 0 t) eqn:E.
  - destruct (sleep_loop_rounds (sleep_rounds t) t s (le_n _))
      as (s' & d & El & Hd & Hr & Hs' & Hle & Hsum & _).
    exists s', d. repeat split; auto.
    + now rewrite <- Ht.
    + intros H. rewrite <- Ht. auto.
  - exists s, []. rewrite app_nil_r, orb_false_r.
    apply Qltb_false in E.
    repeat split; auto using rounds_over; cbn.
    + rewrite <- Ht. apply Q.le_max_l.
    + rewrite <- Ht. symmetry. now apply Q.max_l.
Qed.

End SleepPhase.



(* ===================================================================== *)
(** ** Running the database calls one by one *)
(* ===================================================================== *)

Section Exec.

Variable w : World.

Lemma db_call_eq (ev : event) (s : State) :
  db_call w ev s
  = (match fail_at w (steps s) with
     | Some e => Raise e
     | None => Ok tt
     end, after_blocking w ev None s).
Proof.
  unfold db_call, bind, gets. cbn [fst snd].
  destruct (blocking_spec w ev None s) as (sigs & E & _).
  rewrite E. destruct (fail_at w (steps s)); reflexivity.
Qed.

Lemma steps_after_blocking ev d s :
  steps (after_blocking w ev d s) = S (steps s).
Proof. destruct (blocking_spec w ev d s) as (? & ? & ? & ? & H & _). exact H. Qed.

Lemma next_conn_after_blocking ev d s :
  next_conn (after_blocking w ev d s) = next_conn s.
Proof.
  destruct (blocking_spec w ev d s) as (? & ? & ? & ? & ? & H & _). exact H.
Qed.

Lemma handlers_after_blocking ev d s :
  handlers (after_blocking w ev d s) = handlers s.
Proof. destruct (blocking_spec w ev d s) as (? & ? & H & _). exact H. Qed.

Lemma logs_after_blocking ev d s :
  logs (history (after_blocking w ev d s)) = logs (history s) ++ logs [ev].
Proof.
  destruct (blocking_spec w ev d s)
    as (sigs & _ & _ & _ & _ & _ & _ & H & Hs & _).
  rewrite H. change (ev :: sigs) with ([ev] ++ sigs). rewrite !logs_app.
  destruct (signals_inert sigs Hs) as (-> & _). now rewrite app_nil_r.
Qed.

Lemma db_calls_after_blocking ev d s :
  db_calls (history (after_blocking w ev d s))
  = db_calls (history s) ++ db_calls [ev].
Proof.
  destruct (blocking_spec w ev d s)
    as (sigs & _ & _ & _ & _ & _ & _ & H & Hs & _).
  rewrite H. change (ev :: sigs) with ([ev] ++ sigs). rewrite !db_calls_app.
  destruct (signals_inert sigs Hs) as (_ & -> & _). now rewrite app_nil_r.
Qed.

Lemma logger_log_after (lvl : level) (msg : string) (s : State) :
  logger_log w lvl msg s = (Ok tt, after_log w lvl msg s).
Proof. destruct (logger_log_spec w lvl msg s) as (sigs & E & _). exact E. Qed.

Lemma history_after_log lvl msg s :
  exists sigs,
    history (after_log w lvl msg s)
    = history s ++ log_events w s lvl msg ++ sigs
    /\ forallb is_signal sigs = true.
Proof.
  destruct (logger_log_spec w lvl msg s)
    as (sigs & _ & _ & _ & _ & _ & _ & _ & H & Hs & _).
  eauto.
Qed.

Lemma logs_after_log lvl msg s :
  logs (history (after_log w lvl msg s)) = logs (history s) ++ [(lvl, msg)].
Proof.
  destruct (history_after_log lvl msg s) as (sigs & -> & Hs).
  rewrite !logs_app.
  destruct (signals_inert sigs Hs) as (-> & _).
  destruct (emitted_inert (handlers s) (record_at w s lvl msg)) as (H & _).
  change (logs (log_events w s lvl msg))
    with ((lvl, msg) :: logs (emitted (handlers s) (record_at w s lvl msg))).
  rewrite H. now rewrite app_nil_r.
Qed.

Lemma db_calls_after_log lvl msg s :
  db_calls (history (after_log w lvl msg s)) = db_calls (history s).
Proof.
  destruct (history_after_log lvl msg s) as (sigs & -> & Hs).
  rewrite !db_calls_app.
  destruct (signals_inert sigs Hs) as (_ & -> & _).
  destruct (emitted_inert (handlers s) (record_at w s lvl msg))
    as (_ & H & _).
  change (db_calls (log_events w s lvl msg))
    with (db_calls (emitted (handlers s) (record_at w s lvl msg))).
  rewrite H. now rewrite !app_nil_r.
Qed.

Lemma sleeps_after_log lvl msg s :
  sleeps (history (after_log w lvl msg s)) = sleeps (history s).
Proof.
  destruct (history_after_log lvl msg s) as (sigs & -> & Hs).
  rewrite !sleeps_app.
  destruct (signals_inert sigs Hs) as (_ & _ & -> & _).
  destruct (emitted_inert (handlers s) (record_at w s lvl msg))
    as (_ & _ & H & _).
  change (sleeps (log_events w s lvl msg))
    with (sleeps (emitted (handlers s) (record_at w s lvl msg))).
  rewrite H. now rewrite !app_nil_r.
Qed.

Lemma steps_after_log lvl msg s : steps (after_log w lvl msg s) = steps s.
Proof.
  destruct (logger_log_spec w lvl msg s) as (? & ? & ? & ? & H & _). exact H.
Qed.

Lemma next_conn_after_log lvl msg s :
  next_conn (after_log w lvl msg s) = next_conn s.
Proof.
  destruct (logger_log_spec w lvl msg s) as (? & ? & ? & ? & ? & H & _).
  exact H.
Qed.

Lemma ticks_after_log lvl msg s :
  ticks (after_log w lvl msg s) = S (ticks s).
Proof.
  destruct (logger_log_spec w lvl msg s) as (? & ? & ? & ? & ? & ? & H & _).
  exact H.
Qed.

Lemma ticks_after_blocking ev d s :
  ticks (after_blocking w ev d s) = ticks s.
Proof.
  destruct (blocking_spec w ev d s) as (? & ? & ? & ? & ? & ? & H & _).
  exact H.
Qed.

Lemma sleeps_after_blocking ev d s :
  sleeps (history (after_blocking w ev d s))
  = sleeps (history s) ++ sleeps [ev].
Proof.
  destruct (blocking_spec w ev d s)
    as (sigs & _ & _ & _ & _ & _ & _ & H & Hs & _).
  rewrite H. change (ev :: sigs) with ([ev] ++ sigs). rewrite !sleeps_app.
  destruct (signals_inert sigs Hs) as (_ & _ & -> & _). now rewrite app_nil_r.
Qed.

(** What [report_version] logs is the line that [version_line] selects. *)
Lemma report_version_eq (row : option (list Py.value)) (s : State) :
  report_version w row s
  = (Ok tt, after_log w (fst (version_line row)) (snd (version_line row)) s).
Proof.
  unfold report_version, version_line, logger_warning, logger_info.
  destruct row as [[|v vs]|]; cbn [Py.truthy_row negb];
    try apply logger_log_after.
  change (nth 0 (default [] (Some (v :: vs))) Py.VNone) with v.
  destruct (Py.startswith (Py.str v) "PostgreSQL"); apply logger_log_after.
Qed.

(** Entering the scoped connection and a cursor block. *)
Lemma connect_with_timeout_eq {A} (cfg : Config)
    (dbname user password : option string) (host : string) (port : Z)
    (body : conn -> M A) (s : State) :
  let c := next_conn s in
  let kw := {| kw_connect_timeout := CONNECT_TIMEOUT cfg;
               kw_dbname := dbname; kw_user := user;
               kw_password := password; kw_host := host;
               kw_port := port |} in
  let s1 := after_blocking w (EvConnect c kw) None
                           (with_next_conn (S c) s) in
  connect_with_timeout w cfg dbname user password host port body s
  = match fail_at w (steps s) with
    | None =>
        try_finally (set_statement_timeout w cfg c ;; body c)
                    (release w (Some c)) s1
    | Some e => (Raise e, s1)
    end.
Proof.
  intros c kw s1.
  unfold connect_with_timeout, try_finally_with, psycopg2_connect.
  unfold bind at 1, gets. unfold bind at 1, modify. unfold bind at 1.
  rewrite db_call_eq. cbn [steps with_next_conn].
  destruct (fail_at w (steps s)); reflexivity.
Qed.

Lemma with_cursor_eq {A} (c : conn) (body : conn -> M A) (s : State) :
  with_cursor w c body s
  = match fail_at w (steps s) with
    | None =>
        try_finally (body c) (db_call w (EvCursorClose c))
                    (after_blocking w (EvCursor c) None s)
    | Some e => (Raise e, after_blocking w (EvCursor c) None s)
    end.
Proof.
  unfold with_cursor. unfold bind at 1. rewrite db_call_eq.
  destruct (fail_at w (steps s)); reflexivity.
Qed.

End Exec.

(* ===================================================================== *)
(** ** One diagnostic check, call by call *)
(* ===================================================================== *)

Ltac exec_step :=
  first
    [ rewrite db_call_eq
    | rewrite steps_after_blocking
    | rewrite steps_after_log
    | rewrite logger_log_after
    | rewrite report_version_eq
    | progress cbn [steps with_next_conn with_trace fst snd]
    | progress unfold bind at 1, gets, modify, ret, raise
    | match goal with
      | H : fail_at _ ?k = _ |- context [fail_at _ ?k] => rewrite H
      | H : Py.isinstance ?e ?c = _ |- context [Py.isinstance ?e ?c] =>
          rewrite H
      end ].

Ltac unfold_check :=
  unfold check_version, probe, version_query, connect_with_timeout,
    try_finally_with, psycopg2_connect, set_statement_timeout, with_cursor,
    cursor_execute,
    conn_commit, conn_rollback, cursor_fetchone, release, conn_close,
    except, no_clause, try_except, try_finally.

Ltac observe :=
  repeat first
    [ rewrite logs_after_blocking
    | rewrite logs_after_log
    | rewrite db_calls_after_blocking
    | rewrite db_calls_after_log
    | rewrite steps_after_blocking
    | rewrite steps_after_log
    | rewrite next_conn_after_blocking
    | rewrite next_conn_after_log ];
  cbn [steps next_conn with_next_conn with_trace logs db_calls
       omap list_omap log_of List.filter is_db app];
  change (history (with_next_conn ?c ?s)) with (history s);
  rewrite <- ?app_assoc; cbn [app]; rewrite ?app_nil_r.

Section Check.

Variable w : World.
Variable cfg : Config.

(** The check when every one of its ten database calls succeeds. *)
Lemma check_all_ok (s : State) :
  (forall i, (i < 10)%nat -> fail_at w (i + steps s) = None) ->
  exists s',
    check_version w cfg s = (Ok tt, s')
    /\ logs (history s')
       = logs (history s) ++ [version_line (row_at w (7 + steps s))]
    /\ db_calls (history s')
       = db_calls (history s)
         ++ [ EvConnect (next_conn s) (kwargs_of cfg);
              EvCursor (next_conn s);
              EvExecute (next_conn s) "SET statement_timeout = %s;"
                        [CONNECT_TIMEOUT cfg * 1000];
              EvCommit (next_conn s);
              EvCursorClose (next_conn s);
              EvCursor (next_conn s);
              EvExecute (next_conn s) "SELECT VERSION();" [];
              EvFetchone (next_conn s);
              EvCursorClose (next_conn s);
              EvClose (next_conn s) ].
Proof.
  intros H.
  pose proof (H 0%nat ltac:(lia)) as H0. pose proof (H 1%nat ltac:(lia)) as H1.
  pose proof (H 2%nat ltac:(lia)) as H2. pose proof (H 3%nat ltac:(lia)) as H3.
  pose proof (H 4%nat ltac:(lia)) as H4. pose proof (H 5%nat ltac:(lia)) as H5.
  pose proof (H 6%nat ltac:(lia)) as H6. pose proof (H 7%nat ltac:(lia)) as H7.
  pose proof (H 8%nat ltac:(lia)) as H8. pose proof (H 9%nat ltac:(lia)) as H9.
  cbn [Nat.add] in *. clear H.
  unfold_check. repeat exec_step.
  eexists. split; [reflexivity|]. split; observe.
  - destruct (version_line _); reflexivity.
  - reflexivity.
Qed.

(** The check when the server rejects [SET statement_timeout] and every
    other call succeeds. *)
Lemma check_timeout_rejected (s : State) (e : Py.exn) :
  fail_at w (2 + steps s) = Some e -> is_exception e ->
  (forall i, (i < 10)%nat -> i <> 2%nat -> fail_at w (i + steps s) = None) ->
  exists s',
    check_version w cfg s = (Ok tt, s')
    /\ logs (history s')
       = logs (history s) ++ [version_line (row_at w (7 + steps s))]
    /\ db_calls (history s')
       = db_calls (history s)
         ++ [ EvConnect (next_conn s) (kwargs_of cfg);
              EvCursor (next_conn s);
              EvExecute (next_conn s) "SET statement_timeout = %s;"
                        [CONNECT_TIMEOUT cfg * 1000];
              EvRollback (next_conn s);
              EvCursorClose (next_conn s);
              EvCursor (next_conn s);
              EvExecute (next_conn s) "SELECT VERSION();" [];
              EvFetchone (next_conn s);
              EvCursorClose (next_conn s);
              EvClose (next_conn s) ].
Proof.
  intros H2 He H. red in He.
  pose proof (H 0%nat ltac:(lia) ltac:(lia)) as H0.
  pose proof (H 1%nat ltac:(lia) ltac:(lia)) as H1.
  pose proof (H 3%nat ltac:(lia) ltac:(lia)) as H3.
  pose proof (H 4%nat ltac:(lia) ltac:(lia)) as H4.
  pose proof (H 5%nat ltac:(lia) ltac:(lia)) as H5.
  pose proof (H 6%nat ltac:(lia) ltac:(lia)) as H6.
  pose proof (H 7%nat ltac:(lia) ltac:(lia)) as H7.
  pose proof (H 8%nat ltac:(lia) ltac:(lia)) as H8.
  pose proof (H 9%nat ltac:(lia) ltac:(lia)) as H9.
  cbn [Nat.add] in *. clear H.
  unfold_check. repeat exec_step.
  eexists. split; [reflexivity|]. split; observe.
  - destruct (version_line _); reflexivity.
  - reflexivity.
Qed.

End Check.

Section ClaimsOnTheCheck.

Variable w : World.
Variable cfg : Config.

(** The block of lines 95-107, when its cursor, its query and its fetch
    succeed: it logs the line selected by the row, whatever closing the
    cursor does afterwards. *)
Lemma version_query_logs (c : conn) (s : State) :
  (forall i, (i < 3)%nat -> fail_at w (i + steps s) = None) ->
  logs (history (snd (version_query w c s)))
  = logs (history s) ++ [version_line (row_at w (2 + steps s))].
Proof.
  intros H.
  pose proof (H 0%nat ltac:(lia)) as H0. pose proof (H 1%nat ltac:(lia)) as H1.
  pose proof (H 2%nat ltac:(lia)) as H2.
  cbn [Nat.add] in *. clear H.
  unfold version_query, with_cursor, cursor_execute, cursor_fetchone,
    try_finally.
  repeat exec_step.
  destruct (fail_at w (S (S (S (steps s))))); cbn [snd]; observe;
    destruct (version_line _); reflexivity.
Qed.

(** C3. Whenever the cursor, the query and the fetch of the probe
    succeed, the probe logs exactly one record, selected by the fetched
    row: a WARNING for no row, an INFO success line with the full version
    string when it starts with PostgreSQL, an INFO atypical-response line
    otherwise; none of the three is an ERROR.  In an iteration in which
    every database call succeeds, that record is all the check logs, and
    the check returns normally. *)
Theorem one_outcome_line_per_probe (c : conn) (s : State) :
  (forall i, (i < 3)%nat -> fail_at w (i + steps s) = None) ->
  let row := row_at w (2 + steps s) in
  logs (history (snd (version_query w c s)))
  = logs (history s) ++ [version_line row]
  /\ (Py.truthy_row row = false ->
      version_line row
      = (WARNING, "Connected but VERSION() returned empty result."))
  /\ (forall v rest, row = Some (v :: rest) ->
      Py.startswith (Py.str v) "PostgreSQL" = true ->
      version_line row
      = (INFO, "Successful connection. VERSION: " +:+ Py.str v))
  /\ (forall v rest, row = Some (v :: rest) ->
      Py.startswith (Py.str v) "PostgreSQL" = false ->
      version_line row
      = (INFO, "Atypical VERSION response (no error): " +:+ Py.str v))
  /\ (forall s0,
        (forall i, (i < 10)%nat -> fail_at w (i + steps s0) = None) ->
        exists s',
          check_version w cfg s0 = (Ok tt, s')
          /\ logs (history s')
             = logs (history s0)
               ++ [version_line (row_at w (7 + steps s0))]).
Proof.
  intros H row. repeat split.
  - now apply version_query_logs.
  - destruct row as [[|v vs]|]; cbn; congruence.
  - intros v rest -> Hp. cbn. now rewrite Hp.
  - intros v rest -> Hp. cbn. now rewrite Hp.
  - intros s0 H0.
    destruct (check_all_ok w cfg s0 H0) as (s' & E & Hl & _). eauto.
Qed.

End ClaimsOnTheCheck.

Lemma one_outcome_line_per_probe_witness :
  let row := row_at calm_world (2 + steps ready_state) in
  logs (history (snd (version_query calm_world 0%nat ready_state)))
  = logs (history ready_state) ++ [version_line row]
  /\ (Py.truthy_row row = false ->
      version_line row
      = (WARNING, "Connected but VERSION() returned empty result."))
  /\ (forall v rest, row = Some (v :: rest) ->
      Py.startswith (Py.str v) "PostgreSQL" = true ->
      version_line row
      = (INFO, "Successful connection. VERSION: " +:+ Py.str v))
  /\ (forall v rest, row = Some (v :: rest) ->
      Py.startswith (Py.str v) "PostgreSQL" = false ->
      version_line row
      = (INFO, "Atypical VERSION response (no error): " +:+ Py.str v))
  /\ (forall s0,
        (forall i, (i < 10)%nat -> fail_at calm_world (i + steps s0) = None) ->
        exists s',
          check_version calm_world demo_cfg s0 = (Ok tt, s')
          /\ logs (history s')
             = logs (history s0)
               ++ [version_line (row_at calm_world (7 + steps s0))]).
Proof.
  apply (one_outcome_line_per_probe calm_world demo_cfg 0%nat ready_state).
  intros i _. reflexivity.
Defined.

Section TimeoutClaim.

Variable w : World.
Variable cfg : Config.

(** Whatever happens next, a check whose connection and first cursor are
    established has issued [SET statement_timeout] first. *)
Lemma timeout_attempted_first (s : State) :
  fail_at w (steps s) = None -> fail_at w (1 + steps s) = None ->
  exists rest,
    db_calls (history (snd (check_version w cfg s)))
    = db_calls (history s)
      ++ EvConnect (next_conn s) (kwargs_of cfg)
      :: EvCursor (next_conn s)
      :: EvExecute (next_conn s) "SET statement_timeout = %s;"
                   [CONNECT_TIMEOUT cfg * 1000]
      :: rest.
Proof.
  intros H0 H1. cbn [Nat.add] in H1.
  set (K := eq (kwargs_of cfg)).
  set (c := next_conn s).
  set (s3 := after_blocking w
               (EvExecute c "SET statement_timeout = %s;"
                          [CONNECT_TIMEOUT cfg * 1000]) None
               (after_blocking w (EvCursor c) None
                  (after_blocking w (EvConnect c (kwargs_of cfg)) None
                     (with_next_conn (S c) s)))).
  assert (Hev : evolves w K s3 (snd (check_version w cfg s))).
  { unfold check_version.
    apply since_try_except; [exact (evolves_trans w K) | |].
    2:{ unfold logger_error.
        repeat (apply clauses_always_except;
                [intros e; apply evolves_logger_log|]).
        apply clauses_always_none. }
    unfold probe. rewrite connect_with_timeout_eq, H0.
    apply since_try_finally; [exact (evolves_trans w K) | | apply e_release].
    apply since_bind; [exact (evolves_trans w K) | |];
      [|intros _; apply e_version_query].
    unfold set_statement_timeout. rewrite with_cursor_eq.
    rewrite steps_after_blocking. cbn [steps with_next_conn]. rewrite H1.
    apply since_try_finally; [exact (evolves_trans w K) | |].
    2:{ apply evolves_db_call. apply quiet_db; [reflexivity | discriminate]. }
    apply since_try_except; [exact (evolves_trans w K) | |].
    2:{ apply clauses_always_except; [|apply clauses_always_none].
        intros e. unfold conn_rollback. apply evolves_db_call.
        apply quiet_db; [reflexivity | discriminate]. }
    unfold cursor_execute.
    apply since_bind; [exact (evolves_trans w K) | |].
    2:{ intros _. unfold conn_commit. apply evolves_db_call.
        apply quiet_db; [reflexivity | discriminate]. }
    rewrite db_call_eq. cbn [snd]. apply evolves_refl. }
  destruct Hev as [_ _ _ _ _ (d & Hd & _)].
  exists (db_calls d). rewrite Hd, db_calls_app. unfold s3. observe.
  reflexivity.
Qed.

(** C7. A check whose connection and first cursor are established
    attempts, as its next database call, to set the session's statement
    timeout to the configured timeout times 1000 (milliseconds).  When the
    server rejects that statement (and the calls that follow succeed), the
    attempt is rolled back and never committed, the check goes on to run the
    probe, returns normally, and logs exactly the line that reports the
    probe's result: the rejection is not logged as an error. *)
Theorem statement_timeout_is_best_effort (s : State) :
  fail_at w (steps s) = None -> fail_at w (1 + steps s) = None ->
  let c := next_conn s in
  (exists rest,
      db_calls (history (snd (check_version w cfg s)))
      = db_calls (history s)
        ++ EvConnect c (kwargs_of cfg)
        :: EvCursor c
        :: EvExecute c "SET statement_timeout = %s;"
                     [CONNECT_TIMEOUT cfg * 1000]
        :: rest)
  /\ (forall e,
        fail_at w (2 + steps s) = Some e -> is_exception e ->
        (forall i, (3 <= i < 10)%nat -> fail_at w (i + steps s) = None) ->
        exists s',
          check_version w cfg s = (Ok tt, s')
          /\ logs (history s')
             = logs (history s) ++ [version_line (row_at w (7 + steps s))]
          /\ fst (version_line (row_at w (7 + steps s))) <> ERROR
          /\ db_calls (history s')
             = db_calls (history s)
               ++ [ EvConnect c (kwargs_of cfg);
                    EvCursor c;
                    EvExecute c "SET statement_timeout = %s;"
                              [CONNECT_TIMEOUT cfg * 1000];
                    EvRollback c;
                    EvCursorClose c;
                    EvCursor c;
                    EvExecute c "SELECT VERSION();" [];
                    EvFetchone c;
                    EvCursorClose c;
                    EvClose c ]).
Proof.
  intros H0 H1 c. split.
  - now apply timeout_attempted_first.
  - intros e H2 He H.
    destruct (check_timeout_rejected w cfg s e H2 He) as (s' & E & Hl & Hd).
    { intros i Hi Hne. destruct (Nat.lt_ge_cases i 3) as [Hlt|Hge].
      - destruct i as [|[|[|i]]]; try lia; [exact H0 | exact H1].
      - apply H. lia. }
    exists s'. repeat split; auto.
    destruct (row_at w (7 + steps s)) as [[|v vs]|]; cbn; try discriminate.
    destruct (Py.startswith _ _); discriminate.
Qed.

End TimeoutClaim.

Lemma statement_timeout_is_best_effort_witness :
  let w := failing_at 2 (Py.Exn Py.ProgrammingError
                           "unrecognized configuration parameter") in
  exists s',
    check_version w demo_cfg ready_state = (Ok tt, s')
    /\ logs (history s')
       = logs (history ready_state)
         ++ [version_line (row_at w (7 + steps ready_state))]
    /\ fst (version_line (row_at w (7 + steps ready_state))) <> ERROR
    /\ db_calls (history s')
       = db_calls (history ready_state)
         ++ [ EvConnect 0%nat (kwargs_of demo_cfg);
              EvCursor 0%nat;
              EvExecute 0%nat "SET statement_timeout = %s;" [10000];
              EvRollback 0%nat;
              EvCursorClose 0%nat;
              EvCursor 0%nat;
              EvExecute 0%nat "SELECT VERSION();" [];
              EvFetchone 0%nat;
              EvCursorClose 0%nat;
              EvClose 0%nat ].
Proof.
  intros w.
  refine (proj2 (statement_timeout_is_best_effort w demo_cfg ready_state
                   eq_refl eq_refl) _ eq_refl eq_refl _).
  intros i Hi. destruct i as [|[|[|i]]]; try lia; reflexivity.
Defined.

(** C5. Once [connect] has returned a connection, the scope closes it as
    its very last database call, after everything its body did, whether the
    body (or the statement-timeout step before it) returned or raised.  The
    scope ends the way the body ended: an [Exception] raised by [close] is
    swallowed, so it neither becomes the scope's outcome nor replaces the
    exception of the body. *)
Theorem connection_closed_on_every_exit {A} (w : World) (cfg : Config)
    (dbname user password : option string) (host : string) (port : Z)
    (body : conn -> M A) (s s2 : State) (r : result A) :
  let c := next_conn s in
  let kw := {| kw_connect_timeout := CONNECT_TIMEOUT cfg;
               kw_dbname := dbname; kw_user := user;
               kw_password := password; kw_host := host;
               kw_port := port |} in
  let s1 := after_blocking w (EvConnect c kw) None
                           (with_next_conn (S c) s) in
  fail_at w (steps s) = None ->
  (set_statement_timeout w cfg c ;; body c) s1 = (r, s2) ->
  r <> OutOfFuel ->
  (forall e, fail_at w (steps s2) = Some e -> is_exception e) ->
  exists s' sigs,
    connect_with_timeout w cfg dbname user password host port body s
    = (r, s')
    /\ history s' = history s2 ++ EvClose c :: sigs
    /\ forallb is_signal sigs = true.
Proof.
  intros c kw s1 Hconn Hbody Hr Hclose.
  rewrite connect_with_timeout_eq, Hconn. fold c kw s1.
  unfold try_finally. rewrite Hbody.
  destruct (blocking_spec w (EvClose c) None s2)
    as (sigs & _ & _ & _ & _ & _ & _ & Hh & Hs & _).
  exists (after_blocking w (EvClose c) None s2), sigs.
  split; [|split; assumption].
  unfold release, conn_close, try_except. rewrite db_call_eq.
  destruct (fail_at w (steps s2)) as [e|] eqn:E.
  - specialize (Hclose e eq_refl). red in Hclose.
    unfold except. rewrite Hclose. unfold ret.
    destruct r; try reflexivity. congruence.
  - destruct r; try reflexivity. congruence.
Qed.

Lemma connection_closed_on_every_exit_witness :
  let w := query_and_close_fail in
  let s1 := after_blocking w (EvConnect 0%nat (kwargs_of demo_cfg)) None
                           (with_next_conn 1%nat ready_state) in
  let s2 := snd ((set_statement_timeout w demo_cfg 0%nat ;;
                  version_query w 0%nat) s1) in
  exists s' sigs,
    connect_with_timeout w demo_cfg None (Some "monitor") (Some "secret")
                         "localhost" 5432 (version_query w) ready_state
    = (Raise (Py.Exn Py.ProgrammingError "permission denied for VERSION"), s')
    /\ history s' = history s2 ++ EvClose 0%nat :: sigs
    /\ forallb is_signal sigs = true.
Proof.
  intros w s1 s2.
  apply (connection_closed_on_every_exit w demo_cfg None (Some "monitor")
           (Some "secret") "localhost" 5432 (version_query w) ready_state s2).
  - reflexivity.
  - vm_compute. reflexivity.
  - discriminate.
  - intros e H. vm_compute in H. injection H as <-. reflexivity.
Defined.

(* ===================================================================== *)
(** ** The rounds of the main loop *)
(* ===================================================================== *)

Section Loop.

Variable w : World.
Variable cfg : Config.

Let K : conn_kwargs -> Prop := eq (kwargs_of cfg).

(** [while not stop_requested], one round unfolded. *)
Lemma main_while_eq (fuel : nat) (s : State) :
  main_while w cfg fuel s
  = let s1 := after_read w s in
    if stop_requested s then (Ok tt, s1)
    else match fuel with
         | O => (OutOfFuel, s1)
         | S fuel' => bind (iteration w cfg) (fun _ => main_while w cfg fuel') s1
         end.
Proof.
  destruct (read_stop_spec w s) as (sigs & E & _).
  destruct fuel; cbn [main_while]; unfold bind at 1; rewrite E;
    destruct (stop_requested s); reflexivity.
Qed.

Lemma connected_counters (s : State) :
  steps (connected w cfg s) = S (steps s)
  /\ next_conn (connected w cfg s) = S (next_conn s).
Proof.
  unfold connected.
  now rewrite steps_after_blocking, next_conn_after_blocking.
Qed.

(** Every check makes its [connect] call, whatever comes of it. *)
Lemma check_version_since_connected (s : State) :
  evolves w K (connected w cfg s) (snd (check_version w cfg s)).
Proof.
  unfold check_version.
  apply since_try_except; [exact (evolves_trans w K) | |].
  2:{ unfold logger_error.
      repeat (apply clauses_always_except;
              [intros e; apply evolves_logger_log|]).
      apply clauses_always_none. }
  unfold probe. rewrite connect_with_timeout_eq. fold (kwargs_of cfg).
  fold (connected w cfg s).
  destruct (fail_at w (steps s)); [apply evolves_refl|].
  apply always_try_finally; [exact (evolves_trans w K) | | apply e_release].
  apply e_bind; [apply e_set_statement_timeout | intros _].
  apply e_version_query.
Qed.

Lemma iteration_since_connected (s : State) :
  evolves w K (connected w cfg s) (snd (iteration w cfg s)).
Proof.
  assert (H : evolves w K (connected w cfg s)
                (snd (guarded_check w cfg s))).
  { unfold guarded_check.
    apply since_try_except; [exact (evolves_trans w K) | |].
    2:{ apply clauses_always_except; [|apply clauses_always_none].
        intros e. apply evolves_logger_log. }
    apply check_version_since_connected. }
  rewrite iteration_eq.
  destruct (guarded_check w cfg s) as [[[]| e |] s1]; cbn [snd] in *; auto.
  eapply evolves_trans; [exact H | apply e_sleep_phase].
Qed.

Lemma iteration_progress (s : State) :
  (steps s < steps (snd (iteration w cfg s)))%nat
  /\ (next_conn s < next_conn (snd (iteration w cfg s)))%nat.
Proof.
  destruct (iteration_since_connected s) as [_ _ Hs _ Hc _].
  destruct (connected_counters s) as [E1 E2]. lia.
Qed.

Section OnlyExceptions.

Hypothesis world_ok : failures_are_exceptions w.

Lemma check_version_returns (s : State) :
  exists s', check_version w cfg s = (Ok tt, s').
Proof.
  pose proof (safe_check_version w world_ok cfg s) as H.
  destruct (check_version w cfg s) as [[[]| e |] s']; cbn in H;
    try contradiction.
  eauto.
Qed.

Lemma guarded_check_returns (s : State) :
  exists s', guarded_check w cfg s = (Ok tt, s').
Proof.
  unfold guarded_check, try_except.
  destruct (check_version_returns s) as (s' & ->). eauto.
Qed.

Lemma iteration_returns (s : State) :
  exists s', iteration w cfg s = (Ok tt, s').
Proof.
  destruct (guarded_check_returns s) as (s1 & E1).
  destruct (sleep_phase_rounds w cfg
              (Py.fsub (Py.float (now s1)) (Py.float (now s))) s1)
    as (s' & _ & E & _).
  exists s'. rewrite iteration_eq, E1. exact E.
Qed.

End OnlyExceptions.

End Loop.

Section FailuresClaim.

Variable w : World.
Variable cfg : Config.

Let K : conn_kwargs -> Prop := eq (kwargs_of cfg).



End FailuresClaim.



(* ===================================================================== *)
(** ** Start-up *)
(* ===================================================================== *)

Lemma integers_parse_spec (env : gmap string string) :
  integers_parse env = true ->
  Py.int (getenv_default env "DB_PORT" "5432") = Some (DB_PORT (config_of env))
  /\ Py.int (getenv_default env "PING_INTERVAL_SECONDS" (pretty (5 * 60)))
     = Some (PING_INTERVAL (config_of env))
  /\ Py.int (getenv_default env "CONNECT_TIMEOUT_SECONDS" "10")
     = Some (CONNECT_TIMEOUT (config_of env)).
Proof.
  unfold integers_parse. intros H.
  apply andb_true_iff in H as [H H3]. apply andb_true_iff in H as [H1 H2].
  apply bool_decide_eq_true in H1 as [p Hp].
  apply bool_decide_eq_true in H2 as [i Hi].
  apply bool_decide_eq_true in H3 as [t Ht].
  unfold config_of. cbn [DB_PORT PING_INTERVAL CONNECT_TIMEOUT].
  rewrite Hp, Hi, Ht. repeat split.
Qed.

Lemma load_config_ok (env : gmap string string) (s : State) :
  integers_parse env = true ->
  load_config env s = (Ok (config_of env), s).
Proof.
  intros H. destruct (integers_parse_spec env H) as (Hp & Hi & Ht).
  unfold load_config, py_int, bind.
  rewrite Hp. unfold ret at 1. rewrite Hi. unfold ret at 1. rewrite Ht.
  unfold ret at 1. unfold config_of. rewrite Hp, Hi, Ht. reflexivity.
Qed.

(** A malformed integer option ends the start-up with a [ValueError],
    before anything else has happened. *)
Lemma load_config_fails (env : gmap string string) (s : State) :
  integers_parse env = false ->
  exists msg, load_config env s = (Raise (Py.Exn Py.ValueError msg), s).
Proof.
  unfold integers_parse, load_config, py_int, bind. intros H.
  destruct (Py.int (getenv_default env "DB_PORT" "5432")) as [p|];
    [|eexists; reflexivity].
  unfold ret at 1.
  destruct (Py.int (getenv_default env "PING_INTERVAL_SECONDS" _)) as [i|];
    [|eexists; reflexivity].
  unfold ret at 1.
  destruct (Py.int (getenv_default env "CONNECT_TIMEOUT_SECONDS" "10"))
    as [t|]; [|eexists; reflexivity].
  exfalso. cbn in H. discriminate.
Qed.

(** Logger setup: what it does when the log file can be set up, and when
    it cannot. *)
Lemma setup_logging_eq (w : World) (cfg : Config) (s : State) :
  setup_logging w cfg s
  = match log_file_error w cfg with
    | None =>
        (Ok tt,
         with_trace
           (rev (EvAddHandler stdout_h :: EvAddHandler stderr_h
                 :: (if Py.truthy_str (LOG_FILE cfg)
                     then [EvMakedirs (log_dir cfg);
                           EvAddHandler (file_h (LOG_FILE cfg))]
                     else []))
            ++ trace s)
           (with_handlers (handlers s ++ handlers_for cfg) s))
    | Some e =>
        (Raise e,
         with_trace
           (EvMakedirs (log_dir cfg) :: EvAddHandler stderr_h
            :: EvAddHandler stdout_h :: trace s)
           (with_handlers (handlers s ++ [stdout_h; stderr_h]) s))
    end.
Proof.
  unfold setup_logging, log_file_error, handlers_for, addHandler,
    os_makedirs, FileHandler, bind, emit, modify, ret, raise.
  fold (log_dir cfg).
  cbn [fst snd handlers with_handlers with_trace trace].
  destruct (Py.truthy_str (LOG_FILE cfg)); cbn;
    [|rewrite <- ?app_assoc; reflexivity].
  destruct (makedirs_raises w (log_dir cfg)); cbn;
    [rewrite <- ?app_assoc; reflexivity|].
  destruct (open_raises w (LOG_FILE cfg)); cbn;
    rewrite <- ?app_assoc; reflexivity.
Qed.

(** The module's start-up, for an environment whose integers parse. *)
Lemma module_init_eq (w : World) (env : gmap string string) (t0 : Q) :
  integers_parse env = true ->
  module_init w env (initial_state t0)
  = if credentials_set env
    then match log_file_error w (config_of env) with
         | None => (Ok (config_of env), started (config_of env) t0)
         | Some e => (Raise e, setup_failed (config_of env) t0)
         end
    else (Raise (Py.SysExit 2),
          with_trace [EvPrint Stderr credentials_message] (initial_state t0)).
Proof.
  intros H. unfold module_init. unfold bind at 1.
  rewrite (load_config_ok env _ H).
  unfold credential_check, credentials_set.
  change (DB_USER (config_of env)) with (getenv env "DB_USER").
  change (DB_PASS (config_of env)) with (getenv env "DB_PASS").
  destruct (Py.truthy_opt_str (getenv env "DB_USER"));
    destruct (Py.truthy_opt_str (getenv env "DB_PASS")); cbn [negb orb andb];
    try reflexivity.
  unfold bind at 1. unfold ret at 1.
  unfold bind at 1. rewrite setup_logging_eq.
  destruct (log_file_error w (config_of env)) as [e|] eqn:E;
    [reflexivity|].
  unfold signal_signal, bind, modify, emit, ret.
  cbn [fst snd handlers installed trace with_handlers with_trace with_stop
       with_installed initial_state stop_requested now steps next_conn].
  unfold started, setup_events. f_equal. f_equal.
  cbn [app]. rewrite app_nil_r.
  destruct (Py.truthy_str (LOG_FILE (config_of env))); reflexivity.
Qed.

Lemma credentials_set_false (env : gmap string string) :
  credentials_set env = false <->
  (getenv env "DB_USER" = None \/ getenv env "DB_USER" = Some ""
   \/ getenv env "DB_PASS" = None \/ getenv env "DB_PASS" = Some "").
Proof.
  unfold credentials_set.
  destruct (getenv env "DB_USER") as [[|a u]|];
    destruct (getenv env "DB_PASS") as [[|b p]|]; cbn; split; intros H;
    auto; try discriminate;
    destruct H as [H|[H|[H|H]]]; discriminate.
Qed.

(** The main loop, once entered, logs its first record. *)
Lemma main_loop_starts (w : World) (cfg : Config) (fuel : nat) (s : State) :
  exists d,
    history (snd (entry w (main_loop w cfg fuel) s))
    = history s ++ EvLog INFO (started_message cfg) :: d.
Proof.
  set (K := eq (kwargs_of cfg)).
  assert (H : evolves w K (after_log w INFO (started_message cfg) s)
                (snd (entry w (main_loop w cfg fuel) s))).
  { unfold entry.
    apply since_try_except; [exact (evolves_trans w K) | |].
    2:{ apply clauses_always_except;
          [intros e; apply evolves_logger_log|].
        apply clauses_always_except; [|apply clauses_always_none].
        intros e. apply e_bind; [apply evolves_logger_log|].
        intros _. apply e_raise. }
    unfold main_loop.
    apply since_bind; [exact (evolves_trans w K) | |].
    2:{ intros _. apply e_bind; [apply e_main_while|].
        intros _. apply evolves_logger_log. }
    unfold logger_info. rewrite logger_log_after. apply evolves_refl. }
  destruct H as [_ _ _ _ _ (d & Hd & _)].
  destruct (history_after_log w INFO (started_message cfg) s)
    as (sigs & Hl & _).
  rewrite Hd, Hl. unfold log_events.
  eexists. rewrite <- !app_assoc. cbn [app]. reflexivity.
Qed.

(** What [int()] says about plain literals is what the model says. *)
Lemma plain_integers_spec (env : gmap string string) :
  plain_integers env = true ->
  Py.plain_literal (getenv_default env "DB_PORT" "5432") = true
  /\ Py.plain_literal (getenv_default env "PING_INTERVAL_SECONDS"
                                       (pretty (5 * 60))) = true
  /\ Py.plain_literal (getenv_default env "CONNECT_TIMEOUT_SECONDS" "10")
     = true.
Proof.
  unfold plain_integers. intros H.
  apply andb_true_iff in H as [H H3]. apply andb_true_iff in H as [H1 H2].
  auto.
Qed.

(** C1 (amended).  Provided the three integer options of the environment
    are plain ASCII literals that parse: if DB_USER or DB_PASS is unset or
    empty, the process prints the diagnostic to standard error and exits
    with status 2, and that print is all it ever did (no handler added to
    the logger, no signal handler installed, no connection attempted); if
    both are set and not empty, the check passes, and when the log file, if
    one is asked for, can be set up, logging and the signal handlers are
    set up and the main loop is entered and logs that the pinger started.
    When the log file cannot be set up, the process ends with the exception
    of that failure, before any signal handler is installed. *)
Theorem credentials_checked_at_startup
    (w : World) (env : gmap string string) (t0 : Q) (fuel : nat) :
  plain_integers env = true -> integers_parse env = true ->
  (credentials_set env = false <->
   (getenv env "DB_USER" = None \/ getenv env "DB_USER" = Some ""
    \/ getenv env "DB_PASS" = None \/ getenv env "DB_PASS" = Some ""))
  /\ (credentials_set env = false ->
      exists s,
        run w env t0 fuel = (Raise (Py.SysExit 2), s)
        /\ exit_status (fst (run w env t0 fuel)) = Exited 2
        /\ history s = [EvPrint Stderr credentials_message]
        /\ handlers s = [] /\ installed s = [] /\ next_conn s = 0%nat)
  /\ (credentials_set env = true ->
      log_file_error w (config_of env) = None ->
      module_init w env (initial_state t0)
      = (Ok (config_of env), started (config_of env) t0)
      /\ run w env t0 fuel
         = (interrupts w ;; entry w (main_loop w (config_of env) fuel))
             (started (config_of env) t0)
      /\ exists sigs d,
           history (snd (run w env t0 fuel))
           = setup_events (config_of env)
             ++ sigs ++ EvLog INFO (started_message (config_of env)) :: d
           /\ forallb is_signal sigs = true)
  /\ (credentials_set env = true ->
      forall e, log_file_error w (config_of env) = Some e ->
      run w env t0 fuel = (Raise e, setup_failed (config_of env) t0)
      /\ installed (setup_failed (config_of env) t0) = []
      /\ logs (history (setup_failed (config_of env) t0)) = []).
Proof.
  intros _ Hint. split; [apply credentials_set_false|].
  pose proof (module_init_eq w env t0 Hint) as Hinit.
  split; [|split]; intros Hc; rewrite Hc in Hinit.
  - eexists. unfold run, script, bind. rewrite Hinit.
    repeat split; reflexivity.
  - intros Hlog. rewrite Hlog in Hinit.
    assert (Hrun : run w env t0 fuel
                   = (interrupts w ;; entry w (main_loop w (config_of env) fuel))
                       (started (config_of env) t0)).
    { unfold run, script. unfold bind at 1. now rewrite Hinit. }
    split; [exact Hinit|]. split; [exact Hrun|].
    rewrite Hrun. unfold bind.
    destruct (interrupts_spec w (started (config_of env) t0))
      as (sigs & E & _ & _ & _ & _ & _ & _ & Hh & Hsigs & _).
    rewrite E.
    destruct (main_loop_starts w (config_of env) fuel
                (after_interrupts w (started (config_of env) t0)))
      as (d & Hd).
    exists sigs, d. split; [|exact Hsigs].
    rewrite Hd, Hh. unfold history at 1, started. cbn [trace].
    now rewrite rev_involutive, <- app_assoc.
  - intros e Hlog. rewrite Hlog in Hinit.
    split; [|split; reflexivity].
    unfold run, script. unfold bind at 1. now rewrite Hinit.
Qed.

Lemma credentials_checked_at_startup_witness :
  (exists s,
      run calm_world env_without_password 0 3
      = (Raise (Py.SysExit 2), s)
      /\ exit_status (fst (run calm_world env_without_password 0 3))
         = Exited 2
      /\ history s = [EvPrint Stderr credentials_message]
      /\ handlers s = [] /\ installed s = [] /\ next_conn s = 0%nat)
  /\ (module_init calm_world demo_env (initial_state 0)
      = (Ok (config_of demo_env), started (config_of demo_env) 0)
      /\ run calm_world demo_env 0 3
         = (interrupts calm_world ;;
            entry calm_world (main_loop calm_world (config_of demo_env) 3))
             (started (config_of demo_env) 0)
      /\ exists sigs d,
           history (snd (run calm_world demo_env 0 3))
           = setup_events (config_of demo_env)
             ++ sigs ++ EvLog INFO (started_message (config_of demo_env)) :: d
           /\ forallb is_signal sigs = true)
  /\ (run read_only_world env_with_log_file 0 3
      = (Raise (Py.Exn Py.OSError "[Errno 30] Read-only file system"),
         setup_failed (config_of env_with_log_file) 0)
      /\ installed (setup_failed (config_of env_with_log_file) 0) = []
      /\ logs (history (setup_failed (config_of env_with_log_file) 0)) = []).
Proof.
  split; [|split].
  - apply (credentials_checked_at_startup calm_world env_without_password 0 3);
      vm_compute; reflexivity.
  - apply (credentials_checked_at_startup calm_world demo_env 0 3);
      vm_compute; reflexivity.
  - apply (credentials_checked_at_startup read_only_world env_with_log_file
             0 3); vm_compute; reflexivity.
Defined.

(** C1 as stated fails: with DB_USER unset and a DB_PORT that is not a
    number, [int()] raises before the credential check is reached; the
    process ends with a traceback and status 1, and the script's own
    diagnostic is never printed. *)
Lemma malformed_port_preempts_credential_check :
  getenv env_with_bad_port "DB_USER" = None
  /\ run calm_world env_with_bad_port 0 3
     = (Raise (Py.Exn Py.ValueError
                 "invalid literal for int() with base 10: 'abc'"),
        initial_state 0)
  /\ exit_status (fst (run calm_world env_with_bad_port 0 3)) = Exited 1
  /\ exit_status (fst (run calm_world env_with_bad_port 0 3)) <> Exited 2
  /\ history (snd (run calm_world env_with_bad_port 0 3)) = [].
Proof. vm_compute. repeat split; try reflexivity. discriminate. Qed.

(** X14. Logger setup (lines 24-46) adds three sinks: standard output for
    records of severity INFO and above, standard error for WARNING and
    above, and, exactly when LOG_FILE is not empty, a file opened for
    appending for DEBUG and above, after the directory of that file has
    been made.  When the directory cannot be made or the file cannot be
    opened, setup ends with that exception, the two stream sinks being in
    place.  Every record is offered to each sink and written by those whose
    level it reaches.  Each line holds the timestamp and the message; in
    between, the file sink shows the severity of the record, while standard
    output always shows the fixed label INFO and standard error the fixed
    label ERROR, whatever the severity of the record. *)
Theorem logging_sinks (w : World) (cfg : Config) :
  (forall s, log_file_error w cfg = None ->
     exists s',
      setup_logging w cfg s = (Ok tt, s')
      /\ handlers s' = handlers s ++ handlers_for cfg
      /\ history s'
         = history s
           ++ EvAddHandler stdout_h :: EvAddHandler stderr_h
           :: (if Py.truthy_str (LOG_FILE cfg)
               then [EvMakedirs (log_dir cfg);
                     EvAddHandler (file_h (LOG_FILE cfg))]
               else []))
  /\ (forall s e, log_file_error w cfg = Some e ->
     exists s',
      setup_logging w cfg s = (Raise e, s')
      /\ handlers s' = handlers s ++ [stdout_h; stderr_h]
      /\ history s'
         = history s
           ++ [EvAddHandler stdout_h; EvAddHandler stderr_h;
               EvMakedirs (log_dir cfg)])
  /\ handlers_for cfg
     = [ {| h_sink := Stdout; h_level := INFO; h_fmt := h_fmt stdout_h |};
         {| h_sink := Stderr; h_level := WARNING; h_fmt := h_fmt stderr_h |} ]
       ++ (if Py.truthy_str (LOG_FILE cfg)
           then [ {| h_sink := FileAppend (LOG_FILE cfg); h_level := DEBUG;
                     h_fmt := h_fmt (file_h (LOG_FILE cfg)) |} ]
           else [])
  /\ (forall r, format (h_fmt stdout_h) r
                = rec_asctime r +:+ " [INFO] " +:+ rec_message r)
  /\ (forall r, format (h_fmt stderr_h) r
                = rec_asctime r +:+ " [ERROR] " +:+ rec_message r)
  /\ (forall p r, format (h_fmt (file_h p)) r = line_with_own_label r)
  /\ (forall lvl msg s,
        let s0 := with_handlers (handlers_for cfg) s in
        let r := record_at w s0 lvl msg in
        exists sigs,
          history (snd (logger_log w lvl msg s0))
          = history s0
            ++ (EvLog lvl msg
                :: (if levelno INFO <=? levelno lvl
                    then [EvWrite Stdout (format (h_fmt stdout_h) r)] else [])
                ++ (if levelno WARNING <=? levelno lvl
                    then [EvWrite Stderr (format (h_fmt stderr_h) r)] else [])
                ++ (if Py.truthy_str (LOG_FILE cfg)
                    then [EvWrite (FileAppend (LOG_FILE cfg))
                                  (line_with_own_label r)]
                    else []))
            ++ sigs
          /\ forallb is_signal sigs = true).
Proof.
  repeat split.
  - intros s Hlog. rewrite setup_logging_eq, Hlog.
    eexists. split; [reflexivity|].
    split; [reflexivity|].
    unfold history. cbn [trace with_trace with_handlers].
    now rewrite rev_app_distr, rev_involutive.
  - intros s e Hlog. rewrite setup_logging_eq, Hlog.
    eexists. split; [reflexivity|].
    split; [reflexivity|].
    unfold history. cbn [trace with_trace with_handlers rev].
    rewrite <- !app_assoc. reflexivity.
  - intros r. cbn. now rewrite append_empty_r.
  - intros r. cbn. now rewrite append_empty_r.
  - intros p r. unfold line_with_own_label. cbn.
    now rewrite append_empty_r.
  - intros lvl msg s s0 r. rewrite logger_log_after. cbn [snd].
    destruct (history_after_log w lvl msg s0) as (sigs & -> & Hs).
    exists sigs. split; [|exact Hs].
    f_equal. f_equal. unfold log_events. f_equal.
    fold r. change (handlers s0) with (handlers_for cfg).
    unfold handlers_for, emitted.
    destruct (Py.truthy_str (LOG_FILE cfg)); destruct lvl; cbn;
      unfold line_with_own_label; cbn; rewrite ?append_empty_r;
      reflexivity.
Qed.

Lemma logging_sinks_witness :
  (exists s',
      setup_logging calm_world (config_of env_with_log_file) (initial_state 0)
      = (Ok tt, s')
      /\ handlers s'
         = [stdout_h; stderr_h; file_h "/var/log/pinger/pinger.log"]
      /\ history s'
         = [EvAddHandler stdout_h; EvAddHandler stderr_h;
            EvMakedirs "/var/log/pinger";
            EvAddHandler (file_h "/var/log/pinger/pinger.log")])
  /\ (exists s',
        setup_logging read_only_world (config_of env_with_log_file)
                      (initial_state 0)
        = (Raise (Py.Exn Py.OSError "[Errno 30] Read-only file system"), s')
        /\ handlers s' = [stdout_h; stderr_h]
        /\ history s'
           = [EvAddHandler stdout_h; EvAddHandler stderr_h;
              EvMakedirs "/var/log/pinger"]).
Proof.
  split.
  - apply (logging_sinks calm_world (config_of env_with_log_file)).
    vm_compute. reflexivity.
  - apply (logging_sinks read_only_world (config_of env_with_log_file)).
    vm_compute. reflexivity.
Defined.

(** C9.  The two stream sinks do not show the severity of a record, as
    the file sink does: the WARNING record of an empty result reaches
    standard output labelled INFO and standard error labelled ERROR, and
    the ERROR record of a refused connection reaches standard output
    labelled INFO, where the file sink would show WARNING and ERROR. *)
Lemma stream_sinks_do_not_show_the_severity :
  let s := snd (check_version empty_result_world demo_cfg ready_state) in
  let s' := snd (check_version down_world demo_cfg ready_state) in
  let ts := "2026-01-01 00:00:00,000" in
  let msg := "Connected but VERSION() returned empty result." in
  let msg' := "Connection failed: connection refused" in
  let r := {| rec_asctime := ts; rec_level := WARNING; rec_message := msg |} in
  let r' := {| rec_asctime := ts; rec_level := ERROR; rec_message := msg' |} in
  logs (history s) = [(WARNING, msg)]
  /\ In (EvWrite Stdout (ts +:+ " [INFO] " +:+ msg)) (history s)
  /\ In (EvWrite Stderr (ts +:+ " [ERROR] " +:+ msg)) (history s)
  /\ logs (history s') = [(ERROR, msg')]
  /\ In (EvWrite Stdout (ts +:+ " [INFO] " +:+ msg')) (history s')
  /\ format (h_fmt stdout_h) r <> line_with_own_label r
  /\ format (h_fmt stderr_h) r <> line_with_own_label r
  /\ format (h_fmt stdout_h) r' <> line_with_own_label r'
  /\ format (h_fmt (file_h "pinger.log")) r = line_with_own_label r
  /\ format (h_fmt (file_h "pinger.log")) r'
     = ts +:+ " [ERROR] " +:+ msg'
  /\ String.index 0 (levelname WARNING) (format (h_fmt stdout_h) r) = None
  /\ String.index 0 (levelname WARNING) (format (h_fmt stderr_h) r) = None
  /\ String.index 0 (levelname ERROR) (format (h_fmt stdout_h) r') = None.
Proof.
  vm_compute. repeat split; try discriminate; auto 20.
Qed.

(* ===================================================================== *)
(** ** Whole runs *)
(* ===================================================================== *)

Lemma setup_events_inert (cfg : Config) :
  signalled (setup_events cfg) = false
  /\ (forall flag, reads_agree flag (setup_events cfg) = true)
  /\ (forall K, connects_with K (setup_events cfg))
  /\ logs (setup_events cfg) = [].
Proof.
  unfold setup_events.
  destruct (Py.truthy_str (LOG_FILE cfg)); cbn; repeat split; auto;
    intros K c kw Hin; cbn in Hin;
    repeat (destruct Hin as [Hin|Hin]; [discriminate|]); destruct Hin.
Qed.

Lemma started_facts (cfg : Config) (t0 : Q) :
  history (started cfg t0) = setup_events cfg
  /\ stop_requested (started cfg t0) = false
  /\ both_installed (started cfg t0) = true
  /\ steps (started cfg t0) = 0%nat
  /\ next_conn (started cfg t0) = 0%nat
  /\ ticks (started cfg t0) = 0%nat.
Proof.
  unfold history, started. cbn [trace]. rewrite rev_involutive.
  repeat split.
Qed.

(** The four ways in which a run can begin. *)
Lemma run_cases (w : World) (env : gmap string string) (t0 : Q) (fuel : nat) :
  (integers_parse env = false
   /\ exists msg, run w env t0 fuel
                  = (Raise (Py.Exn Py.ValueError msg), initial_state t0))
  \/ (integers_parse env = true /\ credentials_set env = false
      /\ run w env t0 fuel
         = (Raise (Py.SysExit 2),
            with_trace [EvPrint Stderr credentials_message]
                       (initial_state t0)))
  \/ (integers_parse env = true /\ credentials_set env = true
      /\ exists e,
           log_file_error w (config_of env) = Some e
           /\ run w env t0 fuel = (Raise e, setup_failed (config_of env) t0))
  \/ (integers_parse env = true /\ credentials_set env = true
      /\ log_file_error w (config_of env) = None
      /\ run w env t0 fuel
         = (interrupts w ;; entry w (main_loop w (config_of env) fuel))
             (started (config_of env) t0)).
Proof.
  destruct (integers_parse env) eqn:Hi.
  - pose proof (module_init_eq w env t0 Hi) as Hinit.
    destruct (credentials_set env) eqn:Hc.
    + destruct (log_file_error w (config_of env)) as [e|] eqn:Hl.
      * right; right; left. repeat split. exists e. split; [reflexivity|].
        unfold run, script. unfold bind at 1. now rewrite Hinit.
      * right; right; right. repeat split.
        unfold run, script. unfold bind at 1. now rewrite Hinit.
    + right; left. repeat split. unfold run, script, bind. now rewrite Hinit.
  - left. split; [reflexivity|].
    destruct (load_config_fails env (initial_state t0) Hi) as (msg & E).
    exists msg. unfold run, script, module_init.
    unfold bind at 1. unfold bind at 1. now rewrite E.
Qed.

Lemma entered_loop_evolves (w : World) (cfg : Config) (fuel : nat) (s : State) :
  evolves w (eq (kwargs_of cfg)) s (snd (entry w (main_loop w cfg fuel) s)).
Proof. apply e_entry, e_main_loop. Qed.

Lemma main_evolves (w : World) (cfg : Config) (fuel : nat) (s : State) :
  evolves w (eq (kwargs_of cfg)) s
          (snd ((interrupts w ;; entry w (main_loop w cfg fuel)) s)).
Proof.
  apply e_bind; [apply evolves_interrupts|].
  intros _. apply e_entry, e_main_loop.
Qed.

(** C8. The stop flag is false when the process starts.  The signal
    handler sets it, and nothing else changes it: at the end of every run,
    and at every read of the flag at the top of the loop and in the sleep
    phase, the flag is true exactly when the handler has run before; so a
    flag that is true stays true, and it is true at the end exactly when a
    signal arrived during one of the blocking calls made or at one of the
    points passed between two calls. *)
Theorem stop_flag_follows_the_signals
    (w : World) (env : gmap string string) (t0 : Q) (fuel : nat) :
  stop_requested (initial_state t0) = false
  /\ (forall sg s, stop_requested (snd (_signal_handler w sg s)) = true)
  /\ (let s := snd (run w env t0 fuel) in
      reads_agree false (history s) = true
      /\ stop_requested s = signalled (history s)
      /\ (stop_requested s = true <->
          (exists j, (j < steps s)%nat /\ sig_at w j <> [])
          \/ (exists j, (j < ticks s)%nat /\ sig_between w j <> [])))
  /\ (forall cfg s0,
        let s := snd (entry w (main_loop w cfg fuel) s0) in
        (stop_requested s0 = true -> stop_requested s = true)
        /\ exists d,
             history s = history s0 ++ d
             /\ stop_requested s = stop_requested s0 || signalled d
             /\ reads_agree (stop_requested s0) d = true).
Proof.
  split; [reflexivity|]. split.
  { intros sg s. unfold _signal_handler, bind, modify.
    rewrite log_record_eq. reflexivity. }
  split.
  - cbv zeta.
    destruct (run_cases w env t0 fuel)
      as [(_ & msg & ->) | [(_ & _ & ->) | [(_ & _ & e & _ & ->)
                                           | (_ & _ & _ & ->)]]].
    1-3: cbn; repeat split; try discriminate;
         intros [(j & Hj & _) | (j & Hj & _)]; lia.
    set (cfg := config_of env).
    destruct (main_evolves w cfg fuel (started cfg t0))
      as [_ _ _ _ _ (d & Hd & Hf & Hr & _ & Hsig & Hdel)].
    destruct (started_facts cfg t0)
      as (Hh & Hstop & Hinst & Hsteps & _ & Hticks).
    destruct (setup_events_inert cfg) as (S1 & S2 & _).
    rewrite Hstop in Hf, Hr. cbn [orb] in Hf.
    unfold arrived in Hsig, Hdel. rewrite Hsteps, Hticks in Hsig, Hdel.
    rewrite Hd, Hh. repeat split.
    + now rewrite reads_agree_app, S2, S1.
    + now rewrite signalled_app, S1.
    + rewrite Hf. intros H.
      destruct (Hsig H) as [(j & Hj & Hne) | (j & Hj & Hne)];
        [left | right]; exists j; (split; [lia | exact Hne]).
    + rewrite Hf. intros H. apply (Hdel Hinst).
      destruct H as [(j & Hj & Hne) | (j & Hj & Hne)];
        [left | right]; exists j; (split; [lia | exact Hne]).
  - intros cfg s0 s.
    destruct (entered_loop_evolves w cfg fuel s0)
      as [_ _ _ _ _ (d & Hd & Hf & Hr & _)].
    fold s in Hd, Hf. split.
    + intros H. rewrite Hf, H. reflexivity.
    + exists d. auto.
Qed.

Lemma load_config_log_file (env : gmap string string) :
  load_config (<["LOG_FILE" := ""]> env) = load_config (delete "LOG_FILE" env).
Proof.
  unfold load_config, getenv_default, getenv.
  rewrite lookup_insert_eq, lookup_delete_eq.
  rewrite !lookup_insert_ne, !lookup_delete_ne by discriminate.
  reflexivity.
Qed.

(** A point at which no signal arrives leaves the flag as it is. *)
Lemma after_interrupts_quiet (w : World) (s : State) :
  sig_between w (ticks s) = [] ->
  stop_requested (after_interrupts w s) = stop_requested s.
Proof.
  intros Hq.
  destruct (interrupts_spec w s)
    as (sigs & _ & _ & _ & _ & _ & _ & _ & _ & _ & Hstop & Hne & _).
  destruct sigs as [|e sigs]; [now rewrite Hstop, orb_false_r|].
  exfalso. apply Hne; [discriminate | exact Hq].
Qed.

Lemma after_log_quiet (w : World) (lvl : level) (msg : string) (s : State) :
  sig_between w (ticks s) = [] ->
  stop_requested (after_log w lvl msg s) = stop_requested s.
Proof.
  intros Hq.
  destruct (logger_log_spec w lvl msg s)
    as (sigs & _ & _ & _ & _ & _ & _ & _ & _ & _ & Hstop & Hne & _).
  destruct sigs as [|e sigs]; [now rewrite Hstop, orb_false_r|].
  exfalso. apply Hne; [discriminate | exact Hq].
Qed.

(** The first round of the loop makes a connection attempt, unless a
    signal has set the flag before the loop first reads it. *)
Lemma first_round_connects (w : World) (cfg : Config) (fuel : nat) (s : State) :
  stop_requested s = false -> sig_between w (ticks s) = [] ->
  In (EvConnect (next_conn s) (kwargs_of cfg))
     (history (snd (entry w (main_loop w cfg (S fuel)) s))).
Proof.
  intros Hstop Hq.
  set (K := eq (kwargs_of cfg)).
  set (s1 := after_log w INFO (started_message cfg) s).
  set (s2 := after_read w s1).
  assert (Hstop1 : stop_requested s1 = false)
    by (unfold s1; now rewrite after_log_quiet).
  assert (Hc2 : next_conn s2 = next_conn s).
  { unfold s2.
    destruct (read_stop_spec w s1) as (? & _ & _ & _ & _ & -> & _).
    apply next_conn_after_log. }
  assert (H : evolves w K (connected w cfg s2)
                (snd (entry w (main_loop w cfg (S fuel)) s))).
  { unfold entry.
    apply since_try_except; [exact (evolves_trans w K) | |].
    2:{ apply clauses_always_except;
          [intros e; apply evolves_logger_log|].
        apply clauses_always_except; [|apply clauses_always_none].
        intros e. apply e_bind; [apply evolves_logger_log|].
        intros _. apply e_raise. }
    unfold main_loop. unfold bind at 1. unfold logger_info at 1.
    rewrite logger_log_after. fold (started_message cfg). fold s1.
    apply since_bind; [exact (evolves_trans w K) | |].
    2:{ intros _. apply evolves_logger_log. }
    rewrite main_while_eq, Hstop1.
    cbv zeta. fold s2.
    apply since_bind; [exact (evolves_trans w K) | |].
    2:{ intros _. apply e_main_while. }
    apply iteration_since_connected. }
  destruct H as [_ _ _ _ _ (d & Hd & _)]. rewrite Hd.
  apply in_or_app. left.
  unfold connected.
  destruct (blocking_spec w (EvConnect (next_conn s2) (kwargs_of cfg)) None
              (with_next_conn (S (next_conn s2)) s2))
    as (sigs & _ & _ & _ & _ & _ & _ & Hh & _).
  rewrite Hh, Hc2. apply in_or_app. right. left. reflexivity.
Qed.

(** C10. The start-up check looks at DB_USER and DB_PASS only.  With
    both set, the integer options plain literals that parse, DB_NAME unset
    and the log file, if one is asked for, ready to be set up, the process
    does not exit at start-up: it enters the main loop with no database
    name, every connection attempt of the run passes [None] as the database
    name, and the first round already makes one, unless a signal has
    stopped the monitor before the loop first reads the flag.  An empty
    LOG_FILE makes the run the same as an absent one, and no file sink is
    created. *)
Theorem only_credentials_are_validated
    (w : World) (env : gmap string string) (t0 : Q) (fuel : nat) :
  plain_integers env = true -> integers_parse env = true ->
  credentials_set env = true -> getenv env "DB_NAME" = None ->
  log_file_error w (config_of env) = None ->
  (module_init w env (initial_state t0)
   = (Ok (config_of env), started (config_of env) t0)
   /\ DB_NAME (config_of env) = None
   /\ run w env t0 fuel
      = (interrupts w ;; entry w (main_loop w (config_of env) fuel))
          (started (config_of env) t0))
  /\ (forall c kw,
        In (EvConnect c kw) (history (snd (run w env t0 fuel))) ->
        kw_dbname kw = None)
  /\ (sig_between w 0 = [] -> sig_between w 1 = [] ->
      exists kw,
        In (EvConnect 0%nat kw) (history (snd (run w env t0 (S fuel))))
        /\ kw_dbname kw = None)
  /\ (run w (<["LOG_FILE" := ""]> env) t0 fuel
      = run w (delete "LOG_FILE" env) t0 fuel
      /\ handlers_for (config_of (<["LOG_FILE" := ""]> env))
         = [stdout_h; stderr_h]
      /\ handlers_for (config_of (delete "LOG_FILE" env))
         = [stdout_h; stderr_h]).
Proof.
  intros _ Hi Hc Hn Hlog.
  pose proof (module_init_eq w env t0 Hi) as Hinit.
  rewrite Hc, Hlog in Hinit.
  assert (Hrun : forall n, run w env t0 n
                 = (interrupts w ;; entry w (main_loop w (config_of env) n))
                     (started (config_of env) t0)).
  { intros n. unfold run, script. unfold bind at 1. now rewrite Hinit. }
  set (cfg := config_of env) in *.
  destruct (started_facts cfg t0) as (Hh & Hstop & _ & _ & Hconn & Hticks).
  repeat split; auto.
  - intros c kw Hin. rewrite Hrun in Hin.
    destruct (main_evolves w cfg fuel (started cfg t0))
      as [_ _ _ _ _ (d & Hd & _ & _ & Hk & _)].
    rewrite Hd, Hh in Hin. apply in_app_or in Hin as [Hin|Hin].
    + destruct (setup_events_inert cfg) as (_ & _ & S3 & _).
      exfalso. exact (S3 (fun _ => False) c kw Hin).
    + rewrite <- (Hk c kw Hin). exact Hn.
  - intros Hq0 Hq1. exists (kwargs_of cfg). split; [|exact Hn].
    rewrite Hrun. unfold bind.
    destruct (interrupts_spec w (started cfg t0))
      as (sigs & E & _ & _ & _ & Hc0 & Ht0 & _).
    rewrite E. rewrite <- Hconn, <- Hc0.
    apply first_round_connects.
    + rewrite after_interrupts_quiet; [exact Hstop|]. now rewrite Hticks.
    + now rewrite Ht0, Hticks.
  - unfold run, script, module_init. now rewrite load_config_log_file.
  - unfold handlers_for, config_of, getenv_default. cbn [LOG_FILE].
    now rewrite lookup_insert_eq.
  - unfold handlers_for, config_of, getenv_default. cbn [LOG_FILE].
    now rewrite lookup_delete_eq.
Qed.

Lemma only_credentials_are_validated_witness :
  (module_init down_world demo_env (initial_state 0)
   = (Ok (config_of demo_env), started (config_of demo_env) 0)
   /\ DB_NAME (config_of demo_env) = None
   /\ run down_world demo_env 0 2
      = (interrupts down_world ;;
         entry down_world (main_loop down_world (config_of demo_env) 2))
          (started (config_of demo_env) 0))
  /\ (forall c kw,
        In (EvConnect c kw) (history (snd (run down_world demo_env 0 2))) ->
        kw_dbname kw = None)
  /\ (sig_between down_world 0 = [] -> sig_between down_world 1 = [] ->
      exists kw,
        In (EvConnect 0%nat kw) (history (snd (run down_world demo_env 0 3)))
        /\ kw_dbname kw = None)
  /\ (run down_world (<["LOG_FILE" := ""]> demo_env) 0 2
      = run down_world (delete "LOG_FILE" demo_env) 0 2
      /\ handlers_for (config_of (<["LOG_FILE" := ""]> demo_env))
         = [stdout_h; stderr_h]
      /\ handlers_for (config_of (delete "LOG_FILE" demo_env))
         = [stdout_h; stderr_h]).
Proof.
  apply (only_credentials_are_validated down_world demo_env 0 2);
    vm_compute; reflexivity.
Defined.

Lemma exception_is_not_keyboard_interrupt (e : Py.exn) :
  Py.isinstance e Py.Exception = true ->
  Py.isinstance e Py.KeyboardInterrupt = false.
Proof. destruct e as [[] msg | code]; cbn; congruence. Qed.

Lemma exception_exits_with_one {A} (e : Py.exn) :
  Py.isinstance e Py.Exception = true ->
  exit_status (@Raise A e) = Exited 1.
Proof. destruct e as [[] msg | code]; cbn; congruence. Qed.

Section Shutdown.

Variable w : World.
Variable cfg : Config.

Let K : conn_kwargs -> Prop := eq (kwargs_of cfg).

Lemma signals_seen_evolves (s s' : State) :
  both_installed s = true -> signals_seen w s -> evolves w K s s' ->
  signals_seen w s'.
Proof.
  intros Hinst [H1 H2] [_ _ Hs Ht _ (d & _ & Hf & _ & _ & _ & Hdel)].
  split; intros j Hj Hne; rewrite Hf.
  - destruct (Nat.lt_ge_cases j (steps s)) as [Hlt | Hge].
    + now rewrite (H1 j Hlt Hne).
    + rewrite Hdel; [apply orb_true_r | exact Hinst |].
      left. exists j. split; [lia | exact Hne].
  - destruct (Nat.lt_ge_cases j (ticks s)) as [Hlt | Hge].
    + now rewrite (H2 j Hlt Hne).
    + rewrite Hdel; [apply orb_true_r | exact Hinst |].
      right. exists j. split; [lia | exact Hne].
Qed.

Hypothesis world_ok : failures_are_exceptions w.

(** Once a signal has arrived, the loop ends at its next test of the
    flag. *)
Lemma main_while_stops (k fuel : nat) (s : State) :
  both_installed s = true -> signals_seen w s ->
  (sig_at w k <> [] /\ (k < steps s + fuel)%nat)
  \/ (sig_between w k <> [] /\ (k < ticks s + fuel)%nat) ->
  exists s', main_while w cfg fuel s = (Ok tt, s') /\ stop_requested s' = true.
Proof.
  revert s.
  induction fuel as [|fuel IH]; intros s Hinst Hinv Hk;
    rewrite main_while_eq; destruct (stop_requested s) eqn:Hstop; cbv zeta.
  - eexists. split; [reflexivity|].
    destruct (read_stop_spec w s)
      as (? & _ & _ & _ & _ & _ & _ & _ & _ & _ & -> & _).
    now rewrite Hstop.
  - exfalso. destruct Hinv as [H1 H2].
    destruct Hk as [(Hne & Hlt) | (Hne & Hlt)].
    + rewrite (H1 k) in Hstop; [discriminate | lia | exact Hne].
    + rewrite (H2 k) in Hstop; [discriminate | lia | exact Hne].
  - eexists. split; [reflexivity|].
    destruct (read_stop_spec w s)
      as (? & _ & _ & _ & _ & _ & _ & _ & _ & _ & -> & _).
    now rewrite Hstop.
  - set (s0 := after_read w s).
    assert (Hev0 : evolves w K s s0).
    { pose proof (evolves_read_stop w K s) as H.
      destruct (read_stop_spec w s) as (? & E & _).
      now rewrite E in H. }
    destruct (iteration_returns w cfg world_ok s0) as (s1 & E).
    unfold bind. rewrite E.
    pose proof (iteration_progress w cfg s0) as [Hsteps _].
    pose proof (e_iteration w cfg s0) as Hev.
    rewrite E in Hsteps, Hev. cbn [snd] in Hsteps, Hev.
    assert (Hev1 : evolves w K s s1) by (eapply evolves_trans; eauto).
    destruct Hev0 as [_ _ Hs0 _ _ _].
    assert (Ht0 : ticks s0 = S (ticks s)).
    { unfold s0. destruct (read_stop_spec w s)
        as (? & _ & _ & _ & _ & _ & H & _). exact H. }
    destruct Hev as [_ _ _ Ht1 _ _].
    apply IH.
    + destruct Hev1 as [_ Hi _ _ _ _]. unfold both_installed in *.
      now rewrite Hi.
    + eapply signals_seen_evolves; eauto.
    + destruct Hk as [(Hne & Hlt) | (Hne & Hlt)]; [left | right];
        (split; [exact Hne | lia]).
Qed.

End Shutdown.

(** C4 (amended).  For integer options that are plain literals and parse:
    the process ends with status 2 when a credential is missing at
    start-up; with status 0 when a termination signal stops the loop, after
    the record that the pinger stopped (the log file, if any, being ready,
    the interval being convertible to a float and the database calls
    raising nothing but [Exception]s); with status 0 as well when
    [KeyboardInterrupt] escapes the main loop, which is only logged at
    INFO; and with status 1 when an [Exception] escapes the main loop,
    which is logged as a fatal error, or when the log file cannot be set
    up. *)
Theorem exit_codes
    (w : World) (env : gmap string string) (t0 : Q) (fuel k : nat) :
  plain_integers env = true -> integers_parse env = true ->
  (credentials_set env = false ->
   exit_status (fst (run w env t0 fuel)) = Exited 2)
  /\ (credentials_set env = true ->
      log_file_error w (config_of env) = None ->
      Py.fits_float (PING_INTERVAL (config_of env)) = true ->
      failures_are_exceptions w ->
      sig_at w k <> [] \/ sig_between w k <> [] -> (k < fuel)%nat ->
      exists s pre,
        run w env t0 fuel = (Ok tt, s)
        /\ exit_status (fst (run w env t0 fuel)) = Exited 0
        /\ stop_requested s = true
        /\ logs (history s) = pre ++ [(INFO, "pinger stopped.")])
  /\ (credentials_set env = true ->
      forall e, log_file_error w (config_of env) = Some e ->
      Py.isinstance e Py.Exception = true ->
      exit_status (fst (run w env t0 fuel)) = Exited 1)
  /\ (forall main s s1, main s = (Ok tt, s1) ->
        entry w main s = (Ok tt, s1)
        /\ exit_status (fst (entry w main s)) = Exited 0)
  /\ (forall main s e s1, main s = (Raise e, s1) ->
        Py.isinstance e Py.KeyboardInterrupt = true ->
        exit_status (fst (entry w main s)) = Exited 0
        /\ logs (history (snd (entry w main s)))
           = logs (history s1) ++ [(INFO, "Interrupted by user.")])
  /\ (forall main s e s1, main s = (Raise e, s1) ->
        Py.isinstance e Py.Exception = true ->
        exit_status (fst (entry w main s)) = Exited 1
        /\ logs (history (snd (entry w main s)))
           = logs (history s1)
             ++ [(ERROR, "Fatal error: " +:+ Py.str_exn e)]).
Proof.
  intros _ Hi.
  pose proof (module_init_eq w env t0 Hi) as Hinit.
  split; [|split; [|split; [|split; [|split]]]].
  - intros Hc. rewrite Hc in Hinit. unfold run, script, bind.
    now rewrite Hinit.
  - intros Hc Hlog _ Hw Hk Hlt. rewrite Hc, Hlog in Hinit.
    set (cfg := config_of env) in *.
    set (K := eq (kwargs_of cfg)).
    assert (Hrun : run w env t0 fuel
                   = (interrupts w ;; entry w (main_loop w cfg fuel))
                       (started cfg t0)).
    { unfold run, script. unfold bind at 1. now rewrite Hinit. }
    destruct (started_facts cfg t0)
      as (_ & _ & Hinst & Hsteps & _ & Hticks).
    set (s0 := after_interrupts w (started cfg t0)).
    set (s1 := after_log w INFO (started_message cfg) s0).
    assert (Hev : evolves w K (started cfg t0) s1).
    { eapply evolves_trans.
      - pose proof (evolves_interrupts w K (started cfg t0)) as H.
        destruct (interrupts_spec w (started cfg t0)) as (? & E & _).
        rewrite E in H. exact H.
      - pose proof (evolves_logger_log w K INFO (started_message cfg) s0)
          as H.
        now rewrite logger_log_after in H. }
    assert (Hinv1 : signals_seen w s1).
    { eapply (signals_seen_evolves w cfg); [exact Hinst | | exact Hev].
      split; intros j Hj; [rewrite Hsteps in Hj | rewrite Hticks in Hj];
        lia. }
    assert (Hinst1 : both_installed s1 = true).
    { destruct Hev as [_ Hi1 _ _ _ _]. unfold both_installed in *.
      now rewrite Hi1. }
    assert (Hk1 : (sig_at w k <> [] /\ (k < steps s1 + fuel)%nat)
                  \/ (sig_between w k <> [] /\ (k < ticks s1 + fuel)%nat))
      by (destruct Hk as [Hk | Hk]; [left | right]; (split; [exact Hk | lia])).
    destruct (main_while_stops w cfg Hw k fuel s1 Hinst1 Hinv1 Hk1)
      as (s2 & E2 & Hstop2).
    assert (Hmain : (interrupts w ;; entry w (main_loop w cfg fuel))
                      (started cfg t0)
                    = (Ok tt, after_log w INFO "pinger stopped." s2)).
    { unfold bind at 1.
      destruct (interrupts_spec w (started cfg t0)) as (? & E & _).
      rewrite E. fold s0. unfold entry, try_except, main_loop.
      unfold bind at 1. unfold logger_info at 1.
      rewrite logger_log_after. fold (started_message cfg). fold s1.
      unfold bind. rewrite E2. unfold logger_info.
      now rewrite logger_log_after. }
    exists (after_log w INFO "pinger stopped." s2), (logs (history s2)).
    rewrite Hrun, Hmain.
    split; [reflexivity|]. split; [reflexivity|]. split.
    + destruct (logger_log_spec w INFO "pinger stopped." s2)
        as (? & _ & _ & _ & _ & _ & _ & _ & _ & _ & -> & _).
      now rewrite Hstop2.
    + apply logs_after_log.
  - intros Hc e Hlog He. rewrite Hc, Hlog in Hinit.
    unfold run, script. unfold bind at 1. rewrite Hinit. cbn [fst].
    now apply exception_exits_with_one.
  - intros main s s1 H. unfold entry, try_except. rewrite H. now split.
  - intros main s e s1 H H0. unfold entry, try_except, except.
    rewrite H, H0. unfold logger_info. rewrite logger_log_after.
    split; [reflexivity|]. apply logs_after_log.
  - intros main s e s1 H H0. unfold entry, try_except, except. rewrite H.
    rewrite (exception_is_not_keyboard_interrupt e H0), H0.
    unfold bind, logger_error. rewrite logger_log_after.
    split; [reflexivity|]. cbn [snd sys_exit raise]. apply logs_after_log.
Qed.

Lemma exit_codes_witness :
  exit_status (fst (run (sigterm_between 4) env_without_password 0 12))
  = Exited 2
  /\ (exists s pre,
       run (sigterm_between 4) demo_env 0 12 = (Ok tt, s)
       /\ exit_status (fst (run (sigterm_between 4) demo_env 0 12)) = Exited 0
       /\ stop_requested s = true
       /\ logs (history s) = pre ++ [(INFO, "pinger stopped.")])
  /\ exit_status (fst (run read_only_world env_with_log_file 0 12))
     = Exited 1.
Proof.
  split; [|split].
  - apply (exit_codes (sigterm_between 4) env_without_password 0 12 4);
      vm_compute; reflexivity.
  - apply (exit_codes (sigterm_between 4) demo_env 0 12 4).
    + vm_compute; reflexivity.
    + vm_compute; reflexivity.
    + vm_compute; reflexivity.
    + vm_compute; reflexivity.
    + vm_compute; reflexivity.
    + intros j e H. discriminate.
    + right. vm_compute. discriminate.
    + lia.
  - apply (exit_codes read_only_world env_with_log_file 0 12 0
             eq_refl eq_refl)
      with (e := Py.Exn Py.OSError "[Errno 30] Read-only file system");
      vm_compute; reflexivity.
Defined.

(** C4 as stated fails on the interrupted-by-user path: when
    [KeyboardInterrupt] escapes the main loop, the entry block logs one INFO
    record and the script runs to its end, so the process exits with status
    0, not 1. *)
Lemma keyboard_interrupt_exits_with_zero :
  let w := failing_at 0 (Py.Exn Py.KeyboardInterrupt "") in
  fst (main_loop w demo_cfg 3 ready_state)
  = Raise (Py.Exn Py.KeyboardInterrupt "")
  /\ exit_status (fst (run w demo_env 0 3)) = Exited 0
  /\ exit_status (fst (run w demo_env 0 3)) <> Exited 1
  /\ last (logs (history (snd (run w demo_env 0 3))))
     = Some (INFO, "Interrupted by user.").
Proof. vm_compute. repeat split; try reflexivity. discriminate. Qed.

(* ===================================================================== *)
(** ** More on start-up (lines 11-22) *)
(* ===================================================================== *)

Lemma first_malformed_none (env : gmap string string) :
  first_malformed env = None <-> integers_parse env = true.
Proof.
  unfold first_malformed, integers_parse.
  destruct (Py.int (getenv_default env "DB_PORT" "5432"));
    destruct (Py.int (getenv_default env "PING_INTERVAL_SECONDS" _));
    destruct (Py.int (getenv_default env "CONNECT_TIMEOUT_SECONDS" "10"));
    cbn; split; intros H; try discriminate; reflexivity.
Qed.

(** X1. When DB_PORT, PING_INTERVAL_SECONDS and CONNECT_TIMEOUT_SECONDS
    are plain ASCII strings and one of them is not an integer literal, the
    module stops with the [ValueError] of the first malformed one, in that
    order, whose message quotes the string the way [repr] writes it: the
    process ends with status 1 and has done nothing at all (no diagnostic
    of its own, no handler, no signal handler, no connection attempt),
    whatever the credentials are. *)
Theorem malformed_integer_aborts_startup
    (w : World) (env : gmap string string) (t0 : Q) (fuel : nat) (v : string) :
  plain_integers env = true ->
  first_malformed env = Some v ->
  run w env t0 fuel
  = (Raise (Py.Exn Py.ValueError (Py.invalid_literal v)), initial_state t0)
  /\ exit_status (fst (run w env t0 fuel)) = Exited 1
  /\ history (snd (run w env t0 fuel)) = [].
Proof.
  intros _ H.
  assert (E : load_config env (initial_state t0)
              = (Raise (Py.Exn Py.ValueError (Py.invalid_literal v)),
                 initial_state t0)).
  { unfold first_malformed in H. unfold load_config, py_int, bind.
    destruct (Py.int (getenv_default env "DB_PORT" "5432")) as [p|];
      [|injection H as <-; reflexivity].
    unfold ret at 1.
    destruct (Py.int (getenv_default env "PING_INTERVAL_SECONDS" _)) as [i|];
      [|injection H as <-; reflexivity].
    unfold ret at 1.
    destruct (Py.int (getenv_default env "CONNECT_TIMEOUT_SECONDS" "10"))
      as [t|]; [discriminate|].
    injection H as <-. reflexivity. }
  assert (Hrun : run w env t0 fuel
                 = (Raise (Py.Exn Py.ValueError (Py.invalid_literal v)),
                    initial_state t0)).
  { unfold run, script, module_init. unfold bind at 1. unfold bind at 1.
    now rewrite E. }
  rewrite Hrun. repeat split.
Qed.

Lemma malformed_integer_aborts_startup_witness :
  run calm_world (<["PING_INTERVAL_SECONDS" := "5'm"]> demo_env) 0 3
  = (Raise (Py.Exn Py.ValueError
              ("invalid literal for int() with base 10: "
               +:+ String Py.double_quote
                     ("5'm" +:+ String Py.double_quote ""))),
     initial_state 0)
  /\ exit_status
       (fst (run calm_world (<["PING_INTERVAL_SECONDS" := "5'm"]> demo_env)
                 0 3))
     = Exited 1
  /\ history
       (snd (run calm_world (<["PING_INTERVAL_SECONDS" := "5'm"]> demo_env)
                 0 3))
     = [].
Proof.
  apply (malformed_integer_aborts_startup calm_world
           (<["PING_INTERVAL_SECONDS" := "5'm"]> demo_env) 0 3 "5'm");
    vm_compute; reflexivity.
Defined.

(** X2. An environment that leaves the three integer options out gets
    port 5432, an interval of 300 seconds and a timeout of 10 seconds; a
    missing DB_HOST means localhost and a missing LOG_FILE means no file
    sink.  With the credentials set and the log file, if one is asked for,
    ready to be set up, start-up then succeeds with exactly this
    configuration. *)
Theorem defaults_of_the_configuration
    (w : World) (env : gmap string string) (t0 : Q) :
  env !! "DB_PORT" = None -> env !! "PING_INTERVAL_SECONDS" = None ->
  env !! "CONNECT_TIMEOUT_SECONDS" = None -> credentials_set env = true ->
  log_file_error w (config_of env) = None ->
  exists cfg s,
    module_init w env (initial_state t0) = (Ok cfg, s)
    /\ DB_PORT cfg = 5432 /\ PING_INTERVAL cfg = 300
    /\ CONNECT_TIMEOUT cfg = 10
    /\ DB_USER cfg = env !! "DB_USER" /\ DB_PASS cfg = env !! "DB_PASS"
    /\ DB_NAME cfg = env !! "DB_NAME"
    /\ (env !! "DB_HOST" = None -> DB_HOST cfg = "localhost")
    /\ (env !! "LOG_FILE" = None -> handlers s = [stdout_h; stderr_h]).
Proof.
  intros Hp Hi Ht Hc Hlog.
  assert (Hint : integers_parse env = true).
  { unfold integers_parse, getenv_default. rewrite Hp, Hi, Ht.
    vm_compute. reflexivity. }
  pose proof (module_init_eq w env t0 Hint) as Hinit.
  rewrite Hc, Hlog in Hinit.
  exists (config_of env), (started (config_of env) t0).
  split; [exact Hinit|].
  unfold config_of, getenv_default, getenv.
  cbn [DB_PORT PING_INTERVAL CONNECT_TIMEOUT DB_USER DB_PASS DB_NAME DB_HOST].
  rewrite Hp, Hi, Ht.
  repeat split; try (vm_compute; reflexivity).
  - intros ->. reflexivity.
  - intros Hl. unfold started, handlers_for. cbn [handlers LOG_FILE].
    now rewrite Hl.
Qed.

Lemma defaults_of_the_configuration_witness :
  exists cfg s,
    module_init calm_world (delete "PING_INTERVAL_SECONDS" demo_env)
                (initial_state 0)
    = (Ok cfg, s)
    /\ DB_PORT cfg = 5432 /\ PING_INTERVAL cfg = 300
    /\ CONNECT_TIMEOUT cfg = 10
    /\ DB_USER cfg = delete "PING_INTERVAL_SECONDS" demo_env !! "DB_USER"
    /\ DB_PASS cfg = delete "PING_INTERVAL_SECONDS" demo_env !! "DB_PASS"
    /\ DB_NAME cfg = delete "PING_INTERVAL_SECONDS" demo_env !! "DB_NAME"
    /\ (delete "PING_INTERVAL_SECONDS" demo_env !! "DB_HOST" = None ->
        DB_HOST cfg = "localhost")
    /\ (delete "PING_INTERVAL_SECONDS" demo_env !! "LOG_FILE" = None ->
        handlers s = [stdout_h; stderr_h]).
Proof.
  apply (defaults_of_the_configuration calm_world
           (delete "PING_INTERVAL_SECONDS" demo_env) 0);
    vm_compute; reflexivity.
Defined.

(* ===================================================================== *)
(** ** More paths through one check (lines 62-116) *)
(* ===================================================================== *)

Lemma not_exception_not_database (e : Py.exn) :
  Py.isinstance e Py.Exception = false ->
  Py.isinstance e Py.OperationalError = false
  /\ Py.isinstance e Py.DatabaseError = false.
Proof. destruct e as [[] msg | code]; cbn; intros H; split; congruence. Qed.

Section MorePaths.

Variable w : World.
Variable cfg : Config.

(** X3. When [connect] itself raises, the check makes no further
    database call: no cursor, no query, and no [close] on the connection
    that was never made.  An [Exception] is logged and the check returns;
    anything else (such as [KeyboardInterrupt]) leaves the check as it
    came, and nothing is logged. *)
Theorem failed_connect_makes_no_further_call (s : State) (e : Py.exn) :
  fail_at w (steps s) = Some e ->
  db_calls (history (snd (check_version w cfg s)))
  = db_calls (history s) ++ [EvConnect (next_conn s) (kwargs_of cfg)]
  /\ (Py.isinstance e Py.Exception = true ->
      fst (check_version w cfg s) = Ok tt)
  /\ (Py.isinstance e Py.Exception = false ->
      check_version w cfg s = (Raise e, connected w cfg s)
      /\ logs (history (connected w cfg s)) = logs (history s)).
Proof.
  intros H.
  assert (Hp : probe w cfg s = (Raise e, connected w cfg s)).
  { unfold probe. rewrite connect_with_timeout_eq, H. reflexivity. }
  assert (Hd : db_calls (history (connected w cfg s))
               = db_calls (history s)
                 ++ [EvConnect (next_conn s) (kwargs_of cfg)]).
  { unfold connected. rewrite db_calls_after_blocking. reflexivity. }
  assert (Hl : logs (history (connected w cfg s)) = logs (history s)).
  { unfold connected. rewrite logs_after_blocking. cbn.
    now rewrite app_nil_r. }
  destruct (Py.isinstance e Py.Exception) eqn:He.
  - unfold check_version, try_except. rewrite Hp.
    rewrite (check_version_clause w e He).
    unfold logger_error. rewrite logger_log_after. cbn [fst snd].
    rewrite db_calls_after_log. repeat split; auto. discriminate.
  - destruct (not_exception_not_database e He) as [H1 H2].
    assert (Hc : check_version w cfg s = (Raise e, connected w cfg s)).
    { unfold check_version, try_except, except, no_clause. rewrite Hp.
      now rewrite H1, H2, He. }
    rewrite Hc. repeat split; auto. discriminate.
Qed.

(** X4. The statement-timeout step also survives a failing [commit]:
    the commit's [Exception] is answered by a rollback, after which the
    probe runs as usual and the check logs the probe's outcome only. *)
Theorem failed_commit_is_rolled_back (s : State) (e : Py.exn) :
  fail_at w (3 + steps s) = Some e -> is_exception e ->
  (forall i, (i < 11)%nat -> i <> 3%nat -> fail_at w (i + steps s) = None) ->
  let c := next_conn s in
  exists s',
    check_version w cfg s = (Ok tt, s')
    /\ logs (history s')
       = logs (history s) ++ [version_line (row_at w (8 + steps s))]
    /\ db_calls (history s')
       = db_calls (history s)
         ++ [ EvConnect c (kwargs_of cfg);
              EvCursor c;
              EvExecute c "SET statement_timeout = %s;"
                        [CONNECT_TIMEOUT cfg * 1000];
              EvCommit c;
              EvRollback c;
              EvCursorClose c;
              EvCursor c;
              EvExecute c "SELECT VERSION();" [];
              EvFetchone c;
              EvCursorClose c;
              EvClose c ].
Proof.
  intros H3 He H c. red in He.
  pose proof (H 0%nat ltac:(lia) ltac:(lia)) as H0.
  pose proof (H 1%nat ltac:(lia) ltac:(lia)) as H1.
  pose proof (H 2%nat ltac:(lia) ltac:(lia)) as H2.
  pose proof (H 4%nat ltac:(lia) ltac:(lia)) as H4.
  pose proof (H 5%nat ltac:(lia) ltac:(lia)) as H5.
  pose proof (H 6%nat ltac:(lia) ltac:(lia)) as H6.
  pose proof (H 7%nat ltac:(lia) ltac:(lia)) as H7.
  pose proof (H 8%nat ltac:(lia) ltac:(lia)) as H8.
  pose proof (H 9%nat ltac:(lia) ltac:(lia)) as H9.
  pose proof (H 10%nat ltac:(lia) ltac:(lia)) as H10.
  cbn [Nat.add] in *. clear H.
  unfold_check. repeat exec_step.
  eexists. split; [reflexivity|]. split; observe.
  - destruct (version_line _); reflexivity.
  - reflexivity.
Qed.

(** X5. Best effort has its limit: when the server rejects the
    statement timeout and the rollback fails as well, the failure of the
    rollback is what the check reports, as one ERROR record; the probe query
    is never issued, and the cursor and the connection are still closed. *)
Theorem failed_rollback_fails_the_check (s : State) (e1 e2 : Py.exn) :
  fail_at w (steps s) = None -> fail_at w (1 + steps s) = None ->
  fail_at w (2 + steps s) = Some e1 -> is_exception e1 ->
  fail_at w (3 + steps s) = Some e2 -> is_exception e2 ->
  fail_at w (4 + steps s) = None -> fail_at w (5 + steps s) = None ->
  let c := next_conn s in
  exists s',
    check_version w cfg s = (Ok tt, s')
    /\ logs (history s')
       = logs (history s) ++ [(ERROR, failure_label e2 +:+ Py.str_exn e2)]
    /\ db_calls (history s')
       = db_calls (history s)
         ++ [ EvConnect c (kwargs_of cfg);
              EvCursor c;
              EvExecute c "SET statement_timeout = %s;"
                        [CONNECT_TIMEOUT cfg * 1000];
              EvRollback c;
              EvCursorClose c;
              EvClose c ].
Proof.
  intros H0 H1 H2 He1 H3 He2 H4 H5 c. red in He1.
  cbn [Nat.add] in *.
  unfold check_version, try_except at 1.
  assert (Hp : exists s1,
             probe w cfg s = (Raise e2, s1)
             /\ logs (history s1) = logs (history s)
             /\ db_calls (history s1)
                = db_calls (history s)
                  ++ [ EvConnect c (kwargs_of cfg);
                       EvCursor c;
                       EvExecute c "SET statement_timeout = %s;"
                                 [CONNECT_TIMEOUT cfg * 1000];
                       EvRollback c;
                       EvCursorClose c;
                       EvClose c ]).
  { unfold probe, version_query, connect_with_timeout, try_finally_with,
      psycopg2_connect, set_statement_timeout, with_cursor, cursor_execute,
      conn_commit, conn_rollback, release, conn_close, except, no_clause,
      try_except, try_finally.
    repeat exec_step.
    eexists. split; [reflexivity|]. split; observe; reflexivity. }
  destruct Hp as (s1 & Hp & Hl & Hd). rewrite Hp.
  rewrite (check_version_clause w e2 He2).
  unfold logger_error. rewrite logger_log_after.
  eexists. split; [reflexivity|].
  rewrite logs_after_log, db_calls_after_log, Hl, Hd. split; reflexivity.
Qed.

(** X6. An exception that is not an [Exception] (a [KeyboardInterrupt],
    a [SystemExit]) raised by the probe query is not caught by any clause of
    the check or of the loop: it leaves [check_version] and the iteration,
    which does not sleep.  On its way out the cursor and the connection are
    closed, and nothing is logged. *)
Theorem base_exceptions_pass_through (s : State) (e : Py.exn) :
  (forall i, (i < 9)%nat -> i <> 6%nat -> fail_at w (i + steps s) = None) ->
  fail_at w (6 + steps s) = Some e ->
  Py.isinstance e Py.Exception = false ->
  let c := next_conn s in
  exists s',
    check_version w cfg s = (Raise e, s')
    /\ guarded_check w cfg s = (Raise e, s')
    /\ iteration w cfg s = (Raise e, s')
    /\ logs (history s') = logs (history s)
    /\ sleeps (history s') = sleeps (history s)
    /\ db_calls (history s')
       = db_calls (history s)
         ++ [ EvConnect c (kwargs_of cfg);
              EvCursor c;
              EvExecute c "SET statement_timeout = %s;"
                        [CONNECT_TIMEOUT cfg * 1000];
              EvCommit c;
              EvCursorClose c;
              EvCursor c;
              EvExecute c "SELECT VERSION();" [];
              EvCursorClose c;
              EvClose c ].
Proof.
  intros H H6 He c.
  destruct (not_exception_not_database e He) as [Ho Hdb].
  pose proof (H 0%nat ltac:(lia) ltac:(lia)) as H0.
  pose proof (H 1%nat ltac:(lia) ltac:(lia)) as H1.
  pose proof (H 2%nat ltac:(lia) ltac:(lia)) as H2.
  pose proof (H 3%nat ltac:(lia) ltac:(lia)) as H3.
  pose proof (H 4%nat ltac:(lia) ltac:(lia)) as H4.
  pose proof (H 5%nat ltac:(lia) ltac:(lia)) as H5.
  pose proof (H 7%nat ltac:(lia) ltac:(lia)) as H7.
  pose proof (H 8%nat ltac:(lia) ltac:(lia)) as H8.
  cbn [Nat.add] in *. clear H.
  assert (Hc : exists s',
             check_version w cfg s = (Raise e, s')
             /\ logs (history s') = logs (history s)
             /\ sleeps (history s') = sleeps (history s)
             /\ db_calls (history s')
                = db_calls (history s)
                  ++ [ EvConnect c (kwargs_of cfg);
                       EvCursor c;
                       EvExecute c "SET statement_timeout = %s;"
                                 [CONNECT_TIMEOUT cfg * 1000];
                       EvCommit c;
                       EvCursorClose c;
                       EvCursor c;
                       EvExecute c "SELECT VERSION();" [];
                       EvCursorClose c;
                       EvClose c ]).
  { unfold_check. repeat exec_step.
    eexists. split; [reflexivity|]. split; [|split]; observe;
      try reflexivity.
    rewrite !sleeps_after_blocking. cbn [sleeps omap list_omap sleep_of].
    change (history (with_next_conn (S (next_conn s)) s)) with (history s).
    now rewrite !app_nil_r. }
  destruct Hc as (s' & Hc & Hl & Hs & Hd).
  exists s'. repeat split; auto.
  - unfold guarded_check, try_except, except, no_clause. rewrite Hc.
    now rewrite He.
  - rewrite iteration_eq.
    unfold guarded_check, try_except, except, no_clause.
    rewrite Hc. now rewrite He.
Qed.

End MorePaths.

Lemma failed_connect_makes_no_further_call_witness :
  let w := failing_at 0 (Py.Exn Py.OperationalError "timeout expired") in
  db_calls (history (snd (check_version w demo_cfg ready_state)))
  = db_calls (history ready_state) ++ [EvConnect 0%nat (kwargs_of demo_cfg)]
  /\ (Py.isinstance (Py.Exn Py.OperationalError "timeout expired")
                    Py.Exception = true ->
      fst (check_version w demo_cfg ready_state) = Ok tt)
  /\ (Py.isinstance (Py.Exn Py.OperationalError "timeout expired")
                    Py.Exception = false ->
      check_version w demo_cfg ready_state
      = (Raise (Py.Exn Py.OperationalError "timeout expired"),
         connected w demo_cfg ready_state)
      /\ logs (history (connected w demo_cfg ready_state))
         = logs (history ready_state)).
Proof.
  intros w.
  apply (failed_connect_makes_no_further_call w demo_cfg ready_state).
  reflexivity.
Defined.

Lemma failed_commit_is_rolled_back_witness :
  let w := failing_at 3 (Py.Exn Py.OperationalError
                           "server closed the connection unexpectedly") in
  exists s',
    check_version w demo_cfg ready_state = (Ok tt, s')
    /\ logs (history s')
       = logs (history ready_state)
         ++ [version_line (row_at w (8 + steps ready_state))]
    /\ db_calls (history s')
       = db_calls (history ready_state)
         ++ [ EvConnect 0%nat (kwargs_of demo_cfg);
              EvCursor 0%nat;
              EvExecute 0%nat "SET statement_timeout = %s;"
                        [CONNECT_TIMEOUT demo_cfg * 1000];
              EvCommit 0%nat;
              EvRollback 0%nat;
              EvCursorClose 0%nat;
              EvCursor 0%nat;
              EvExecute 0%nat "SELECT VERSION();" [];
              EvFetchone 0%nat;
              EvCursorClose 0%nat;
              EvClose 0%nat ].
Proof.
  intros w.
  apply (failed_commit_is_rolled_back w demo_cfg ready_state
           (Py.Exn Py.OperationalError
              "server closed the connection unexpectedly")).
  - reflexivity.
  - reflexivity.
  - intros i Hi Hne. destruct i as [|[|[|[|i]]]]; try lia; reflexivity.
Defined.

Lemma failed_rollback_fails_the_check_witness :
  let e1 := Py.Exn Py.ProgrammingError
              "unrecognized configuration parameter" in
  let e2 := Py.Exn Py.InterfaceError "connection already closed" in
  let w := failing_twice 2 e1 3 e2 in
  exists s',
    check_version w demo_cfg ready_state = (Ok tt, s')
    /\ logs (history s')
       = logs (history ready_state)
         ++ [(ERROR, failure_label e2 +:+ Py.str_exn e2)]
    /\ db_calls (history s')
       = db_calls (history ready_state)
         ++ [ EvConnect 0%nat (kwargs_of demo_cfg);
              EvCursor 0%nat;
              EvExecute 0%nat "SET statement_timeout = %s;"
                        [CONNECT_TIMEOUT demo_cfg * 1000];
              EvRollback 0%nat;
              EvCursorClose 0%nat;
              EvClose 0%nat ].
Proof.
  intros e1 e2 w.
  apply (failed_rollback_fails_the_check w demo_cfg ready_state e1 e2);
    reflexivity.
Defined.

Lemma base_exceptions_pass_through_witness :
  let e := Py.Exn Py.KeyboardInterrupt "" in
  let w := failing_at 6 e in
  exists s',
    check_version w demo_cfg ready_state = (Raise e, s')
    /\ guarded_check w demo_cfg ready_state = (Raise e, s')
    /\ iteration w demo_cfg ready_state = (Raise e, s')
    /\ logs (history s') = logs (history ready_state)
    /\ sleeps (history s') = sleeps (history ready_state)
    /\ db_calls (history s')
       = db_calls (history ready_state)
         ++ [ EvConnect 0%nat (kwargs_of demo_cfg);
              EvCursor 0%nat;
              EvExecute 0%nat "SET statement_timeout = %s;"
                        [CONNECT_TIMEOUT demo_cfg * 1000];
              EvCommit 0%nat;
              EvCursorClose 0%nat;
              EvCursor 0%nat;
              EvExecute 0%nat "SELECT VERSION();" [];
              EvCursorClose 0%nat;
              EvClose 0%nat ].
Proof.
  intros e w.
  apply (base_exceptions_pass_through w demo_cfg ready_state e).
  - intros i Hi Hne.
    destruct i as [|[|[|[|[|[|[|i]]]]]]]; try lia; reflexivity.
  - reflexivity.
  - reflexivity.
Defined.

(* ===================================================================== *)
(** ** The catch-all clauses above [check_version] (lines 126-127, 146-148) *)
(* ===================================================================== *)

Section Guards.

Variable w : World.
Variable cfg : Config.

(** [check_version] lets no [Exception] out, whatever the world does. *)
Lemma check_version_raises (s s' : State) (e : Py.exn) :
  check_version w cfg s = (Raise e, s') ->
  Py.isinstance e Py.Exception = false.
Proof.
  unfold check_version, try_except.
  destruct (probe w cfg s) as [[[]| e0 |] s1]; try discriminate.
  destruct (Py.isinstance e0 Py.Exception) eqn:He.
  - rewrite (check_version_clause w e0 He).
    unfold logger_error. rewrite logger_log_after. discriminate.
  - destruct (not_exception_not_database e0 He) as [H1 H2].
    unfold except, no_clause. rewrite H1, H2, He.
    intros H. injection H as <- _. exact He.
Qed.

Lemma guarded_check_is_check_version (s : State) :
  guarded_check w cfg s = check_version w cfg s.
Proof.
  unfold guarded_check, try_except.
  destruct (check_version w cfg s) as [[[]| e |] s1] eqn:E; try reflexivity.
  unfold except, no_clause.
  now rewrite (check_version_raises s s1 e E).
Qed.

Lemma iteration_raises (s s' : State) (e : Py.exn) :
  iteration w cfg s = (Raise e, s') ->
  Py.isinstance e Py.Exception = false.
Proof.
  rewrite iteration_eq, guarded_check_is_check_version.
  destruct (check_version w cfg s) as [[[]| e0 |] s1] eqn:E; try discriminate.
  - destruct (sleep_phase_rounds w cfg
                (Py.fsub (Py.float (now s1)) (Py.float (now s))) s1)
      as (s2 & d & -> & _). discriminate.
  - intros H. injection H as <- _. eapply check_version_raises; eauto.
Qed.

Lemma main_while_raises (fuel : nat) (s s' : State) (e : Py.exn) :
  main_while w cfg fuel s = (Raise e, s') ->
  Py.isinstance e Py.Exception = false.
Proof.
  revert s. induction fuel as [|fuel IH]; intros s; rewrite main_while_eq;
    cbv zeta; destruct (stop_requested s); try discriminate.
  unfold bind.
  destruct (iteration w cfg _) as [[[]| e0 |] s1] eqn:E; try discriminate.
  - apply IH.
  - intros H. injection H as <- _. eapply iteration_raises; eauto.
Qed.

Lemma main_loop_raises (fuel : nat) (s s' : State) (e : Py.exn) :
  main_loop w cfg fuel s = (Raise e, s') ->
  Py.isinstance e Py.Exception = false.
Proof.
  unfold main_loop. unfold bind at 1. unfold logger_info at 1.
  rewrite logger_log_after. unfold bind.
  destruct (main_while w cfg fuel _) as [[[]| e0 |] s1] eqn:E;
    try discriminate.
  - unfold logger_info. rewrite logger_log_after. discriminate.
  - intros H. injection H as <- _. eapply main_while_raises; eauto.
Qed.

(** X7. The two catch-all clauses above [check_version] never fire, as
    long as the configured interval is one that line 130 can turn into a
    float.  [check_version] lets no [Exception] out, so the guarded call
    of the loop behaves exactly as the bare call and "Unhandled error" is
    never logged; with such an interval the main loop raises no
    [Exception] either, so the entry block never takes its fatal-error
    branch with [sys.exit(1)]: it hands on the outcome of the loop, except
    that a [KeyboardInterrupt] is turned into one INFO record.  (An
    interval beyond the range of a float is outside this statement: there
    line 130 raises [OverflowError], which the entry block does report as
    a fatal error.) *)
Theorem catch_all_clauses_never_fire (fuel : nat) (s : State) :
  Py.fits_float (PING_INTERVAL cfg) = true ->
  guarded_check w cfg s = check_version w cfg s
  /\ (forall e s', check_version w cfg s = (Raise e, s') ->
        Py.isinstance e Py.Exception = false)
  /\ (forall e s', main_loop w cfg fuel s = (Raise e, s') ->
        Py.isinstance e Py.Exception = false)
  /\ entry w (main_loop w cfg fuel) s
     = match main_loop w cfg fuel s with
       | (Raise e, s') =>
           if Py.isinstance e Py.KeyboardInterrupt
           then logger_info w "Interrupted by user." s'
           else (Raise e, s')
       | r => r
       end.
Proof.
  intros _.
  split; [apply guarded_check_is_check_version|].
  split; [intros e s'; apply check_version_raises|].
  split; [intros e s'; apply main_loop_raises|].
  unfold entry, try_except.
  destruct (main_loop w cfg fuel s) as [[[]| e |] s1] eqn:E; try reflexivity.
  unfold except, no_clause.
  destruct (Py.isinstance e Py.KeyboardInterrupt); [reflexivity|].
  now rewrite (main_loop_raises fuel s s1 e E).
Qed.

End Guards.

Lemma catch_all_clauses_never_fire_witness :
  guarded_check down_world demo_cfg ready_state
  = check_version down_world demo_cfg ready_state
  /\ (forall e s',
        check_version down_world demo_cfg ready_state = (Raise e, s') ->
        Py.isinstance e Py.Exception = false)
  /\ (forall e s',
        main_loop down_world demo_cfg 2 ready_state = (Raise e, s') ->
        Py.isinstance e Py.Exception = false)
  /\ entry down_world (main_loop down_world demo_cfg 2) ready_state
     = match main_loop down_world demo_cfg 2 ready_state with
       | (Raise e, s') =>
           if Py.isinstance e Py.KeyboardInterrupt
           then logger_info down_world "Interrupted by user." s'
           else (Raise e, s')
       | r => r
       end.
Proof.
  apply (catch_all_clauses_never_fire down_world demo_cfg 2 ready_state).
  vm_compute. reflexivity.
Defined.

(* ===================================================================== *)
(** ** Everything after [connect], for any relation the calls keep *)
(* ===================================================================== *)

Section GenericProgram.

Variable w : World.
Variable R : State -> State -> Prop.
Hypothesis R_refl : forall s, R s s.
Hypothesis R_trans : forall s1 s2 s3, R s1 s2 -> R s2 s3 -> R s1 s3.
Hypothesis R_log : forall lvl msg, always R (logger_log w lvl msg).
Hypothesis R_read : always R (read_stop w).
Hypothesis R_sleep : forall d, always R (time_sleep w d).
Hypothesis R_db :
  forall ev, is_db ev = true -> is_connect ev = false ->
             always R (db_call w ev).











End GenericProgram.

(* ===================================================================== *)
(** ** The connection attempts of a run *)
(* ===================================================================== *)



Lemma no_connects_forallb (d : list event) :
  connects_with no_kwargs d ->
  forallb (fun e => negb (is_connect e)) d = true.
Proof.
  induction d as [|e d IH]; intros H; [reflexivity|].
  cbn. rewrite IH by (intros c0 kw0 Hin; apply (H c0 kw0); now right).
  destruct e; try reflexivity.
  exfalso. apply (H c kw). now left.
Qed.

Lemma forallb_no_connect_ids (d : list event) :
  forallb (fun e => negb (is_connect e)) d = true <-> connect_ids d = [].
Proof.
  induction d as [|e d IH]; [split; reflexivity|].
  destruct e; cbn; try exact IH. split; discriminate.
Qed.





Section Connects.

Variable w : World.








Variable cfg : Config.



End Connects.


(* ===================================================================== *)
(** ** The one-shot script (SDL/secure-db-connection/main.py) *)
(* ===================================================================== *)

Lemma secure_lookup_first_missing items k :
  Secure.first_missing items = Some k ->
  Secure.lookup items k = None
  /\ (k = "dbname"
      \/ (k = "host" /\ exists d, Secure.lookup items "dbname" = Some d)
      \/ (k = "port" /\ exists d h, Secure.lookup items "dbname" = Some d
                                    /\ Secure.lookup items "host" = Some h)).
Proof.
  unfold Secure.first_missing. cbn [find].
  destruct (Secure.lookup items "dbname") as [d|] eqn:Ed.
  - destruct (Secure.lookup items "host") as [h|] eqn:Eh.
    + destruct (Secure.lookup items "port") as [p|] eqn:Ep; [discriminate|].
      intros [= <-]. split; [exact Ep|]. right. right. eauto.
    + intros [= <-]. split; [exact Eh|]. right. left. eauto.
  - intros [= <-]. split; [exact Ed|]. now left.
Qed.

(** X10. A configuration the script cannot use is found out only after the
    operator has typed a login and a password.  When the file is read and
    both prompts are answered, a loaded value that is no dict ends the
    script with a TypeError, and a dict that lacks one of dbname, host and
    port ends it with a KeyError for the first of them that is missing.
    Either way the exit status is 1, the file has been closed, and no
    connection has been attempted. *)
Theorem unusable_configuration_is_found_after_the_prompts (w : Secure.World) :
  (forall k, (k < 5)%nat -> Secure.fail_at w k = None) ->
  forall f,
    match Secure.parsed w with
    | Secure.VDict items =>
        exists k, Secure.first_missing items = Some k
                  /\ f = Secure.KeyError k
    | _ => f = Secure.TypeError
    end ->
    exists s,
      Secure.run w = (Secure.Failed f, s)
      /\ Secure.status (fst (Secure.run w)) = Exited 1
      /\ Secure.history s
         = [Secure.Open "config.json"; Secure.Load; Secure.CloseFile;
            Secure.Input Secure.login_prompt;
            Secure.Getpass Secure.password_prompt].
Proof.
  intros Hok f Hf.
  unfold Secure.run, Secure.script, Secure.read_config, Secure.with_block,
    Secure.ask_credentials, Secure.connect, Secure.bind, Secure.call,
    Secure.ret, Secure.initial_state.
  repeat (progress cbn [Secure.calls Secure.trace fst snd];
          rewrite ?Hok by lia).
  revert Hf.
  destruct (Secure.parsed w) as [| | | | | |items]; intros Hf;
    try (subst f; eexists; split; [reflexivity|split; reflexivity]).
  destruct Hf as (k & Hk & ->).
  destruct (secure_lookup_first_missing items k Hk)
    as (Hnone & [->|[[-> (d & Hd)]|[-> (d & h & Hd & Hh)]]]);
    unfold Secure.getitem, Secure.fail, Secure.ret;
    repeat match goal with H : Secure.lookup _ _ = _ |- _ => rewrite H; clear H end;
    eexists; split; try reflexivity; split; reflexivity.
Qed.

Lemma unusable_configuration_is_found_after_the_prompts_witness :
  exists s,
    Secure.run (Secure.with_config
                  (Secure.VDict [("dbname", Secure.VStr "app");
                                 ("port", Secure.VInt 5432)]) Secure.calm)
    = (Secure.Failed (Secure.KeyError "host"), s)
    /\ Secure.status
         (fst (Secure.run (Secure.with_config
                  (Secure.VDict [("dbname", Secure.VStr "app");
                                 ("port", Secure.VInt 5432)]) Secure.calm)))
       = Exited 1
    /\ Secure.history s
       = [Secure.Open "config.json"; Secure.Load; Secure.CloseFile;
          Secure.Input Secure.login_prompt;
          Secure.Getpass Secure.password_prompt].
Proof.
  apply (unusable_configuration_is_found_after_the_prompts
           (Secure.with_config
              (Secure.VDict [("dbname", Secure.VStr "app");
                             ("port", Secure.VInt 5432)]) Secure.calm)).
  - intros k _. reflexivity.
  - exists "host". split; reflexivity.
Defined.

Ltac secure_unfold :=
  unfold Secure.run, Secure.script, Secure.read_config, Secure.with_block,
    Secure.ask_credentials, Secure.connect, Secure.show_version,
    Secure.bind, Secure.call, Secure.ret, Secure.initial_state.

Ltac secure_step :=
  cbn [Secure.calls Secure.trace fst snd Secure.getitem Secure.first_column
       Secure.fail Secure.ret].

Ltac secure_failed k :=
  do 2 eexists; split; [reflexivity|];
  unfold Secure.history; cbn [Secure.trace rev app];
  split; [cbn; tauto|];
  split; [split; [cbn; intuition discriminate
                 |intros [Hall Hrow];
                  try (rewrite (Hall k) in *; [discriminate|lia]);
                  try discriminate]|];
  split; [cbn; intuition discriminate|];
  split; [cbn; intuition discriminate|];
  split; [discriminate|cbn; intuition discriminate].

(** X11. Nothing releases the connection when something fails.  Once the
    script holds its connection, conn.close() is called only if every call
    after the connect up to and including cur.close() succeeds and the row
    fetched has a first column.  In that case the script has made exactly
    its twelve calls in order, printing one line with the version, and it
    ends normally unless conn.close() itself raises.  In every other case
    the connection, and the cursor when one was made, is left for the
    interpreter to tear down. *)
Theorem connection_is_closed_only_when_nothing_fails
    (w : Secure.World) (kw : Secure.kwargs) :
  Secure.connected w kw ->
  exists r s,
    Secure.run w = (r, s)
    /\ In (Secure.Connect kw) (Secure.history s)
    /\ (In Secure.Close (Secure.history s)
        <-> (forall k, (6 <= k < 11)%nat -> Secure.fail_at w k = None)
            /\ Secure.has_first_column (Secure.row w) = true)
    /\ (In Secure.CursorClose (Secure.history s)
        -> In Secure.Close (Secure.history s)
           \/ exists e, Secure.fail_at w 10%nat = Some e
                        /\ r = Secure.Failed (Secure.Uncaught e))
    /\ (In Secure.Close (Secure.history s) ->
        exists v rest,
          Secure.row w = Some (v :: rest)
          /\ Secure.history s
             = [Secure.Open "config.json"; Secure.Load; Secure.CloseFile;
                Secure.Input Secure.login_prompt;
                Secure.Getpass Secure.password_prompt;
                Secure.Connect kw; Secure.Cursor;
                Secure.Execute "SELECT VERSION();"; Secure.Fetchone;
                Secure.Print ("PostgreSQL version: " +:+ Py.str v);
                Secure.CursorClose; Secure.Close])
    /\ (r = Secure.Done tt
        <-> In Secure.Close (Secure.history s)
            /\ Secure.fail_at w 11%nat = None).
Proof.
  intros (Hok & items & Hcfg & Hd & Hh & Hp & Hu & Hpw).
  destruct kw as [d u p h pt]. cbn in Hd, Hh, Hp, Hu, Hpw. subst u p.
  secure_unfold.
  repeat (progress secure_step; rewrite ?Hok by lia).
  rewrite Hcfg. secure_step. rewrite Hd, Hh, Hp.
  repeat (progress secure_step; rewrite ?Hok by lia).
  destruct (Secure.fail_at w 6%nat) eqn:E6; [secure_failed 6%nat|].
  secure_step.
  destruct (Secure.fail_at w 7%nat) eqn:E7; [secure_failed 7%nat|].
  secure_step.
  destruct (Secure.fail_at w 8%nat) eqn:E8; [secure_failed 8%nat|].
  secure_step.
  destruct (Secure.row w) as [[|v rest]|] eqn:Erow;
    [secure_failed 8%nat| |secure_failed 8%nat].
  secure_step.
  destruct (Secure.fail_at w 9%nat) eqn:E9; [secure_failed 9%nat|].
  secure_step.
  destruct (Secure.fail_at w 10%nat) eqn:E10.
  { do 2 eexists; split; [reflexivity|].
    unfold Secure.history; cbn [Secure.trace rev app].
    split; [cbn; tauto|].
    split; [split; [cbn; intuition discriminate
                   |intros [Hall Hrow];
                    rewrite (Hall 10%nat) in E10; [discriminate|lia]]|].
    split; [intros _; right; eexists; split; reflexivity|].
    split; [cbn; intuition discriminate|].
    split; [discriminate|cbn; intuition discriminate]. }
  secure_step.
  assert (Hall : forall k, (6 <= k < 11)%nat -> Secure.fail_at w k = None).
  { intros k Hk.
    assert (k = 6 \/ k = 7 \/ k = 8 \/ k = 9 \/ k = 10)%nat
      as [->|[->|[->|[->| ->]]]] by lia; assumption. }
  destruct (Secure.fail_at w 11%nat) eqn:E11;
    (do 2 eexists; split; [reflexivity|];
     unfold Secure.history; cbn [Secure.trace rev app];
     split; [cbn; tauto|];
     split; [split; [intros _; split; [exact Hall|reflexivity]
                    |intros _; cbn; tauto]|];
     split; [intros _; left; cbn; tauto|];
     split; [intros _; exists v, rest; split; reflexivity|];
     split; [first [discriminate
                   |intros _; split; [cbn; tauto|reflexivity]]
            |first [intros [_ H]; discriminate|intros _; reflexivity]]).
Qed.

Lemma connection_is_closed_only_when_nothing_fails_witness :
  exists r s,
    Secure.run (Secure.failing 7 (Py.Exn Py.OperationalError "gone")
                  Secure.calm) = (r, s)
    /\ ~ In Secure.Close (Secure.history s)
    /\ r <> Secure.Done tt.
Proof.
  destruct (connection_is_closed_only_when_nothing_fails
              (Secure.failing 7 (Py.Exn Py.OperationalError "gone")
                 Secure.calm)
              {| Secure.dbname := Secure.VStr "app";
                 Secure.user := "alice"; Secure.password := "s3cret";
                 Secure.host := Secure.VStr "localhost";
                 Secure.port := Secure.VInt 5432 |})
    as (r & s & Hrun & _ & Hclose & _ & _ & Hdone).
  - split.
    + intros k Hk. cbn.
      destruct (Nat.eqb k 7) eqn:E; [|reflexivity].
      apply Nat.eqb_eq in E. lia.
    + eexists. repeat split; reflexivity.
  - exists r, s. split; [exact Hrun|].
    assert (Hno : ~ In Secure.Close (Secure.history s)).
    { intros Hin. apply Hclose in Hin. destruct Hin as [Hall _].
      specialize (Hall 7%nat ltac:(lia)). discriminate. }
    split; [exact Hno|].
    intros Hd. apply Hdone in Hd. tauto.
Defined.

(** X12. The configuration file is closed before anything else happens,
    also when it cannot be parsed, and a file that cannot be opened, read
    or closed ends the script before the operator is asked anything.  The
    exception that ends it is the one of open(); otherwise the one raised
    on closing the file; otherwise the one of json.load(). *)
Theorem unreadable_configuration_stops_before_the_prompts
    (w : Secure.World) :
  (exists k, (k < 3)%nat /\ Secure.fail_at w k <> None) ->
  exists e s,
    Secure.run w = (Secure.Failed (Secure.Uncaught e), s)
    /\ (Secure.fail_at w 0%nat = Some e
        /\ Secure.history s = [Secure.Open "config.json"]
        \/ Secure.fail_at w 0%nat = None
           /\ Secure.history s
              = [Secure.Open "config.json"; Secure.Load; Secure.CloseFile]
           /\ (Secure.fail_at w 2%nat = Some e
               \/ Secure.fail_at w 2%nat = None
                  /\ Secure.fail_at w 1%nat = Some e)).
Proof.
  intros (k & Hk & Hfail).
  secure_unfold. secure_step.
  destruct (Secure.fail_at w 0%nat) as [e0|] eqn:E0.
  { exists e0. eexists. split; [reflexivity|]. left. split; reflexivity. }
  secure_step.
  destruct (Secure.fail_at w 1%nat) as [e1|] eqn:E1; secure_step;
    destruct (Secure.fail_at w 2%nat) as [e2|] eqn:E2; secure_step.
  - exists e2. eexists. split; [reflexivity|]. right. repeat split.
    now left.
  - exists e1. eexists. split; [reflexivity|]. right. repeat split.
    right. now split.
  - exists e2. eexists. split; [reflexivity|]. right. repeat split.
    now left.
  - exfalso. apply Hfail.
    assert (k = 0 \/ k = 1 \/ k = 2)%nat as [->|[->| ->]] by lia;
      assumption.
Qed.

Lemma unreadable_configuration_stops_before_the_prompts_witness :
  exists e s,
    Secure.run (Secure.failing 1 (Py.Exn Py.ValueError "Expecting value")
                  Secure.calm)
    = (Secure.Failed (Secure.Uncaught e), s)
    /\ (Secure.fail_at
          (Secure.failing 1 (Py.Exn Py.ValueError "Expecting value")
             Secure.calm) 0%nat = Some e
        /\ Secure.history s = [Secure.Open "config.json"]
        \/ Secure.fail_at
             (Secure.failing 1 (Py.Exn Py.ValueError "Expecting value")
                Secure.calm) 0%nat = None
           /\ Secure.history s
              = [Secure.Open "config.json"; Secure.Load; Secure.CloseFile]
           /\ (Secure.fail_at
                 (Secure.failing 1 (Py.Exn Py.ValueError "Expecting value")
                    Secure.calm) 2%nat = Some e
               \/ Secure.fail_at
                    (Secure.failing 1
                       (Py.Exn Py.ValueError "Expecting value")
                       Secure.calm) 2%nat = None
                  /\ Secure.fail_at
                       (Secure.failing 1
                          (Py.Exn Py.ValueError "Expecting value")
                          Secure.calm) 1%nat = Some e)).
Proof.
  apply (unreadable_configuration_stops_before_the_prompts
           (Secure.failing 1 (Py.Exn Py.ValueError "Expecting value")
              Secure.calm)).
  exists 1%nat. split; [lia|discriminate].
Defined.

(** X13. What is typed at the password prompt reaches the password
    argument of connect and nothing else.  Two runs in which the library
    calls behave alike and only the typed password differs end the same
    way and make the same calls with the same arguments, that argument
    apart; in particular the line printed is the same. *)
Theorem password_reaches_only_the_connect_call
    (w : Secure.World) (p : string) :
  fst (Secure.run (Secure.typing p w)) = fst (Secure.run w)
  /\ map Secure.redact (Secure.history (snd (Secure.run (Secure.typing p w))))
     = map Secure.redact (Secure.history (snd (Secure.run w))).
Proof.
  secure_unfold. unfold Secure.history.
  cbn [Secure.typing Secure.fail_at Secure.parsed Secure.typed_login
       Secure.typed_password Secure.row].
  repeat (secure_step;
          match goal with
          | |- context [Secure.fail_at w ?k] =>
              destruct (Secure.fail_at w k)
          end);
    secure_step; try (split; reflexivity);
    destruct (Secure.parsed w) as [| | | | | |items]; secure_step;
    try (split; reflexivity);
    repeat (secure_step;
               match goal with
               | |- context [Secure.lookup ?i ?k] =>
                   destruct (Secure.lookup i k)
               | |- context [Secure.fail_at w ?k] =>
                   destruct (Secure.fail_at w k)
               | |- context [Secure.first_column (Secure.row w)] =>
                   destruct (Secure.row w) as [[|? ?]|]
               end);
    secure_step; split; reflexivity.
Qed.
